(** * Demo lifecycle controllers of the API-fetching visualiser

    Every page of the application is a React component holding a few
    state cells ([step], [status], [logs], a result), a [reset] function
    and an asynchronous [run...] function which schedules narration
    callbacks with [setTimeout] while a real [fetch] is in flight.

    The embedding is shallow: a component's state cells are a record,
    a state setter is a record update, and the browser's event loop is
    an explicit structure ([Loop.t]) holding the component state, the
    clock, the queue of pending timers, the suspended [async] functions
    and the exceptions nobody caught.  An [async] function is cut at
    its [await]s: the code up to the first [await] is one function on
    the loop, the code after each [await] another one, which the loop
    runs when the awaited promise settles. *)

From Stdlib Require Import String Ascii List Arith NArith Lia Bool DecimalString.
From stdpp Require Import base list strings.
From Stdlib Require Import ZArith.

Open Scope string_scope.
Open Scope list_scope.
Open Scope nat_scope.

(** Statements of a function body are applied left to right. *)
Notation "x |> f" := (f x) (at level 45, left associativity, only parsing).

(** ** JavaScript values, errors and HTTP responses *)

Module Js.

(** What [response.json()] can produce, and [undefined]. *)
#[local] Unset Elimination Schemes.
Inductive Val :=
| Undefined
| Null
| Bool (b : bool)
| Num (n : N)
| Str (s : string)
| Arr (items : list Val)
| Obj (fields : list (string * Val)).
#[local] Set Elimination Schemes.

Record Error := { name : string; message : string }.

(** The double-quote character, as a string. *)
Definition quote : string := String (ascii_of_nat 34) EmptyString.

(** Template-literal rendering of a non-negative integer. *)
Definition num (n : N) : string := NilZero.string_of_uint (N.to_uint n).

(** [String.prototype.toUpperCase], on ASCII letters. *)
Definition upper (c : ascii) : ascii :=
  let n := nat_of_ascii c in
  if Nat.leb 97 n && Nat.leb n 122 then ascii_of_nat (n - 32) else c.

Fixpoint toUpperCase (s : string) : string :=
  match s with
  | EmptyString => EmptyString
  | String c rest => String (upper c) (toUpperCase rest)
  end.

(** [String.prototype.startsWith] and [String.prototype.includes]. *)
Definition startsWith (prefix s : string) : bool := String.prefix prefix s.

Fixpoint includes (needle s : string) : bool :=
  String.prefix needle s ||
  match s with
  | EmptyString => false
  | String _ rest => includes needle rest
  end.

(** The keys of an object produced by [JSON.parse] are distinct, so
    the first binding of a key is its only one. *)
Fixpoint lookup (key : string) (fields : list (string * Val)) : option Val :=
  match fields with
  | [] => None
  | (k, v) :: rest => if String.eqb k key then Some v else lookup key rest
  end.

Definition orUndefined (o : option Val) : Val :=
  match o with Some v => v | None => Undefined end.

Definition cannotRead (what key : string) : Error :=
  {| name := "TypeError";
     message := "Cannot read properties of " +:+ what +:+
                " (reading '" +:+ key +:+ "')" |}.

(** [v[i]]: reading an index of [null] or [undefined] throws, reading
    one that is absent gives [undefined]. *)
Definition index (i : nat) (v : Val) : Error + Val :=
  match v with
  | Undefined => inl (cannotRead "undefined" (num (N.of_nat i)))
  | Null => inl (cannotRead "null" (num (N.of_nat i)))
  | Bool _ | Num _ => inr Undefined
  | Str s =>
      inr (match String.get i s with
           | Some c => Str (String c EmptyString)
           | None => Undefined
           end)
  | Arr items => inr (orUndefined (nth_error items i))
  | Obj fields => inr (orUndefined (lookup (num (N.of_nat i)) fields))
  end.

(** [v.key] for a key which is not a built-in member of arrays,
    strings, numbers or booleans (the pages read [url] only). *)
Definition prop (key : string) (v : Val) : Error + Val :=
  match v with
  | Undefined => inl (cannotRead "undefined" key)
  | Null => inl (cannotRead "null" key)
  | Bool _ | Num _ | Str _ | Arr _ => inr Undefined
  | Obj fields => inr (orUndefined (lookup key fields))
  end.

(** [v.length] *)
Definition length (v : Val) : Error + Val :=
  match v with
  | Undefined => inl (cannotRead "undefined" "length")
  | Null => inl (cannotRead "null" "length")
  | Bool _ | Num _ => inr Undefined
  | Str s => inr (Num (N.of_nat (String.length s)))
  | Arr items => inr (Num (N.of_nat (List.length items)))
  | Obj fields => inr (orUndefined (lookup "length" fields))
  end.

(** String conversion, as a template literal does it. *)
Fixpoint toString (v : Val) : string :=
  match v with
  | Undefined => "undefined"
  | Null => "null"
  | Bool true => "true"
  | Bool false => "false"
  | Num n => num n
  | Str s => s
  | Arr items =>
      let item x :=
        match x with Undefined | Null => EmptyString | _ => toString x end in
      (fix join (l : list Val) : string :=
         match l with
         | [] => EmptyString
         | [x] => item x
         | x :: rest => item x +:+ "," +:+ join rest
         end) items
  | Obj _ => "[object Object]"
  end.

(** Truthiness, as tested by [!url]. *)
Definition truthy (v : Val) : bool :=
  match v with
  | Undefined | Null => false
  | Bool b => b
  | Num n => negb (N.eqb n 0)
  | Str s => negb (String.eqb s EmptyString)
  | Arr _ | Obj _ => true
  end.

(** A response as the pages see it: the status line, and what reading
    the body gives ([bodyJson] is the outcome of the browser's JSON
    parser on the body, an error when the body is not valid JSON). *)
Record Blob := { size : N; blobType : string }.

Record Response := {
  status : N;
  contentType : Val;              (* headers.get("content-type") *)
  bodyText : string;
  bodyJson : Error + Val;
  bodyBlob : Blob
}.

(** [response.ok] *)
Definition ok (r : Response) : bool :=
  N.leb 200 (status r) && N.leb (status r) 299.

(** How the promise returned by [fetch] settles. *)
Inductive Settled :=
| Rejected (e : Error)
| Fulfilled (r : Response).

End Js.

(** ** Component state shared by the pages *)

Module Status.
Inductive t := idle | loading | success | error.

Definition eqb (a b : t) : bool :=
  match a, b with
  | idle, idle | loading, loading | success, success | error, error => true
  | _, _ => false
  end.
End Status.

Module Kind.
Inductive t := info | success | warning | error.
End Kind.

(** One line of the transcript.  [FetchBasics.jsx] calls the first
    field [message], the other pages [msg]. *)
Record LogEntry := { msg : string; type : Kind.t; timestamp : N }.

(** ** The event loop *)

Module Loop.
Section Loop.
Context {View Callback Cont : Type}.

Record Timer := { id : nat; due : N; callback : Callback }.

Record t := {
  view : View;                    (* the component's state cells *)
  clock : N;                      (* Date.now(), in milliseconds *)
  timers : list Timer;            (* pending timers, soonest first *)
  nextTimer : nat;                (* the id the next setTimeout returns *)
  pending : list (nat * Cont);    (* async functions suspended at an await *)
  nextPromise : nat;
  uncaught : list Js.Error        (* exceptions that reached the top level *)
}.

Definition update (f : View -> View) (L : t) : t :=
  {| view := f (view L); clock := clock L; timers := timers L;
     nextTimer := nextTimer L; pending := pending L;
     nextPromise := nextPromise L; uncaught := uncaught L |}.

(** A timer goes behind the timers that are due no later than it. *)
Fixpoint enqueue (x : Timer) (q : list Timer) : list Timer :=
  match q with
  | [] => [x]
  | y :: q' => if N.ltb (due x) (due y) then x :: y :: q' else y :: enqueue x q'
  end.

Definition setTimeout (cb : Callback) (delay : N) (L : t) : t :=
  {| view := view L; clock := clock L;
     timers := enqueue {| id := nextTimer L; due := (clock L + delay)%N;
                          callback := cb |} (timers L);
     nextTimer := S (nextTimer L); pending := pending L;
     nextPromise := nextPromise L; uncaught := uncaught L |}.

(** Clearing an id that is not pending does nothing. *)
Definition clearTimeout (i : nat) (L : t) : t :=
  {| view := view L; clock := clock L;
     timers := filter (fun x => id x <> i) (timers L);
     nextTimer := nextTimer L; pending := pending L;
     nextPromise := nextPromise L; uncaught := uncaught L |}.

(** Suspend the running async function at an [await]. *)
Definition await (k : Cont) (L : t) : t :=
  {| view := view L; clock := clock L; timers := timers L;
     nextTimer := nextTimer L;
     pending := pending L ++ [(nextPromise L, k)];
     nextPromise := S (nextPromise L); uncaught := uncaught L |}.

Fixpoint remove (p : nat) (ks : list (nat * Cont))
  : option (Cont * list (nat * Cont)) :=
  match ks with
  | [] => None
  | (q, k) :: rest =>
      if Nat.eqb q p then Some (k, rest)
      else match remove p rest with
           | Some (k', rest') => Some (k', (q, k) :: rest')
           | None => None
           end
  end.

Definition withPending (ks : list (nat * Cont)) (L : t) : t :=
  {| view := view L; clock := clock L; timers := timers L;
     nextTimer := nextTimer L; pending := ks;
     nextPromise := nextPromise L; uncaught := uncaught L |}.

(** The function suspended on promise [p], taken off the list. *)
Definition take (p : nat) (L : t) : option (Cont * t) :=
  match remove p (pending L) with
  | Some (k, rest) => Some (k, withPending rest L)
  | None => None
  end.

(** What a timer callback does to the component state when it runs at
    time [now]; an exception it throws reaches the top level.  The
    callbacks of these pages never schedule timers themselves. *)
Variable fire : Callback -> N -> View -> View * option Js.Error.

Definition thrown (e : option Js.Error) : list Js.Error :=
  match e with Some x => [x] | None => [] end.

(** Run, in order, the timers that are due by [deadline]. *)
Fixpoint drain (deadline : N) (q : list Timer) (s : View)
    (errs : list Js.Error) : list Timer * View * list Js.Error :=
  match q with
  | [] => ([], s, errs)
  | x :: q' =>
      if N.leb (due x) deadline then
        let r := fire (callback x) (due x) s in
        drain deadline q' (fst r) (errs ++ thrown (snd r))
      else (q, s, errs)
  end.

(** [ms] milliseconds pass. *)
Definition elapse (ms : N) (L : t) : t :=
  let r := drain (clock L + ms)%N (timers L) (view L) (uncaught L) in
  {| view := snd (fst r); clock := (clock L + ms)%N;
     timers := fst (fst r);
     nextTimer := nextTimer L; pending := pending L;
     nextPromise := nextPromise L; uncaught := snd r |}.

End Loop.

Arguments Timer : clear implicits.
Arguments t : clear implicits.

(** A freshly mounted component at time [now]. *)
Definition mount {View Callback Cont} (s : View) (now : N)
    : t View Callback Cont :=
  {| view := s; clock := now; timers := []; nextTimer := 1; pending := [];
     nextPromise := 0; uncaught := [] |}.

(** Nothing scheduled and nothing in flight. *)
Definition quiescent {View Callback Cont} (L : t View Callback Cont) : Prop :=
  timers L = [] /\ pending L = [].

End Loop.

(** ** What happens to a mounted demo page *)

Inductive Event :=
| Select (m : string)         (* a click on a mode, method or scenario button *)
| ClickRun
| ClickReset
| Elapse (ms : N)             (* time passes; the timers that are due run *)
| FetchSettles (promise : nat) (r : Js.Settled)
| BodyRead (promise : nat).   (* the awaited body of a response is there *)

(** The events by which a promise settles. *)
Definition network (e : Event) : bool :=
  match e with FetchSettles _ _ | BodyRead _ => true | _ => false end.

(** ** FetchBasics.jsx *)

Module FetchBasics.

Record State := {
  step : nat;
  status : Status.t;
  imageUrl : Js.Val;
  logs : list LogEntry;
  responseData : Js.Val
}.

(** The [useState] initial values. *)
Definition initial : State :=
  {| step := 0; status := Status.idle; imageUrl := Js.Null; logs := [];
     responseData := Js.Null |}.

Definition setStep (n : nat) (s : State) : State :=
  {| step := n; status := status s; imageUrl := imageUrl s;
     logs := logs s; responseData := responseData s |}.
Definition setStatus (x : Status.t) (s : State) : State :=
  {| step := step s; status := x; imageUrl := imageUrl s;
     logs := logs s; responseData := responseData s |}.
Definition setImageUrl (v : Js.Val) (s : State) : State :=
  {| step := step s; status := status s; imageUrl := v;
     logs := logs s; responseData := responseData s |}.
Definition setLogs (f : list LogEntry -> list LogEntry) (s : State) : State :=
  {| step := step s; status := status s; imageUrl := imageUrl s;
     logs := f (logs s); responseData := responseData s |}.
Definition setResponseData (v : Js.Val) (s : State) : State :=
  {| step := step s; status := status s; imageUrl := imageUrl s;
     logs := logs s; responseData := v |}.

Definition addLog (message : string) (type : Kind.t) (now : N)
    (s : State) : State :=
  setLogs (fun prev => prev ++
             [{| msg := message; type := type; timestamp := now |}]) s.

Definition reset (s : State) : State :=
  s |> setStep 0
    |> setStatus Status.idle
    |> setImageUrl Js.Null
    |> setLogs (fun _ => [])
    |> setResponseData Js.Null.

(** The four callbacks [runFetch] hands to [setTimeout]; the last one
    closes over the parsed body. *)
Inductive Callback :=
| sending
| processing
| updating
| rendered (data : Js.Val).

Definition fire (cb : Callback) (now : N) (s : State)
    : State * option Js.Error :=
  match cb with
  | sending =>
      (s |> setStep 1
         |> addLog "Browser sending HTTP request to API..." Kind.info now,
       None)
  | processing =>
      (s |> setStep 2 |> addLog "API processing request..." Kind.info now,
       None)
  | updating =>
      (s |> setStep 3
         |> addLog "Updating UI with fetched data..." Kind.info now,
       None)
  | rendered data =>
      match Js.index 0 data with
      | inl e => (s, Some e)
      | inr first =>
          match Js.prop "url" first with
          | inl e => (s, Some e)
          | inr url =>
              (s |> setImageUrl url
                 |> setStatus Status.success
                 |> addLog "Image rendered successfully." Kind.success now,
               None)
          end
      end
  end.

(** Where [runFetch] can be suspended. *)
Inductive Cont :=
| awaitFetch
| awaitJson (response : Js.Response).

Definition Loop := Loop.t State Callback Cont.

Definition catch (error : Js.Error) (L : Loop) : Loop :=
  let now := Loop.clock L in
  L |> Loop.update (setStatus Status.error)
    |> Loop.update (addLog ("Error: " +:+ Js.message error) Kind.error now).

(** [runFetch] up to [await fetch(...)]. *)
Definition runFetch (L : Loop) : Loop :=
  let now := Loop.clock L in
  L |> Loop.update reset
    |> Loop.update (setStatus Status.loading)
    |> Loop.update (addLog "Starting fetch request..." Kind.info now)
    |> Loop.setTimeout sending 500
    |> Loop.setTimeout processing 1400
    |> Loop.await awaitFetch.

(** From the settling of [fetch] to [await response.json()]. *)
Definition afterFetch (r : Js.Settled) (L : Loop) : Loop :=
  let now := Loop.clock L in
  match r with
  | Js.Rejected e => catch e L
  | Js.Fulfilled response =>
      let L1 :=
        L |> Loop.update
               (addLog ("Response received. Status: " +:+
                        Js.num (Js.status response)) Kind.success now) in
      if negb (Js.ok response) then
        catch {| Js.name := "Error";
                 Js.message := "HTTP Error. Status: " +:+
                               Js.num (Js.status response) |} L1
      else Loop.await (awaitJson response) L1
  end.

(** From the settling of [response.json()] to the end of the [try]. *)
Definition afterJson (response : Js.Response) (L : Loop) : Loop :=
  let now := Loop.clock L in
  match Js.bodyJson response with
  | inl e => catch e L
  | inr data =>
      L |> Loop.update (setResponseData data)
        |> Loop.update (addLog "JSON parsed successfully." Kind.success now)
        |> Loop.setTimeout updating 2400
        |> Loop.setTimeout (rendered data) 3200
  end.

(** The run button carries [disabled={status === "loading"}]; the
    page has no selector. *)
Definition handle (e : Event) (L : Loop) : Loop :=
  match e with
  | Select _ => L
  | ClickRun =>
      if Status.eqb (status (Loop.view L)) Status.loading then L
      else runFetch L
  | ClickReset => Loop.update reset L
  | Elapse ms => Loop.elapse fire ms L
  | FetchSettles p r =>
      match Loop.take p L with
      | Some (awaitFetch, L') => afterFetch r L'
      | _ => L
      end
  | BodyRead p =>
      match Loop.take p L with
      | Some (awaitJson response, L') => afterJson response L'
      | _ => L
      end
  end.

Definition run (es : list Event) (L : Loop) : Loop :=
  fold_left (fun L e => handle e L) es L.

(** *** A run in flight *)

(** A narration callback, which leaves the status alone. *)
Definition quiet (cb : Callback) : Prop :=
  match cb with rendered _ => False | _ => True end.

(** The status is loading and the pending timers are narration steps
    due within [bound] milliseconds. *)
Definition flying (bound : N) (L : Loop) : Prop :=
  status (Loop.view L) = Status.loading /\
  Forall (fun x => (Loop.due x <= Loop.clock L + bound)%N /\
                   quiet (Loop.callback x)) (Loop.timers L).

(** The run is suspended on promise [p], to go on as [k]. *)
Definition awaiting (bound : N) (p : nat) (k : Cont) (L : Loop) : Prop :=
  flying bound L /\ Loop.pending L = [(p, k)] /\ Loop.nextPromise L = S p.

End FetchBasics.

(** ** PromisesAsync.jsx *)

Module PromisesAsync.

Record State := {
  step : nat;
  mode : string;
  status : Status.t;
  imageUrl : Js.Val;
  logs : list LogEntry;
  executionTime : option N
}.

Definition initial : State :=
  {| step := 0; mode := "await"; status := Status.idle;
     imageUrl := Js.Null; logs := []; executionTime := None |}.

Definition setStep (n : nat) (s : State) : State :=
  {| step := n; mode := mode s; status := status s;
     imageUrl := imageUrl s; logs := logs s;
     executionTime := executionTime s |}.
Definition setMode (m : string) (s : State) : State :=
  {| step := step s; mode := m; status := status s;
     imageUrl := imageUrl s; logs := logs s;
     executionTime := executionTime s |}.
Definition setStatus (x : Status.t) (s : State) : State :=
  {| step := step s; mode := mode s; status := x;
     imageUrl := imageUrl s; logs := logs s;
     executionTime := executionTime s |}.
Definition setImageUrl (v : Js.Val) (s : State) : State :=
  {| step := step s; mode := mode s; status := status s;
     imageUrl := v; logs := logs s; executionTime := executionTime s |}.
Definition setLogs (f : list LogEntry -> list LogEntry) (s : State) : State :=
  {| step := step s; mode := mode s; status := status s;
     imageUrl := imageUrl s; logs := f (logs s);
     executionTime := executionTime s |}.
Definition setExecutionTime (x : option N) (s : State) : State :=
  {| step := step s; mode := mode s; status := status s;
     imageUrl := imageUrl s; logs := logs s; executionTime := x |}.

Definition addLog (m : string) (type : Kind.t) (now : N) (s : State)
    : State :=
  setLogs (fun prev => prev ++
             [{| msg := m; type := type; timestamp := now |}]) s.

Definition reset (s : State) : State :=
  s |> setStep 0
    |> setStatus Status.idle
    |> setImageUrl Js.Null
    |> setLogs (fun _ => [])
    |> setExecutionTime None.

Inductive Callback :=
| initiating
| waiting
| executing (selectedMode : string)
| updated (data : Js.Val) (startTime : N).

Definition fire (cb : Callback) (now : N) (s : State)
    : State * option Js.Error :=
  match cb with
  | initiating =>
      (s |> setStep 1
         |> addLog "Browser initiating fetch request" Kind.info now, None)
  | waiting =>
      (s |> setStep 2
         |> addLog "Waiting for API response..." Kind.info now, None)
  | executing selectedMode =>
      let s1 := setStep 3 s in
      (if String.eqb selectedMode "then"
       then addLog "Executing .then() chain callbacks" Kind.info now s1
       else addLog "Executing await statement for JSON parsing"
              Kind.info now s1,
       None)
  | updated data startTime =>
      (* setStep(4) has taken effect when data[0].url is evaluated *)
      let s1 := setStep 4 s in
      match Js.index 0 data with
      | inl e => (s1, Some e)
      | inr first =>
          match Js.prop "url" first with
          | inl e => (s1, Some e)
          | inr url =>
              let endTime := now in
              (s1 |> setImageUrl url
                  |> setStatus Status.success
                  |> setExecutionTime (Some (endTime - startTime)%N)
                  |> addLog "UI updated with image" Kind.success now
                  |> addLog ("Total execution time: " +:+
                             Js.num (endTime - startTime)%N +:+ "ms")
                       Kind.info now,
               None)
          end
      end
  end.

Inductive Cont :=
| awaitFetch (selectedMode : string) (startTime : N)
| awaitJson (response : Js.Response) (startTime : N).

Definition Loop := Loop.t State Callback Cont.

Definition catch (error : Js.Error) (L : Loop) : Loop :=
  let now := Loop.clock L in
  L |> Loop.update (setStatus Status.error)
    |> Loop.update
         (addLog ("Error caught: " +:+ Js.message error) Kind.error now).

(** [runFlow] up to [await fetch(...)]. *)
Definition runFlow (selectedMode : string) (L : Loop) : Loop :=
  let now := Loop.clock L in
  let startTime := now in
  L |> Loop.update reset
    |> Loop.update (setMode selectedMode)
    |> Loop.update (setStatus Status.loading)
    |> Loop.update
         (addLog ("Starting " +:+
                  (if String.eqb selectedMode "then" then ".then() chain"
                   else "async/await") +:+ " pattern...") Kind.info now)
    |> Loop.setTimeout initiating 500
    |> Loop.setTimeout waiting 1200
    |> Loop.await (awaitFetch selectedMode startTime).

Definition afterFetch (selectedMode : string) (startTime : N)
    (r : Js.Settled) (L : Loop) : Loop :=
  let now := Loop.clock L in
  match r with
  | Js.Rejected e => catch e L
  | Js.Fulfilled response =>
      let L1 :=
        L |> Loop.update
               (addLog ("Response received with status: " +:+
                        Js.num (Js.status response)) Kind.success now) in
      if negb (Js.ok response) then
        catch {| Js.name := "Error"; Js.message := "Request failed" |} L1
      else
        L1 |> Loop.setTimeout (executing selectedMode) 2200
           |> Loop.await (awaitJson response startTime)
  end.

Definition afterJson (response : Js.Response) (startTime : N)
    (L : Loop) : Loop :=
  let now := Loop.clock L in
  match Js.bodyJson response with
  | inl e => catch e L
  | inr data =>
      L |> Loop.update
             (addLog "JSON data parsed successfully" Kind.success now)
        |> Loop.setTimeout (updated data startTime) 3200
  end.

(** The run button is [onClick={() => runFlow(mode)}] with
    [disabled={status === "loading"}]. *)
Definition handle (e : Event) (L : Loop) : Loop :=
  match e with
  | Select m => Loop.update (setMode m) L
  | ClickRun =>
      if Status.eqb (status (Loop.view L)) Status.loading then L
      else runFlow (mode (Loop.view L)) L
  | ClickReset => Loop.update reset L
  | Elapse ms => Loop.elapse fire ms L
  | FetchSettles p r =>
      match Loop.take p L with
      | Some (awaitFetch selectedMode startTime, L') =>
          afterFetch selectedMode startTime r L'
      | _ => L
      end
  | BodyRead p =>
      match Loop.take p L with
      | Some (awaitJson response startTime, L') =>
          afterJson response startTime L'
      | _ => L
      end
  end.

Definition run (es : list Event) (L : Loop) : Loop :=
  fold_left (fun L e => handle e L) es L.

(** *** A run in flight *)

(** A narration callback, which leaves the status alone. *)
Definition quiet (cb : Callback) : Prop :=
  match cb with updated _ _ => False | _ => True end.

(** The status is loading and the pending timers are narration steps
    due within [bound] milliseconds. *)
Definition flying (bound : N) (L : Loop) : Prop :=
  status (Loop.view L) = Status.loading /\
  Forall (fun x => (Loop.due x <= Loop.clock L + bound)%N /\
                   quiet (Loop.callback x)) (Loop.timers L).

(** The run is suspended on promise [p], to go on as [k]. *)
Definition awaiting (bound : N) (p : nat) (k : Cont) (L : Loop) : Prop :=
  flying bound L /\ Loop.pending L = [(p, k)] /\ Loop.nextPromise L = S p.

End PromisesAsync.

(** ** XhrLegacy.jsx *)

Module XhrLegacy.

(** The [codeMetrics] cell is never written and is left out. *)
Record State := {
  step : nat;
  status : Status.t;
  imageUrl : Js.Val;
  activeMethod : string;
  logs : list LogEntry
}.

Definition initial : State :=
  {| step := 0; status := Status.idle; imageUrl := Js.Null;
     activeMethod := "xhr"; logs := [] |}.

Definition setStep (n : nat) (s : State) : State :=
  {| step := n; status := status s; imageUrl := imageUrl s;
     activeMethod := activeMethod s; logs := logs s |}.
Definition setStatus (x : Status.t) (s : State) : State :=
  {| step := step s; status := x; imageUrl := imageUrl s;
     activeMethod := activeMethod s; logs := logs s |}.
Definition setImageUrl (v : Js.Val) (s : State) : State :=
  {| step := step s; status := status s; imageUrl := v;
     activeMethod := activeMethod s; logs := logs s |}.
Definition setActiveMethod (m : string) (s : State) : State :=
  {| step := step s; status := status s; imageUrl := imageUrl s;
     activeMethod := m; logs := logs s |}.
Definition setLogs (f : list LogEntry -> list LogEntry) (s : State) : State :=
  {| step := step s; status := status s; imageUrl := imageUrl s;
     activeMethod := activeMethod s; logs := f (logs s) |}.

Definition addLog (m : string) (type : Kind.t) (now : N) (s : State)
    : State :=
  setLogs (fun prev => prev ++
             [{| msg := m; type := type; timestamp := now |}]) s.

Definition reset (s : State) : State :=
  s |> setStep 0
    |> setStatus Status.idle
    |> setImageUrl Js.Null
    |> setLogs (fun _ => []).

(** The callbacks close over the [activeMethod] of the render in
    which the run button was clicked. *)
Inductive Callback :=
| initiating (activeMethod : string)
| sent
| processing (activeMethod : string)
| rendered (data : Js.Val).

Definition fire (cb : Callback) (now : N) (s : State)
    : State * option Js.Error :=
  match cb with
  | initiating method =>
      (s |> setStep 1
         |> addLog ("Browser initiating " +:+ Js.toUpperCase method +:+
                    " request") Kind.info now, None)
  | sent =>
      (s |> setStep 2
         |> addLog "Request sent to Cat API server" Kind.info now, None)
  | processing method =>
      (s |> setStep 3
         |> addLog ((if String.eqb method "xhr" then "Callback"
                     else "Promise") +:+ " processing response")
              Kind.info now, None)
  | rendered data =>
      match Js.index 0 data with
      | inl e => (s, Some e)
      | inr first =>
          match Js.prop "url" first with
          | inl e => (s, Some e)
          | inr url =>
              (s |> setImageUrl url
                 |> setStatus Status.success
                 |> addLog "Image rendered in UI" Kind.success now, None)
          end
      end
  end.

Inductive Cont :=
| awaitFetch (activeMethod : string)
| awaitJson (activeMethod : string) (response : Js.Response).

Definition Loop := Loop.t State Callback Cont.

Definition catch (error : Js.Error) (L : Loop) : Loop :=
  let now := Loop.clock L in
  L |> Loop.update (setStatus Status.error)
    |> Loop.update
         (addLog ("Request failed: " +:+ Js.message error) Kind.error now).

(** [runXhrFlow] up to [await fetch(...)], in a render whose
    [activeMethod] is [method]. *)
Definition runXhrFlow (method : string) (L : Loop) : Loop :=
  let now := Loop.clock L in
  L |> Loop.update reset
    |> Loop.update (setStatus Status.loading)
    |> Loop.update
         (addLog ("Starting " +:+ Js.toUpperCase method +:+
                  " request flow...") Kind.info now)
    |> Loop.setTimeout (initiating method) 500
    |> Loop.setTimeout sent 1400
    |> Loop.await (awaitFetch method).

Definition afterFetch (method : string) (r : Js.Settled) (L : Loop)
    : Loop :=
  let now := Loop.clock L in
  match r with
  | Js.Rejected e => catch e L
  | Js.Fulfilled response =>
      let L1 :=
        L |> Loop.update
               (addLog ("Response received with status: " +:+
                        Js.num (Js.status response)) Kind.success now) in
      if negb (Js.ok response) then
        catch {| Js.name := "Error"; Js.message := "Request failed" |} L1
      else Loop.await (awaitJson method response) L1
  end.

Definition afterJson (method : string) (response : Js.Response)
    (L : Loop) : Loop :=
  let now := Loop.clock L in
  match Js.bodyJson response with
  | inl e => catch e L
  | inr data =>
      L |> Loop.update
             (addLog "JSON data parsed successfully" Kind.success now)
        |> Loop.setTimeout (processing method) 2400
        |> Loop.setTimeout (rendered data) 3200
  end.

Definition handle (e : Event) (L : Loop) : Loop :=
  match e with
  | Select m => Loop.update (setActiveMethod m) L
  | ClickRun =>
      if Status.eqb (status (Loop.view L)) Status.loading then L
      else runXhrFlow (activeMethod (Loop.view L)) L
  | ClickReset => Loop.update reset L
  | Elapse ms => Loop.elapse fire ms L
  | FetchSettles p r =>
      match Loop.take p L with
      | Some (awaitFetch method, L') => afterFetch method r L'
      | _ => L
      end
  | BodyRead p =>
      match Loop.take p L with
      | Some (awaitJson method response, L') =>
          afterJson method response L'
      | _ => L
      end
  end.

Definition run (es : list Event) (L : Loop) : Loop :=
  fold_left (fun L e => handle e L) es L.

(** *** A run in flight *)

(** A narration callback, which leaves the status alone. *)
Definition quiet (cb : Callback) : Prop :=
  match cb with rendered _ => False | _ => True end.

(** The status is loading and the pending timers are narration steps
    due within [bound] milliseconds. *)
Definition flying (bound : N) (L : Loop) : Prop :=
  status (Loop.view L) = Status.loading /\
  Forall (fun x => (Loop.due x <= Loop.clock L + bound)%N /\
                   quiet (Loop.callback x)) (Loop.timers L).

(** The run is suspended on promise [p], to go on as [k]. *)
Definition awaiting (bound : N) (p : nat) (k : Cont) (L : Loop) : Prop :=
  flying bound L /\ Loop.pending L = [(p, k)] /\ Loop.nextPromise L = S p.

End XhrLegacy.

(** ** RequestConfig (second component of XhrLegacy.jsx) *)

Module RequestConfig.

Record Body := { demo : bool; sent : N (* timestamp *) }.

Record ConfigDetails := {
  method : option string;
  headers : option (list (string * string));
  body : option Body
}.

Record State := {
  step : nat;
  status : Status.t;
  responseStatus : option N;
  logs : list LogEntry;
  selectedMethod : string;
  configDetails : ConfigDetails
}.

Definition noConfig : ConfigDetails :=
  {| method := None; headers := None; body := None |}.

Definition initial : State :=
  {| step := 0; status := Status.idle; responseStatus := None; logs := [];
     selectedMethod := "GET"; configDetails := noConfig |}.

Definition setStep (n : nat) (s : State) : State :=
  {| step := n; status := status s; responseStatus := responseStatus s;
     logs := logs s; selectedMethod := selectedMethod s;
     configDetails := configDetails s |}.
Definition setStatus (x : Status.t) (s : State) : State :=
  {| step := step s; status := x; responseStatus := responseStatus s;
     logs := logs s; selectedMethod := selectedMethod s;
     configDetails := configDetails s |}.
Definition setResponseStatus (x : option N) (s : State) : State :=
  {| step := step s; status := status s; responseStatus := x;
     logs := logs s; selectedMethod := selectedMethod s;
     configDetails := configDetails s |}.
Definition setLogs (f : list LogEntry -> list LogEntry) (s : State) : State :=
  {| step := step s; status := status s;
     responseStatus := responseStatus s; logs := f (logs s);
     selectedMethod := selectedMethod s;
     configDetails := configDetails s |}.
Definition setSelectedMethod (m : string) (s : State) : State :=
  {| step := step s; status := status s;
     responseStatus := responseStatus s; logs := logs s;
     selectedMethod := m; configDetails := configDetails s |}.
Definition setConfigDetails (f : ConfigDetails -> ConfigDetails)
    (s : State) : State :=
  {| step := step s; status := status s;
     responseStatus := responseStatus s; logs := logs s;
     selectedMethod := selectedMethod s;
     configDetails := f (configDetails s) |}.

Definition addLog (m : string) (type : Kind.t) (now : N) (s : State)
    : State :=
  setLogs (fun prev => prev ++
             [{| msg := m; type := type; timestamp := now |}]) s.

Definition reset (s : State) : State :=
  s |> setStep 0
    |> setStatus Status.idle
    |> setResponseStatus None
    |> setLogs (fun _ => [])
    |> setConfigDetails (fun _ => noConfig).

Definition demoHeaders : list (string * string) :=
  [("Content-Type", "application/json");
   ("x-demo-client", "build-it-api-fetching")].

Inductive Callback :=
| preparing
| settingMethod (selectedMethod : string)
| attaching
| preparingBody (selectedMethod : string)
| sending
| processing
| parsing
| completed.

Definition fire (cb : Callback) (now : N) (s : State)
    : State * option Js.Error :=
  match cb with
  | preparing =>
      (s |> setStep 1
         |> addLog "Browser preparing fetch() call" Kind.info now, None)
  | settingMethod m =>
      (s |> setStep 2
         |> setConfigDetails
              (fun prev => {| method := Some m; headers := headers prev;
                              body := body prev |})
         |> addLog ("Setting HTTP method: " +:+ m) Kind.info now, None)
  | attaching =>
      (s |> setStep 3
         |> setConfigDetails
              (fun prev => {| method := method prev;
                              headers := Some demoHeaders;
                              body := body prev |})
         |> addLog "Attaching request headers" Kind.info now
         |> addLog "Header: Content-Type: application/json"
              Kind.success now
         |> addLog "Header: x-demo-client: build-it-api-fetching"
              Kind.success now, None)
  | preparingBody m =>
      let s1 := setStep 4 s in
      (if negb (String.eqb m "GET") then
         s1 |> setConfigDetails
                 (fun prev => {| method := method prev;
                                 headers := headers prev;
                                 body := Some {| demo := true;
                                                 sent := now |} |})
            |> addLog "Preparing request body (JSON)" Kind.info now
       else addLog "No body needed for GET request" Kind.info now s1,
       None)
  | sending =>
      (s |> setStep 5
         |> addLog "Sending HTTP request to API..." Kind.info now, None)
  | processing =>
      (s |> setStep 6
         |> addLog "API processing request..." Kind.info now, None)
  | parsing =>
      (s |> setStep 7
         |> addLog "Parsing HTTP response..." Kind.info now, None)
  | completed =>
      (s |> setStatus Status.success
         |> addLog "Request completed successfully" Kind.success now, None)
  end.

Inductive Cont :=
| awaitFetch (selectedMethod : string)
| awaitJson (response : Js.Response).

Definition Loop := Loop.t State Callback Cont.

Definition catch (error : Js.Error) (L : Loop) : Loop :=
  let now := Loop.clock L in
  L |> Loop.update (setStatus Status.error)
    |> Loop.update
         (addLog ("Request failed: " +:+ Js.message error) Kind.error now).

(** [runConfiguredFetch] up to [await fetch(...)], in a render whose
    [selectedMethod] is [m]. *)
Definition runConfiguredFetch (m : string) (L : Loop) : Loop :=
  let now := Loop.clock L in
  L |> Loop.update reset
    |> Loop.update (setStatus Status.loading)
    |> Loop.update
         (addLog "Initializing fetch request configuration..."
            Kind.info now)
    |> Loop.setTimeout preparing 500
    |> Loop.setTimeout (settingMethod m) 1200
    |> Loop.setTimeout attaching 2200
    |> Loop.setTimeout (preparingBody m) 3200
    |> Loop.setTimeout sending 4000
    |> Loop.await (awaitFetch m).

Definition afterFetch (r : Js.Settled) (L : Loop) : Loop :=
  let now := Loop.clock L in
  match r with
  | Js.Rejected e => catch e L
  | Js.Fulfilled response =>
      let L1 :=
        L |> Loop.setTimeout processing 4500
          |> Loop.update (setResponseStatus (Some (Js.status response)))
          |> Loop.update
               (addLog ("Response received with status: " +:+
                        Js.num (Js.status response)) Kind.success now) in
      if negb (Js.ok response) then
        catch {| Js.name := "Error"; Js.message := "Request failed" |} L1
      else
        L1 |> Loop.setTimeout parsing 5000
           |> Loop.await (awaitJson response)
  end.

Definition afterJson (response : Js.Response) (L : Loop) : Loop :=
  let now := Loop.clock L in
  match Js.bodyJson response with
  | inl e => catch e L
  | inr _ =>
      L |> Loop.update
             (addLog "Response data parsed successfully" Kind.success now)
        |> Loop.setTimeout completed 5500
  end.

Definition handle (e : Event) (L : Loop) : Loop :=
  match e with
  | Select m => Loop.update (setSelectedMethod m) L
  | ClickRun =>
      if Status.eqb (status (Loop.view L)) Status.loading then L
      else runConfiguredFetch (selectedMethod (Loop.view L)) L
  | ClickReset => Loop.update reset L
  | Elapse ms => Loop.elapse fire ms L
  | FetchSettles p r =>
      match Loop.take p L with
      | Some (awaitFetch _, L') => afterFetch r L'
      | _ => L
      end
  | BodyRead p =>
      match Loop.take p L with
      | Some (awaitJson response, L') => afterJson response L'
      | _ => L
      end
  end.

Definition run (es : list Event) (L : Loop) : Loop :=
  fold_left (fun L e => handle e L) es L.

End RequestConfig.

(** ** ResponseParsing (third component of XhrLegacy.jsx) *)

Module ResponseParsing.

Record State := {
  step : nat;
  status : Status.t;
  mode : string;
  imageUrl : Js.Val;
  rawPreview : string;
  logs : list LogEntry;
  contentType : Js.Val;
  dataSize : option N
}.

Definition initial : State :=
  {| step := 0; status := Status.idle; mode := "json";
     imageUrl := Js.Null; rawPreview := EmptyString; logs := [];
     contentType := Js.Null; dataSize := None |}.

Definition setStep (n : nat) (s : State) : State :=
  {| step := n; status := status s; mode := mode s;
     imageUrl := imageUrl s; rawPreview := rawPreview s; logs := logs s;
     contentType := contentType s; dataSize := dataSize s |}.
Definition setStatus (x : Status.t) (s : State) : State :=
  {| step := step s; status := x; mode := mode s;
     imageUrl := imageUrl s; rawPreview := rawPreview s; logs := logs s;
     contentType := contentType s; dataSize := dataSize s |}.
Definition setMode (m : string) (s : State) : State :=
  {| step := step s; status := status s; mode := m;
     imageUrl := imageUrl s; rawPreview := rawPreview s; logs := logs s;
     contentType := contentType s; dataSize := dataSize s |}.
Definition setImageUrl (v : Js.Val) (s : State) : State :=
  {| step := step s; status := status s; mode := mode s;
     imageUrl := v; rawPreview := rawPreview s; logs := logs s;
     contentType := contentType s; dataSize := dataSize s |}.
Definition setRawPreview (x : string) (s : State) : State :=
  {| step := step s; status := status s; mode := mode s;
     imageUrl := imageUrl s; rawPreview := x; logs := logs s;
     contentType := contentType s; dataSize := dataSize s |}.
Definition setLogs (f : list LogEntry -> list LogEntry) (s : State) : State :=
  {| step := step s; status := status s; mode := mode s;
     imageUrl := imageUrl s; rawPreview := rawPreview s;
     logs := f (logs s); contentType := contentType s;
     dataSize := dataSize s |}.
Definition setContentType (v : Js.Val) (s : State) : State :=
  {| step := step s; status := status s; mode := mode s;
     imageUrl := imageUrl s; rawPreview := rawPreview s; logs := logs s;
     contentType := v; dataSize := dataSize s |}.
Definition setDataSize (x : option N) (s : State) : State :=
  {| step := step s; status := status s; mode := mode s;
     imageUrl := imageUrl s; rawPreview := rawPreview s; logs := logs s;
     contentType := contentType s; dataSize := x |}.

Definition addLog (m : string) (type : Kind.t) (now : N) (s : State)
    : State :=
  setLogs (fun prev => prev ++
             [{| msg := m; type := type; timestamp := now |}]) s.

Definition reset (s : State) : State :=
  s |> setStep 0
    |> setStatus Status.idle
    |> setImageUrl Js.Null
    |> setRawPreview EmptyString
    |> setLogs (fun _ => [])
    |> setContentType Js.Null
    |> setDataSize None.

Inductive Callback :=
| sending
| received (response : Js.Response)
| calling (selectedMode : string)
| shown (raw : string) (size : N)
| shownImage (objectUrl : string).

Definition fire (cb : Callback) (now : N) (s : State)
    : State * option Js.Error :=
  match cb with
  | sending =>
      (s |> setStep 1
         |> addLog "Sending HTTP request to API..." Kind.info now, None)
  | received response =>
      let ct := Js.contentType response in
      (s |> setStep 2
         |> addLog ("Response received with status: " +:+
                    Js.num (Js.status response)) Kind.success now
         |> setContentType ct
         |> addLog ("Content-Type: " +:+ Js.toString ct) Kind.info now,
       None)
  | calling selectedMode =>
      (s |> setStep 3
         |> addLog ("Calling response." +:+ selectedMode +:+
                    "() to parse body...") Kind.info now, None)
  | shown raw size =>
      (s |> setStatus Status.success
         |> setStep 4
         |> setRawPreview raw
         |> addLog ("Data size: " +:+ Js.num size +:+ " bytes")
              Kind.info now, None)
  | shownImage objectUrl =>
      (s |> setStatus Status.success
         |> setStep 4
         |> setImageUrl (Js.Str objectUrl), None)
  end.

Inductive Cont :=
| awaitFetch (selectedMode : string)
| awaitJson (response : Js.Response)
| awaitText (response : Js.Response)
| awaitBlobJson (response : Js.Response)
| awaitImage (url : Js.Val)
| awaitBlob (imgResponse : Js.Response).

Definition Loop := Loop.t State Callback Cont.

Definition catch (error : Js.Error) (L : Loop) : Loop :=
  let now := Loop.clock L in
  L |> Loop.update (setStatus Status.error)
    |> Loop.update (addLog ("Error: " +:+ Js.message error) Kind.error now).

(** [runParse] up to the first [await fetch(...)]. *)
Definition runParse (selectedMode : string) (L : Loop) : Loop :=
  let now := Loop.clock L in
  L |> Loop.update reset
    |> Loop.update (setMode selectedMode)
    |> Loop.update (setStatus Status.loading)
    |> Loop.update
         (addLog ("Starting response parsing with ." +:+ selectedMode +:+
                  "() method") Kind.info now)
    |> Loop.setTimeout sending 500
    |> Loop.await (awaitFetch selectedMode).

Section Browser.
(** Browser primitives the page calls and whose results it only
    displays: [JSON.stringify(data, null, 2)], [new Blob([s]).size],
    [(n / 1024).toFixed(2)] and [URL.createObjectURL]. *)
Variable stringify : Js.Val -> string.
Variable byteSize : string -> N.
Variable kilobytes : N -> string.
Variable createObjectURL : Js.Blob -> string.

Definition afterFetch (selectedMode : string) (r : Js.Settled)
    (L : Loop) : Loop :=
  match r with
  | Js.Rejected e => catch e L
  | Js.Fulfilled response =>
      let L1 := Loop.setTimeout (received response) 1000 L in
      if negb (Js.ok response) then
        catch {| Js.name := "Error";
                 Js.message := "Request failed: " +:+
                               Js.num (Js.status response) |} L1
      else
        let L2 := Loop.setTimeout (calling selectedMode) 1800 L1 in
        if String.eqb selectedMode "json" then
          Loop.await (awaitJson response) L2
        else if String.eqb selectedMode "text" then
          Loop.await (awaitText response) L2
        else Loop.await (awaitBlobJson response) L2
  end.

Definition afterJson (response : Js.Response) (L : Loop) : Loop :=
  let now := Loop.clock L in
  match Js.bodyJson response with
  | inl e => catch e L
  | inr data =>
      let preview := stringify data in
      let size := byteSize preview in
      let L1 :=
        L |> Loop.update (setDataSize (Some size))
          |> Loop.update
               (addLog "JSON parsing successful" Kind.success now) in
      match Js.length data with
      | inl e => catch e L1
      | inr n =>
          L1 |> Loop.update
                  (addLog ("Parsed " +:+ Js.toString n +:+
                           " item(s) from response") Kind.info now)
             |> Loop.setTimeout (shown preview size) 2400
      end
  end.

Definition afterText (response : Js.Response) (L : Loop) : Loop :=
  let now := Loop.clock L in
  let txt := Js.bodyText response in
  let size := byteSize txt in
  L |> Loop.update (setDataSize (Some size))
    |> Loop.update (addLog "Text parsing successful" Kind.success now)
    |> Loop.update
         (addLog ("Retrieved " +:+
                  Js.num (N.of_nat (String.length txt)) +:+
                  " characters") Kind.info now)
    |> Loop.setTimeout (shown txt size) 2400.

(** [data[0]?.url] *)
Definition firstUrl (data : Js.Val) : Js.Error + Js.Val :=
  match Js.index 0 data with
  | inl e => inl e
  | inr Js.Undefined | inr Js.Null => inr Js.Undefined
  | inr first => Js.prop "url" first
  end.

Definition afterBlobJson (response : Js.Response) (L : Loop) : Loop :=
  let now := Loop.clock L in
  match Js.bodyJson response with
  | inl e => catch e L
  | inr data =>
      match firstUrl data with
      | inl e => catch e L
      | inr url =>
          if negb (Js.truthy url) then
            catch {| Js.name := "Error";
                     Js.message := "No image URL in response" |} L
          else
            L |> Loop.update
                   (addLog "Blob concept: Fetching image as binary data..."
                      Kind.info now)
              |> Loop.await (awaitImage url)
      end
  end.

Definition afterImage (r : Js.Settled) (L : Loop) : Loop :=
  match r with
  | Js.Rejected e => catch e L
  | Js.Fulfilled imgResponse => Loop.await (awaitBlob imgResponse) L
  end.

Definition afterBlob (imgResponse : Js.Response) (L : Loop) : Loop :=
  let now := Loop.clock L in
  let blob := Js.bodyBlob imgResponse in
  let objectUrl := createObjectURL blob in
  L |> Loop.update (setDataSize (Some (Js.size blob)))
    |> Loop.update
         (addLog "Image blob created successfully" Kind.success now)
    |> Loop.update
         (addLog ("Blob size: " +:+ kilobytes (Js.size blob) +:+ " KB")
            Kind.info now)
    |> Loop.update
         (addLog ("Blob type: " +:+ Js.blobType blob) Kind.info now)
    |> Loop.setTimeout (shownImage objectUrl) 2400.

(** The run button is [onClick={() => runParse(mode)}] with
    [disabled={status === "loading"}]. *)
Definition handle (e : Event) (L : Loop) : Loop :=
  match e with
  | Select m => Loop.update (setMode m) L
  | ClickRun =>
      if Status.eqb (status (Loop.view L)) Status.loading then L
      else runParse (mode (Loop.view L)) L
  | ClickReset => Loop.update reset L
  | Elapse ms => Loop.elapse fire ms L
  | FetchSettles p r =>
      match Loop.take p L with
      | Some (awaitFetch selectedMode, L') => afterFetch selectedMode r L'
      | Some (awaitImage _, L') => afterImage r L'
      | _ => L
      end
  | BodyRead p =>
      match Loop.take p L with
      | Some (awaitJson response, L') => afterJson response L'
      | Some (awaitText response, L') => afterText response L'
      | Some (awaitBlobJson response, L') => afterBlobJson response L'
      | Some (awaitBlob imgResponse, L') => afterBlob imgResponse L'
      | _ => L
      end
  end.

Definition run (es : list Event) (L : Loop) : Loop :=
  fold_left (fun L e => handle e L) es L.

End Browser.

End ResponseParsing.

(** ** ErrorHandling.jsx *)

Module ErrorHandling.

Record Details := {
  name : string;
  message : string;
  errorType : string                (* the [type] property *)
}.

Record State := {
  step : nat;
  mode : string;
  status : Status.t;
  userMessage : string;             (* the [message] cell *)
  logs : list LogEntry;
  errorDetails : option Details;
  responseStatus : option N
}.

Definition initial : State :=
  {| step := 0; mode := "success"; status := Status.idle;
     userMessage := EmptyString; logs := []; errorDetails := None;
     responseStatus := None |}.

Definition setStep (n : nat) (s : State) : State :=
  {| step := n; mode := mode s; status := status s;
     userMessage := userMessage s; logs := logs s;
     errorDetails := errorDetails s; responseStatus := responseStatus s |}.
Definition setMode (m : string) (s : State) : State :=
  {| step := step s; mode := m; status := status s;
     userMessage := userMessage s; logs := logs s;
     errorDetails := errorDetails s; responseStatus := responseStatus s |}.
Definition setStatus (x : Status.t) (s : State) : State :=
  {| step := step s; mode := mode s; status := x;
     userMessage := userMessage s; logs := logs s;
     errorDetails := errorDetails s; responseStatus := responseStatus s |}.
Definition setMessage (m : string) (s : State) : State :=
  {| step := step s; mode := mode s; status := status s;
     userMessage := m; logs := logs s;
     errorDetails := errorDetails s; responseStatus := responseStatus s |}.
Definition setLogs (f : list LogEntry -> list LogEntry) (s : State) : State :=
  {| step := step s; mode := mode s; status := status s;
     userMessage := userMessage s; logs := f (logs s);
     errorDetails := errorDetails s; responseStatus := responseStatus s |}.
Definition setErrorDetails (d : option Details) (s : State) : State :=
  {| step := step s; mode := mode s; status := status s;
     userMessage := userMessage s; logs := logs s;
     errorDetails := d; responseStatus := responseStatus s |}.
Definition setResponseStatus (x : option N) (s : State) : State :=
  {| step := step s; mode := mode s; status := status s;
     userMessage := userMessage s; logs := logs s;
     errorDetails := errorDetails s; responseStatus := x |}.

Definition addLog (m : string) (type : Kind.t) (now : N) (s : State)
    : State :=
  setLogs (fun prev => prev ++
             [{| msg := m; type := type; timestamp := now |}]) s.

Definition reset (s : State) : State :=
  s |> setStep 0
    |> setStatus Status.idle
    |> setMessage EmptyString
    |> setLogs (fun _ => [])
    |> setErrorDetails None
    |> setResponseStatus None.

Definition getUserMessage (error : Js.Error) (mode : string) : string :=
  let msg := Js.message error in
  if String.eqb mode "network" || Js.includes "Failed to fetch" msg then
    "Cannot connect to the server. Please check your internet connection."
  else if String.eqb mode "http" || Js.startsWith "HTTP " msg then
    "The server returned an error response. Please try again later."
  else if String.eqb mode "parsing" then
    "The server sent data in an unexpected format. Please contact support."
  else "Something went wrong. Please try again.".

Definition getErrorType (error : Js.Error) (mode : string) : string :=
  if String.eqb mode "network" then "Network Error"
  else if String.eqb mode "http" then "HTTP Error"
  else if String.eqb mode "parsing" then "Parsing Error"
  else "Unknown Error".

(** What [JSON.parse("invalid json content")] throws. *)
Definition invalidJson : Js.Error :=
  {| Js.name := "SyntaxError";
     Js.message := "Unexpected token 'i', " +:+ Js.quote +:+
                   "invalid json content" +:+ Js.quote +:+
                   " is not valid JSON" |}.

Inductive Callback :=
| sending
| waiting
| responded
| succeeded
| caught (err : Js.Error)
| reported (err : Js.Error) (mode : string).

Definition fire (cb : Callback) (now : N) (s : State)
    : State * option Js.Error :=
  match cb with
  | sending =>
      (s |> setStep 1
         |> addLog "Browser sending fetch request..." Kind.info now, None)
  | waiting =>
      (s |> setStep 2
         |> addLog "Waiting for server response..." Kind.info now, None)
  | responded => (setStep 3 s, None)
  | succeeded =>
      (s |> setStep 4
         |> setStatus Status.success
         |> setMessage "Everything went well. Data loaded successfully."
         |> addLog "Request completed successfully." Kind.success now,
       None)
  | caught err =>
      (s |> setStep 3
         |> addLog ("Error caught: " +:+ Js.name err +:+ " - " +:+
                    Js.message err) Kind.error now, None)
  | reported err mode =>
      let userMsg := getUserMessage err mode in
      (s |> setStep 4
         |> setStatus Status.error
         |> setMessage userMsg
         |> addLog ("User message: " +:+ userMsg) Kind.info now, None)
  end.

(** The continuations keep the [mode] of the render in which
    [runRequest] was created, which the [catch] block reads. *)
Inductive Cont :=
| awaitFetch (mode selectedMode url : string)
| awaitText (mode : string) (response : Js.Response)
| awaitJson (mode : string) (response : Js.Response).

Definition Loop := Loop.t State Callback Cont.

Definition catch (mode : string) (err : Js.Error) (L : Loop) : Loop :=
  L |> Loop.update
         (setErrorDetails
            (Some {| name := Js.name err; message := Js.message err;
                     errorType := getErrorType err mode |}))
    |> Loop.setTimeout (caught err) 1800
    |> Loop.setTimeout (reported err mode) 2600.

(** [runRequest(selectedMode)] up to [await fetch(url)], as created
    by a render whose [mode] cell holds [mode]. *)
Definition runRequest (mode selectedMode : string) (L : Loop) : Loop :=
  let now := Loop.clock L in
  let L1 :=
    L |> Loop.update reset
      |> Loop.update (setMode selectedMode)
      |> Loop.update (setStatus Status.loading)
      |> Loop.update
           (addLog ("Starting " +:+ selectedMode +:+ " scenario...")
              Kind.info now)
      |> Loop.setTimeout sending 400
      |> Loop.setTimeout waiting 1000 in
  let url := "https://api.thecatapi.com/v1/images/search" in
  let '(url, L2) :=
    if String.eqb selectedMode "http" then
      ("https://api.thecatapi.com/v1/does-not-exist",
       Loop.update
         (addLog "Using invalid endpoint to trigger HTTP error"
            Kind.warning now) L1)
    else (url, L1) in
  let '(url, L3) :=
    if String.eqb selectedMode "network" then
      ("https://this-domain-will-not-resolve.example.test",
       Loop.update
         (addLog "Using unreachable domain to trigger network error"
            Kind.warning now) L2)
    else (url, L2) in
  Loop.await (awaitFetch mode selectedMode url) L3.

Definition afterFetch (mode selectedMode : string) (r : Js.Settled)
    (L : Loop) : Loop :=
  let now := Loop.clock L in
  match r with
  | Js.Rejected e => catch mode e L
  | Js.Fulfilled response =>
      let L1 :=
        L |> Loop.update (setResponseStatus (Some (Js.status response)))
          |> Loop.update
               (addLog ("Response received - Status: " +:+
                        Js.num (Js.status response))
                  (if Js.ok response then Kind.success
                   else Kind.warning) now) in
      if negb (Js.ok response) then
        L1 |> Loop.update
                (addLog ("HTTP Error detected: " +:+
                         Js.num (Js.status response)) Kind.error now)
           |> catch mode {| Js.name := "Error";
                            Js.message := "HTTP " +:+
                                          Js.num (Js.status response) |}
      else
        let L2 := Loop.setTimeout responded 1800 L1 in
        if String.eqb selectedMode "parsing" then
          L2 |> Loop.update
                  (addLog "Attempting to parse response..." Kind.info now)
             |> Loop.await (awaitText mode response)
        else
          L2 |> Loop.update
                  (addLog "Parsing JSON response..." Kind.info now)
             |> Loop.await (awaitJson mode response)
  end.

Definition afterText (mode : string) (response : Js.Response) (L : Loop)
    : Loop :=
  let now := Loop.clock L in
  L |> Loop.update (addLog "Forcing invalid JSON parse..." Kind.warning now)
    |> catch mode invalidJson.

Definition afterJson (mode : string) (response : Js.Response) (L : Loop)
    : Loop :=
  match Js.bodyJson response with
  | inl e => catch mode e L
  | inr _ => Loop.setTimeout succeeded 2400 L
  end.

(** The run button is [onClick={() => runRequest(mode)}] with
    [disabled={status === "loading"}]: the argument and the [mode] the
    function closes over are the same cell of the same render. *)
Definition handle (e : Event) (L : Loop) : Loop :=
  match e with
  | Select m => Loop.update (setMode m) L
  | ClickRun =>
      if Status.eqb (status (Loop.view L)) Status.loading then L
      else runRequest (mode (Loop.view L)) (mode (Loop.view L)) L
  | ClickReset => Loop.update reset L
  | Elapse ms => Loop.elapse fire ms L
  | FetchSettles p r =>
      match Loop.take p L with
      | Some (awaitFetch mode selectedMode _, L') =>
          afterFetch mode selectedMode r L'
      | _ => L
      end
  | BodyRead p =>
      match Loop.take p L with
      | Some (awaitText mode response, L') => afterText mode response L'
      | Some (awaitJson mode response, L') => afterJson mode response L'
      | _ => L
      end
  end.

Definition run (es : list Event) (L : Loop) : Loop :=
  fold_left (fun L e => handle e L) es L.

(** *** A run in flight *)

(** The pending timers are due within [bound] milliseconds. *)
Definition bounded (bound : N) (L : Loop) : Prop :=
  Forall (fun x => (Loop.due x <= Loop.clock L + bound)%N) (Loop.timers L).

(** The run is suspended on promise [p], to go on as [k]. *)
Definition awaiting (bound : N) (p : nat) (k : Cont) (L : Loop) : Prop :=
  bounded bound L /\ Loop.pending L = [(p, k)] /\ Loop.nextPromise L = S p.

(** The [mode] a suspended [runRequest] closes over. *)
Definition closure (k : Cont) : string :=
  match k with
  | awaitFetch mode _ _ | awaitText mode _ | awaitJson mode _ => mode
  end.

(** Every suspended run closes over [m], and the failure on display,
    if there is one, carries the label of [m]. *)
Definition labelled (m : string) (L : Loop) : Prop :=
  Forall (fun pk => closure (snd pk) = m) (Loop.pending L) /\
  forall d err,
    errorDetails (Loop.view L) = Some d -> errorType d = getErrorType err m.

(** Does the event call [runRequest]? *)
Definition starts (e : Event) : bool :=
  match e with ClickRun => true | _ => false end.

End ErrorHandling.

(** ** UseHook.jsx *)

Module UseHook.

(** The three state cells, the [timeoutsRef] ref, and whether the
    component is still mounted. *)
Record State := {
  animationStep : nat;
  isAnimating : bool;
  selectedPath : string;
  timeoutsRef : list nat;
  mounted : bool
}.

Definition initial : State :=
  {| animationStep := 0; isAnimating := false; selectedPath := "success";
     timeoutsRef := []; mounted := true |}.

Definition setAnimationStep (n : nat) (s : State) : State :=
  {| animationStep := n; isAnimating := isAnimating s;
     selectedPath := selectedPath s; timeoutsRef := timeoutsRef s;
     mounted := mounted s |}.
Definition setIsAnimating (b : bool) (s : State) : State :=
  {| animationStep := animationStep s; isAnimating := b;
     selectedPath := selectedPath s; timeoutsRef := timeoutsRef s;
     mounted := mounted s |}.
Definition setSelectedPath (p : string) (s : State) : State :=
  {| animationStep := animationStep s; isAnimating := isAnimating s;
     selectedPath := p; timeoutsRef := timeoutsRef s;
     mounted := mounted s |}.
Definition setTimeoutsRef (f : list nat -> list nat) (s : State) : State :=
  {| animationStep := animationStep s; isAnimating := isAnimating s;
     selectedPath := selectedPath s; timeoutsRef := f (timeoutsRef s);
     mounted := mounted s |}.
Definition setMounted (b : bool) (s : State) : State :=
  {| animationStep := animationStep s; isAnimating := isAnimating s;
     selectedPath := selectedPath s; timeoutsRef := timeoutsRef s;
     mounted := b |}.

Inductive Callback :=
| advance (n : nat)
| finish.

(** A state setter of an unmounted component does nothing. *)
Definition fire (cb : Callback) (now : N) (s : State)
    : State * option Js.Error :=
  if negb (mounted s) then (s, None)
  else
    match cb with
    | advance n => (setAnimationStep n s, None)
    | finish => (setIsAnimating false s, None)
    end.

(** The page awaits nothing. *)
Definition Loop := Loop.t State Callback Empty_set.

(** [timeoutsRef.current.forEach(clearTimeout)] *)
Definition clearAll (L : Loop) : Loop :=
  fold_left (fun L i => Loop.clearTimeout i L) (timeoutsRef (Loop.view L)) L.

(** [const id = setTimeout(cb, delay); timeoutsRef.current.push(id)] *)
Definition schedule (cb : Callback) (delay : N) (L : Loop) : Loop :=
  let id := Loop.nextTimer L in
  L |> Loop.setTimeout cb delay
    |> Loop.update (setTimeoutsRef (fun ids => ids ++ [id])).

Definition delays : list N := [1200; 2400; 3600; 4800; 6000]%N.

Definition startAnimation (path : string) (L : Loop) : Loop :=
  let L1 :=
    L |> clearAll
      |> Loop.update (setTimeoutsRef (fun _ => []))
      |> Loop.update (setSelectedPath path)
      |> Loop.update (setIsAnimating true)
      |> Loop.update (setAnimationStep 1) in
  let L2 :=
    fold_left (fun L '(idx, delay) => schedule (advance (idx + 2)) delay L)
      (combine (seq 0 (List.length delays)) delays) L1 in
  schedule finish 7000 L2.

(** The cleanup of the mount effect. *)
Definition unmount (L : Loop) : Loop :=
  L |> clearAll |> Loop.update (setMounted false).

Inductive Event :=
| Click (path : string)       (* a path button, disabled while animating *)
| Start (path : string)       (* any other call of startAnimation *)
| Elapse (ms : N)
| Unmount.

(** Only a mounted component is clicked, called or unmounted. *)
Definition handle (e : Event) (L : Loop) : Loop :=
  match e with
  | Elapse ms => Loop.elapse fire ms L
  | _ =>
      if negb (mounted (Loop.view L)) then L
      else
        match e with
        | Click path =>
            if isAnimating (Loop.view L) then L else startAnimation path L
        | Start path => startAnimation path L
        | Unmount => unmount L
        | Elapse _ => L
        end
  end.

Definition run (es : list Event) (L : Loop) : Loop :=
  fold_left (fun L e => handle e L) es L.

(** Does the event call [startAnimation]? *)
Definition starts (e : Event) : bool :=
  match e with Click _ | Start _ => true | _ => false end.

(** *** The timers of one animation *)

(** The six timers a call of [startAnimation] made at [L] sets. *)
Definition scheduled (L : Loop) : list (Loop.Timer Callback) :=
  let i := Loop.nextTimer L in
  let c := Loop.clock L in
  [{| Loop.id := i; Loop.due := (c + 1200)%N; Loop.callback := advance 2 |};
   {| Loop.id := 1 + i; Loop.due := (c + 2400)%N;
      Loop.callback := advance 3 |};
   {| Loop.id := 2 + i; Loop.due := (c + 3600)%N;
      Loop.callback := advance 4 |};
   {| Loop.id := 3 + i; Loop.due := (c + 4800)%N;
      Loop.callback := advance 5 |};
   {| Loop.id := 4 + i; Loop.due := (c + 6000)%N;
      Loop.callback := advance 6 |};
   {| Loop.id := 5 + i; Loop.due := (c + 7000)%N;
      Loop.callback := finish |}].

(** Every pending timer is recorded in [timeoutsRef], and an
    unmounted component has none. *)
Definition owned (L : Loop) : Prop :=
  Forall (fun x => Loop.id x ∈ timeoutsRef (Loop.view L)) (Loop.timers L) /\
  (mounted (Loop.view L) = false -> Loop.timers L = []).

End UseHook.

(** ** The demo pages as one type *)

Module Demo.
Section Demo.
Variable stringify : Js.Val -> string.
Variable byteSize : string -> N.
Variable kilobytes : N -> string.
Variable createObjectURL : Js.Blob -> string.

(** A mounted demo page with a run and a reset button. *)
Inductive t :=
| fetchBasics (L : FetchBasics.Loop)
| xhrLegacy (L : XhrLegacy.Loop)
| promisesAsync (L : PromisesAsync.Loop)
| requestConfig (L : RequestConfig.Loop)
| responseParsing (L : ResponseParsing.Loop)
| errorHandling (L : ErrorHandling.Loop).

Definition status (p : t) : Status.t :=
  match p with
  | fetchBasics L => FetchBasics.status (Loop.view L)
  | xhrLegacy L => XhrLegacy.status (Loop.view L)
  | promisesAsync L => PromisesAsync.status (Loop.view L)
  | requestConfig L => RequestConfig.status (Loop.view L)
  | responseParsing L => ResponseParsing.status (Loop.view L)
  | errorHandling L => ErrorHandling.status (Loop.view L)
  end.

Definition step (p : t) : nat :=
  match p with
  | fetchBasics L => FetchBasics.step (Loop.view L)
  | xhrLegacy L => XhrLegacy.step (Loop.view L)
  | promisesAsync L => PromisesAsync.step (Loop.view L)
  | requestConfig L => RequestConfig.step (Loop.view L)
  | responseParsing L => ResponseParsing.step (Loop.view L)
  | errorHandling L => ErrorHandling.step (Loop.view L)
  end.

Definition logs (p : t) : list LogEntry :=
  match p with
  | fetchBasics L => FetchBasics.logs (Loop.view L)
  | xhrLegacy L => XhrLegacy.logs (Loop.view L)
  | promisesAsync L => PromisesAsync.logs (Loop.view L)
  | requestConfig L => RequestConfig.logs (Loop.view L)
  | responseParsing L => ResponseParsing.logs (Loop.view L)
  | errorHandling L => ErrorHandling.logs (Loop.view L)
  end.

(** The cells in which a page keeps what a run produced all hold
    their initial, empty value. *)
Definition resultCleared (p : t) : Prop :=
  match p with
  | fetchBasics L =>
      FetchBasics.imageUrl (Loop.view L) = Js.Null /\
      FetchBasics.responseData (Loop.view L) = Js.Null
  | xhrLegacy L => XhrLegacy.imageUrl (Loop.view L) = Js.Null
  | promisesAsync L =>
      PromisesAsync.imageUrl (Loop.view L) = Js.Null /\
      PromisesAsync.executionTime (Loop.view L) = None
  | requestConfig L =>
      RequestConfig.responseStatus (Loop.view L) = None /\
      RequestConfig.configDetails (Loop.view L) = RequestConfig.noConfig
  | responseParsing L =>
      ResponseParsing.imageUrl (Loop.view L) = Js.Null /\
      ResponseParsing.rawPreview (Loop.view L) = EmptyString /\
      ResponseParsing.contentType (Loop.view L) = Js.Null /\
      ResponseParsing.dataSize (Loop.view L) = None
  | errorHandling L =>
      ErrorHandling.userMessage (Loop.view L) = EmptyString /\
      ErrorHandling.errorDetails (Loop.view L) = None /\
      ErrorHandling.responseStatus (Loop.view L) = None
  end.

(** The image a page displays, on the pages which display the
    image the API answered with. *)
Definition imageUrl (p : t) : option Js.Val :=
  match p with
  | fetchBasics L => Some (FetchBasics.imageUrl (Loop.view L))
  | xhrLegacy L => Some (XhrLegacy.imageUrl (Loop.view L))
  | promisesAsync L => Some (PromisesAsync.imageUrl (Loop.view L))
  | requestConfig _ | responseParsing _ | errorHandling _ => None
  end.

Definition showsImage (p : t) : bool :=
  match imageUrl p with Some _ => true | None => false end.

Definition clock (p : t) : N :=
  match p with
  | fetchBasics L => Loop.clock L
  | xhrLegacy L => Loop.clock L
  | promisesAsync L => Loop.clock L
  | requestConfig L => Loop.clock L
  | responseParsing L => Loop.clock L
  | errorHandling L => Loop.clock L
  end.

Definition nextPromise (p : t) : nat :=
  match p with
  | fetchBasics L => Loop.nextPromise L
  | xhrLegacy L => Loop.nextPromise L
  | promisesAsync L => Loop.nextPromise L
  | requestConfig L => Loop.nextPromise L
  | responseParsing L => Loop.nextPromise L
  | errorHandling L => Loop.nextPromise L
  end.

Definition quiescent (p : t) : Prop :=
  match p with
  | fetchBasics L => Loop.quiescent L
  | xhrLegacy L => Loop.quiescent L
  | promisesAsync L => Loop.quiescent L
  | requestConfig L => Loop.quiescent L
  | responseParsing L => Loop.quiescent L
  | errorHandling L => Loop.quiescent L
  end.

Definition handle (e : Event) (p : t) : t :=
  match p with
  | fetchBasics L => fetchBasics (FetchBasics.handle e L)
  | xhrLegacy L => xhrLegacy (XhrLegacy.handle e L)
  | promisesAsync L => promisesAsync (PromisesAsync.handle e L)
  | requestConfig L => requestConfig (RequestConfig.handle e L)
  | responseParsing L =>
      responseParsing
        (ResponseParsing.handle stringify byteSize kilobytes
           createObjectURL e L)
  | errorHandling L => errorHandling (ErrorHandling.handle e L)
  end.

Definition run (es : list Event) (p : t) : t :=
  fold_left (fun p e => handle e p) es p.

End Demo.
End Demo.

(** ** Sample answers of the cat API *)

Module Sample.

Definition catUrl : string := "https://cdn2.thecatapi.com/images/9j5.jpg".

(** [200] with a one-element list. *)
Definition cat : Js.Response :=
  {| Js.status := 200;
     Js.contentType := Js.Str "application/json; charset=utf-8";
     Js.bodyText := "[{" +:+ Js.quote +:+ "id" +:+ Js.quote +:+ ":" +:+
                    Js.quote +:+ "9j5" +:+ Js.quote +:+ "," +:+
                    Js.quote +:+ "url" +:+ Js.quote +:+ ":" +:+
                    Js.quote +:+ catUrl +:+ Js.quote +:+ "}]";
     Js.bodyJson :=
       inr (Js.Arr [Js.Obj [("id", Js.Str "9j5");
                            ("url", Js.Str catUrl)]]);
     Js.bodyBlob := {| Js.size := 49; Js.blobType := "application/json" |}
  |}.

(** [200] with an empty list. *)
Definition noCat : Js.Response :=
  {| Js.status := 200;
     Js.contentType := Js.Str "application/json; charset=utf-8";
     Js.bodyText := "[]";
     Js.bodyJson := inr (Js.Arr []);
     Js.bodyBlob := {| Js.size := 2; Js.blobType := "application/json" |}
  |}.

(** [404] with a body which is not JSON. *)
Definition notFound : Js.Response :=
  {| Js.status := 404;
     Js.contentType := Js.Str "text/plain";
     Js.bodyText := "404 - please consult the documentation";
     Js.bodyJson :=
       inl {| Js.name := "SyntaxError";
              Js.message := "Unexpected non-whitespace character after JSON at position 4" |};
     Js.bodyBlob := {| Js.size := 38; Js.blobType := "text/plain" |}
  |}.

(** Stand-ins for the browser primitives of the parsing page. *)
Definition stringify (v : Js.Val) : string := Js.toString v.
Definition byteSize (s : string) : N := N.of_nat (String.length s).
Definition kilobytes (n : N) : string := Js.num (n / 1024).
Definition createObjectURL (b : Js.Blob) : string := "blob:sample".

Definition handle : Event -> Demo.t -> Demo.t :=
  Demo.handle stringify byteSize kilobytes createObjectURL.
Definition run : list Event -> Demo.t -> Demo.t :=
  Demo.run stringify byteSize kilobytes createObjectURL.

(** The freshly mounted fetch page. *)
Definition fetchPage : Demo.t :=
  Demo.fetchBasics (Loop.mount FetchBasics.initial 0).

End Sample.

(** ** App.jsx: the topic switcher *)

Module App.

(** The [id] of each entry of [TABS], in order. *)
Definition TABS : list string :=
  ["comparison"; "xhr"; "promises"; "config"; "parsing"; "errors";
   "use-hook"].

(** [ids.findIndex((t) => t.id === active)], counting from [i]. *)
Fixpoint findIndexFrom (i : Z) (ids : list string) (active : string) : Z :=
  match ids with
  | [] => (-1)%Z
  | id :: rest =>
      if String.eqb id active then i else findIndexFrom (i + 1)%Z rest active
  end.

Definition currentIndex (active : string) : Z := findIndexFrom 0%Z TABS active.

Definition total : Z := Z.of_nat (List.length TABS).

(** [TABS[i].id]: outside the list the element is [undefined] and
    reading its [id] throws. *)
Definition tabId (i : Z) : Js.Error + string :=
  if (i <? 0)%Z then inl (Js.cannotRead "undefined" "id")
  else match nth_error TABS (Z.to_nat i) with
       | Some id => inr id
       | None => inl (Js.cannotRead "undefined" "id")
       end.

(** [goPrev] and [goNext], as functions of the [active] cell: the new
    value of the cell, or the error thrown. *)
Definition goPrev (active : string) : Js.Error + string :=
  if (0 <? currentIndex active)%Z then tabId (currentIndex active - 1)%Z
  else inr active.

Definition goNext (active : string) : Js.Error + string :=
  if (currentIndex active <? total - 1)%Z
  then tabId (currentIndex active + 1)%Z
  else inr active.

End App.

(** ** App.jsx: the comparison page, with the native method selected *)

Module Comparison.

(** The state cells and the two refs which [handleNativeFetch] and the
    animation cycle touch; [animationTimeoutRef] holds [null] or the id
    of a timer. *)
Record State := {
  catImage : Js.Val;
  loading : bool;
  isAnimating : bool;
  animationKey : nat;
  showResult : bool;
  pendingImageRef : Js.Val;
  animationTimeoutRef : option nat
}.

Definition initial : State :=
  {| catImage := Js.Null; loading := false; isAnimating := false;
     animationKey := 0; showResult := true; pendingImageRef := Js.Null;
     animationTimeoutRef := None |}.

Definition setCatImage (v : Js.Val) (s : State) : State :=
  {| catImage := v; loading := loading s; isAnimating := isAnimating s;
     animationKey := animationKey s; showResult := showResult s;
     pendingImageRef := pendingImageRef s;
     animationTimeoutRef := animationTimeoutRef s |}.
Definition setLoading (b : bool) (s : State) : State :=
  {| catImage := catImage s; loading := b; isAnimating := isAnimating s;
     animationKey := animationKey s; showResult := showResult s;
     pendingImageRef := pendingImageRef s;
     animationTimeoutRef := animationTimeoutRef s |}.
Definition setIsAnimating (b : bool) (s : State) : State :=
  {| catImage := catImage s; loading := loading s; isAnimating := b;
     animationKey := animationKey s; showResult := showResult s;
     pendingImageRef := pendingImageRef s;
     animationTimeoutRef := animationTimeoutRef s |}.
Definition setAnimationKey (f : nat -> nat) (s : State) : State :=
  {| catImage := catImage s; loading := loading s;
     isAnimating := isAnimating s; animationKey := f (animationKey s);
     showResult := showResult s; pendingImageRef := pendingImageRef s;
     animationTimeoutRef := animationTimeoutRef s |}.
Definition setShowResult (b : bool) (s : State) : State :=
  {| catImage := catImage s; loading := loading s;
     isAnimating := isAnimating s; animationKey := animationKey s;
     showResult := b; pendingImageRef := pendingImageRef s;
     animationTimeoutRef := animationTimeoutRef s |}.
Definition setPendingImageRef (v : Js.Val) (s : State) : State :=
  {| catImage := catImage s; loading := loading s;
     isAnimating := isAnimating s; animationKey := animationKey s;
     showResult := showResult s; pendingImageRef := v;
     animationTimeoutRef := animationTimeoutRef s |}.
Definition setAnimationTimeoutRef (r : option nat) (s : State) : State :=
  {| catImage := catImage s; loading := loading s;
     isAnimating := isAnimating s; animationKey := animationKey s;
     showResult := showResult s; pendingImageRef := pendingImageRef s;
     animationTimeoutRef := r |}.

(** The one timer callback of the page, [() => { stopAnimationCycle(); }]. *)
Inductive Callback :=
| endOfCycle.

(** Where [handleNativeFetch] can be suspended. *)
Inductive Cont :=
| awaitFetch
| awaitJson (response : Js.Response).

Definition Loop := Loop.t State Callback Cont.

(** [if (animationTimeoutRef.current)]: [null] and the number 0 are
    falsy. *)
Definition stopAnimationCycle (L : Loop) : Loop :=
  let L1 :=
    match animationTimeoutRef (Loop.view L) with
    | Some (S i) =>
        L |> Loop.clearTimeout (S i)
          |> Loop.update (setAnimationTimeoutRef None)
    | _ => L
    end in
  let L2 :=
    L1 |> Loop.update (setIsAnimating false)
       |> Loop.update (setShowResult true) in
  let pending := pendingImageRef (Loop.view L2) in
  if Js.truthy pending then Loop.update (setCatImage pending) L2 else L2.

Definition startAnimationCycle (L : Loop) : Loop :=
  let L1 :=
    match animationTimeoutRef (Loop.view L) with
    | Some (S i) => Loop.clearTimeout (S i) L
    | _ => L
    end in
  let L2 :=
    L1 |> Loop.update (setIsAnimating true)
       |> Loop.update (setShowResult false)
       |> Loop.update (setCatImage Js.Null)
       |> Loop.update (setAnimationKey (fun prev => prev + 1)) in
  let id := Loop.nextTimer L2 in
  L2 |> Loop.setTimeout endOfCycle 6300
     |> Loop.update (setAnimationTimeoutRef (Some id)).

(** [handleNativeFetch] up to [await fetch(CAT_API)]. *)
Definition handleNativeFetch (L : Loop) : Loop :=
  L |> Loop.update (setLoading true)
    |> startAnimationCycle
    |> Loop.update (setPendingImageRef Js.Null)
    |> Loop.await awaitFetch.

(** The [catch] block, which only logs the error to the console and
    stops the animation, and the [setLoading(false)] behind it. *)
Definition catch (error : Js.Error) (L : Loop) : Loop :=
  L |> stopAnimationCycle |> Loop.update (setLoading false).

(** [data[0].url] *)
Definition firstUrl (data : Js.Val) : Js.Error + Js.Val :=
  match Js.index 0 data with
  | inl e => inl e
  | inr first => Js.prop "url" first
  end.

Definition afterFetch (r : Js.Settled) (L : Loop) : Loop :=
  match r with
  | Js.Rejected e => catch e L
  | Js.Fulfilled response =>
      if negb (Js.ok response) then
        catch {| Js.name := "Error"; Js.message := "Request failed" |} L
      else Loop.await (awaitJson response) L
  end.

Definition afterJson (response : Js.Response) (L : Loop) : Loop :=
  match Js.bodyJson response with
  | inl e => catch e L
  | inr data =>
      match firstUrl data with
      | inl e => catch e L
      | inr url =>
          L |> Loop.update (setPendingImageRef url)
            |> Loop.update (setLoading false)
      end
  end.

Definition withTimers (q : list (Loop.Timer Callback)) (L : Loop) : Loop :=
  {| Loop.view := Loop.view L; Loop.clock := Loop.clock L;
     Loop.timers := q; Loop.nextTimer := Loop.nextTimer L;
     Loop.pending := Loop.pending L; Loop.nextPromise := Loop.nextPromise L;
     Loop.uncaught := Loop.uncaught L |}.

Definition advance (ms : N) (L : Loop) : Loop :=
  {| Loop.view := Loop.view L; Loop.clock := (Loop.clock L + ms)%N;
     Loop.timers := Loop.timers L; Loop.nextTimer := Loop.nextTimer L;
     Loop.pending := Loop.pending L; Loop.nextPromise := Loop.nextPromise L;
     Loop.uncaught := Loop.uncaught L |}.

(** Run, in order, the timers that are due by [deadline].  The callback
    of this page clears timers itself, so that it runs on the whole
    loop; it sets none, and every round takes one timer off the queue:
    as many rounds as there are timers are enough. *)
Fixpoint drain (rounds : nat) (deadline : N) (L : Loop) : Loop :=
  match rounds with
  | 0 => L
  | S rounds' =>
      match Loop.timers L with
      | [] => L
      | x :: q =>
          if N.leb (Loop.due x) deadline then
            match Loop.callback x with
            | endOfCycle =>
                drain rounds' deadline (stopAnimationCycle (withTimers q L))
            end
          else L
      end
  end.

Definition elapse (ms : N) (L : Loop) : Loop :=
  advance ms
    (drain (List.length (Loop.timers L)) (Loop.clock L + ms)%N L).

(** What happens to the mounted page: the run button of the native
    method is [disabled={loading}]. *)
Inductive Event :=
| ClickRun
| Elapse (ms : N)
| FetchSettles (promise : nat) (r : Js.Settled)
| BodyRead (promise : nat).

Definition handle (e : Event) (L : Loop) : Loop :=
  match e with
  | ClickRun => if loading (Loop.view L) then L else handleNativeFetch L
  | Elapse ms => elapse ms L
  | FetchSettles p r =>
      match Loop.take p L with
      | Some (awaitFetch, L') => afterFetch r L'
      | _ => L
      end
  | BodyRead p =>
      match Loop.take p L with
      | Some (awaitJson response, L') => afterJson response L'
      | _ => L
      end
  end.

Definition run (es : list Event) (L : Loop) : Loop :=
  fold_left (fun L e => handle e L) es L.

(** [showResult && catImage]: what the result panel displays. *)
Definition displayed (s : State) : option Js.Val :=
  if showResult s && Js.truthy (catImage s) then Some (catImage s) else None.

(** *** The animation cycle *)

(** Every pending timer is the one whose id the ref holds. *)
Definition owned (L : Loop) : Prop :=
  Forall (fun x => animationTimeoutRef (Loop.view L) = Some (Loop.id x) /\
                   0 < Loop.id x) (Loop.timers L).

(** No animation plays: no timer, the ref empty. *)
Definition resting (L : Loop) : Prop :=
  Loop.timers L = [] /\
  animationTimeoutRef (Loop.view L) = None /\
  isAnimating (Loop.view L) = false /\
  showResult (Loop.view L) = true.

(** The animation plays until [due]: one timer, whose id the ref holds. *)
Definition playing (due : N) (L : Loop) : Prop :=
  exists i,
    Loop.timers L = [{| Loop.id := S i; Loop.due := due;
                        Loop.callback := endOfCycle |}] /\
    animationTimeoutRef (Loop.view L) = Some (S i) /\
    isAnimating (Loop.view L) = true /\
    showResult (Loop.view L) = false /\
    catImage (Loop.view L) = Js.Null /\
    (Loop.clock L < due)%N.

Definition steady (L : Loop) : Prop :=
  0 < Loop.nextTimer L /\ (resting L \/ exists due, playing due L).

(** The button is disabled exactly while a request is under way. *)
Definition guarded (L : Loop) : Prop :=
  (loading (Loop.view L) = false /\ Loop.pending L = []) \/
  (loading (Loop.view L) = true /\ exists p k, Loop.pending L = [(p, k)]).

(** The answer of the request is one [handleNativeFetch] cannot use. *)
Definition unusable (response : Js.Response) : Prop :=
  match Js.bodyJson response with
  | inl _ => True
  | inr data => match firstUrl data with inl _ => True | inr _ => False end
  end.

End Comparison.

(** ** The progress bar and the transcript *)

Module Progress.

(** The divisor of the bar's width, [(step / n) * 100] per cent. *)
Definition bar (p : Demo.t) : nat :=
  match p with
  | Demo.fetchBasics _ => 3
  | Demo.xhrLegacy _ => 3
  | Demo.promisesAsync _ => 4
  | Demo.requestConfig _ => 7
  | Demo.responseParsing _ => 4
  | Demo.errorHandling _ => 4
  end.

(** The clicks which empty the log. *)
Definition clears (e : Event) : bool :=
  match e with ClickRun | ClickReset => true | _ => false end.

End Progress.

(** ** Requests that fail *)

Module Failure.

(** The promise of [fetch] is rejected, or fulfilled with a response
    which is not ok. *)
Definition fetch (r : Js.Settled) : bool :=
  match r with
  | Js.Rejected _ => true
  | Js.Fulfilled response => negb (Js.ok response)
  end.

End Failure.

(** ** The narration of the error-handling page *)

Module Narration.
Import ErrorHandling.

(** A callback which leaves status and message alone. *)
Definition quiet (cb : Callback) : Prop :=
  match cb with succeeded | reported _ _ => False | _ => True end.

(** A run is in flight and nothing has failed yet. *)
Definition narrating (bound : N) (L : Loop) : Prop :=
  status (Loop.view L) = Status.loading /\
  userMessage (Loop.view L) = EmptyString /\
  errorDetails (Loop.view L) = None /\
  Forall (fun x => (Loop.due x <= Loop.clock L + bound)%N /\
                   quiet (Loop.callback x)) (Loop.timers L).

Definition waitingFor (bound : N) (p : nat) (k : Cont) (L : Loop) : Prop :=
  narrating bound L /\ Loop.pending L = [(p, k)] /\ Loop.nextPromise L = S p.

(** The error the [catch] block receives when the request fails. *)
Definition thrown (r : Js.Settled) : Js.Error :=
  match r with
  | Js.Rejected e => e
  | Js.Fulfilled response =>
      {| Js.name := "Error";
         Js.message := "HTTP " +:+ Js.num (Js.status response) |}
  end.

(** The failure as the details panel shows it. *)
Definition details (err : Js.Error) (m : string) : Details :=
  {| name := Js.name err; message := Js.message err;
     errorType := getErrorType err m |}.

End Narration.

(** ** The course of one animation *)

Module Animation.
Import UseHook.

(** A callback that sets a step the six-step bar can show. *)
Definition within (cb : Callback) : Prop :=
  match cb with advance n => n <= 6 | finish => True end.

(** The step on display [ms] milliseconds into an animation: one more
    every 1200 ms, up to six. *)
Definition stepAfter (ms : N) : nat := N.to_nat (N.min 6 (1 + ms / 1200)).

End Animation.

(** ** A run of the parsing page *)

Module Parsing.
Import ResponseParsing.

(** The run is suspended on promise [p], to go on as [k], and its
    pending timers are due within [bound] milliseconds. *)
Definition waiting (bound : N) (p : nat) (k : Cont) (L : Loop) : Prop :=
  Forall (fun x => (Loop.due x <= Loop.clock L + bound)%N) (Loop.timers L) /\
  Loop.pending L = [(p, k)] /\ Loop.nextPromise L = S p.

(** What [response.json()] gives has no usable [data[0]?.url]. *)
Definition noUrl (data : Js.Val) : Prop :=
  match firstUrl data with
  | inl _ => True
  | inr url => Js.truthy url = false
  end.

End Parsing.

(** ** More sample data *)

Module Fixture.

(** [200] with a body which is not JSON. *)
Definition plainText : Js.Response :=
  {| Js.status := 200;
     Js.contentType := Js.Str "text/plain";
     Js.bodyText := "meow";
     Js.bodyJson :=
       inl {| Js.name := "SyntaxError";
              Js.message := "Unexpected token m in JSON at position 0" |};
     Js.bodyBlob := {| Js.size := 4; Js.blobType := "text/plain" |}
  |}.

(** The freshly mounted parsing page after a click on mode [m]. *)
Definition parsingPage (m : string) : ResponseParsing.Loop :=
  Loop.mount (ResponseParsing.setMode m ResponseParsing.initial) 0.

(** The freshly mounted error-handling page after a click on scenario
    [m]. *)
Definition errorPage (m : string) : ErrorHandling.Loop :=
  Loop.mount (ErrorHandling.setMode m ErrorHandling.initial) 0.

End Fixture.

(** ** The narration of the configuration page *)

Module Config.
Import RequestConfig.



(** [L'] is [L] but for the method selected. *)
Definition same (L L' : Loop) : Prop :=
  exists m, L' = Loop.update (setSelectedMethod m) L.



End Config.

(** * Properties *)

(** ** The event loop *)

Module LoopFacts.
Section LoopFacts.
Context {View Callback Cont : Type}.
Variable fire : Callback -> N -> View -> View * option Js.Error.
Local Abbreviation Timer := (Loop.Timer Callback).
Local Abbreviation Loop := (Loop.t View Callback Cont).

Lemma enqueue_last (x : Timer) q :
  Forall (fun y => (Loop.due y <= Loop.due x)%N) q ->
  Loop.enqueue x q = q ++ [x].
Proof.
  induction 1 as [|y q Hy _ IH]; cbn; [reflexivity|].
  destruct (N.ltb_spec (Loop.due x) (Loop.due y)); [lia|].
  now rewrite IH.
Qed.

Lemma drain_rest (P : Timer -> Prop) deadline q s errs :
  Forall P q -> Forall P (fst (fst (Loop.drain fire deadline q s errs))).
Proof.
  intros H. revert s errs. induction H as [|x q Hx Hq IH]; intros s errs; cbn.
  - constructor.
  - destruct (N.leb (Loop.due x) deadline); [apply IH|now constructor].
Qed.

Lemma drain_view (Q : View -> Prop) deadline q s errs :
  Forall (fun x => forall now v, Q v -> Q (fst (fire (Loop.callback x) now v))) q ->
  Q s -> Q (snd (fst (Loop.drain fire deadline q s errs))).
Proof.
  intros H. revert s errs. induction H as [|x q Hx _ IH]; intros s errs Hs; cbn.
  - exact Hs.
  - destruct (N.leb (Loop.due x) deadline); [apply IH, Hx, Hs|exact Hs].
Qed.

Lemma enqueue_Forall (P : Timer -> Prop) x q :
  P x -> Forall P q -> Forall P (Loop.enqueue x q).
Proof.
  intros Hx H. induction H as [|y q Hy Hq IH]; cbn.
  - now repeat constructor.
  - destruct (N.ltb (Loop.due x) (Loop.due y)); repeat constructor; auto.
Qed.

Lemma take_head p k rest (L : Loop) :
  Loop.pending L = (p, k) :: rest ->
  Loop.take p L = Some (k, Loop.withPending rest L).
Proof.
  intros H. unfold Loop.take. rewrite H. cbn. now rewrite Nat.eqb_refl.
Qed.

Lemma drain_sublist deadline (q : list Timer) s errs :
  sublist (fst (fst (Loop.drain fire deadline q s errs))) q.
Proof.
  revert s errs. induction q as [|x q IH]; intros s errs; cbn.
  - constructor.
  - destruct (N.leb (Loop.due x) deadline); [|reflexivity].
    apply sublist_cons, IH.
Qed.

Lemma remove_Forall (P : nat * Cont -> Prop) p ks k rest :
  Loop.remove p ks = Some (k, rest) ->
  Forall P ks -> (exists q, P (q, k)) /\ Forall P rest.
Proof.
  revert rest. induction ks as [|[q k'] ks IH]; intros rest; cbn;
    [discriminate|].
  destruct (Nat.eqb q p).
  - intros [= <- <-] H. inversion H; subst. eauto.
  - destruct (Loop.remove p ks) as [[k'' rest']|]; [|discriminate].
    intros [= <- <-] H. inversion H; subst.
    destruct (IH rest' eq_refl) as [E F]; [assumption|].
    split; [exact E|now constructor].
Qed.

Lemma take_Forall (P : nat * Cont -> Prop) p (L L' : Loop) k :
  Loop.take p L = Some (k, L') ->
  Forall P (Loop.pending L) ->
  (exists q, P (q, k)) /\ Forall P (Loop.pending L') /\
  Loop.view L' = Loop.view L.
Proof.
  unfold Loop.take.
  destruct (Loop.remove p (Loop.pending L)) as [[k' rest]|] eqn:R;
    [|discriminate].
  intros [= <- <-] H. destruct (remove_Forall P _ _ _ _ R H).
  repeat split; assumption.
Qed.

(** The timer due last fires when its time has come, after all the
    others, which keep what they are known to keep. *)
Lemma drain_last_due (Q : View -> Prop) deadline q (x : Timer) s errs :
  Forall (fun y => (Loop.due y <= Loop.due x)%N /\
                   forall now v, Q v -> Q (fst (fire (Loop.callback y) now v))) q ->
  (Loop.due x <= deadline)%N -> Q s ->
  exists s1 errs1, Q s1 /\
    Loop.drain fire deadline (q ++ [x]) s errs =
    ([], fst (fire (Loop.callback x) (Loop.due x) s1),
     errs1 ++ Loop.thrown (snd (fire (Loop.callback x) (Loop.due x) s1))).
Proof.
  intros H Hx. revert s errs.
  induction H as [|y q [Hy Hk] _ IH]; intros s errs Hs; cbn.
  - destruct (N.leb_spec (Loop.due x) deadline); [|lia]. eauto.
  - destruct (N.leb_spec (Loop.due y) deadline); [|lia]. apply IH, Hk, Hs.
Qed.

Lemma drain_last_early (Q : View -> Prop) deadline q (x : Timer) s errs :
  Forall (fun y => forall now v, Q v -> Q (fst (fire (Loop.callback y) now v))) q ->
  (deadline < Loop.due x)%N -> Q s ->
  exists r s1 errs1, Q s1 /\
    Loop.drain fire deadline (q ++ [x]) s errs = (r ++ [x], s1, errs1).
Proof.
  intros H Hx. revert s errs.
  induction H as [|y q Hk _ IH]; intros s errs Hs; cbn.
  - destruct (N.leb_spec (Loop.due x) deadline); [lia|]. exists []. eauto.
  - destruct (N.leb (Loop.due y) deadline).
    + apply IH, Hk, Hs.
    + exists (y :: q). eauto.
Qed.
End LoopFacts.
End LoopFacts.

(** ** A successful run, page by page *)

Module FetchBasicsFacts.
Import FetchBasics.

Lemma fb_quiet_status cb now v (Q : Status.t -> Prop) :
  quiet cb -> Q (status v) -> Q (status (fst (fire cb now v))).
Proof. destruct cb; cbn; tauto. Qed.

Lemma fb_flying_elapse bound ms L :
  flying bound L -> flying bound (Loop.elapse fire ms L).
Proof.
  intros [Hs Ht]. split; cbn.
  - apply (LoopFacts.drain_view fire (fun v => status v = Status.loading));
      [|exact Hs].
    eapply Forall_impl; [exact Ht|]. cbn. intros x [_ Hq] now v Hv.
    now apply (fb_quiet_status _ _ _ (fun st => st = Status.loading)).
  - apply LoopFacts.drain_rest. eapply Forall_impl; [exact Ht|].
    cbn. intros x [Hd Hq]. split; [lia|exact Hq].
Qed.

Lemma fb_flying_runFetch L0 :
  Loop.timers L0 = [] -> flying 1400 (runFetch L0).
Proof.
  intros Ht. split; [reflexivity|]. cbn. rewrite Ht.
  repeat apply LoopFacts.enqueue_Forall; cbn; repeat constructor; lia.
Qed.

Lemma fb_flying_weaken b b' L : (b <= b')%N -> flying b L -> flying b' L.
Proof.
  intros Hb [Hs Ht]. split; [exact Hs|].
  eapply Forall_impl; [exact Ht|]. cbn. intros x [Hd Hq]. split; [lia|exact Hq].
Qed.

Lemma fb_awaiting_runFetch L0 :
  Loop.quiescent L0 ->
  awaiting 2400 (Loop.nextPromise L0) awaitFetch (runFetch L0).
Proof.
  intros [Ht Hp]. split; [|split].
  - apply (fb_flying_weaken 1400); [lia|now apply fb_flying_runFetch].
  - cbn. now rewrite Hp.
  - reflexivity.
Qed.

Lemma fb_awaiting_elapse bound p k ms L :
  awaiting bound p k L -> awaiting bound p k (handle (Elapse ms) L).
Proof. intros (F & P & N). split; [now apply fb_flying_elapse|now split]. Qed.

Lemma fb_awaiting_response bound p response L :
  awaiting bound p awaitFetch L ->
  Js.ok response = true ->
  awaiting bound (S p) (awaitJson response)
    (handle (FetchSettles p (Js.Fulfilled response)) L).
Proof.
  intros ([Hs Ht] & P & N) Hok. cbn [handle].
  rewrite (LoopFacts.take_head _ _ _ _ P). unfold afterFetch.
  rewrite Hok. cbn [negb]. repeat split; cbn; try assumption;
    now rewrite N.
Qed.

(** What the last timer of a successful run does. *)
Lemma fb_fire_rendered fields rest url now v :
  Js.lookup "url" fields = Some url ->
  fire (rendered (Js.Arr (Js.Obj fields :: rest))) now v =
  (v |> setImageUrl url |> setStatus Status.success
     |> addLog "Image rendered successfully." Kind.success now, None).
Proof. intros H. cbn. now rewrite H. Qed.

Lemma fb_body_read bound p response data L :
  (bound <= 2400)%N ->
  awaiting bound p (awaitJson response) L ->
  Js.bodyJson response = inr data ->
  let L' := handle (BodyRead p) L in
  status (Loop.view L') = Status.loading /\
  exists q i,
    Loop.timers L' =
      q ++ [{| Loop.id := i; Loop.due := (Loop.clock L' + 3200)%N;
               Loop.callback := rendered data |}] /\
    Forall (fun x => (Loop.due x <= Loop.clock L' + 2400)%N /\
                     quiet (Loop.callback x)) q.
Proof.
  intros Hb ([Hs Ht] & P & N) Hjson. cbn [handle].
  rewrite (LoopFacts.take_head _ _ _ _ P). unfold afterJson.
  rewrite Hjson. cbn. split; [exact Hs|].
  eexists _, _. split.
  - apply LoopFacts.enqueue_last. apply LoopFacts.enqueue_Forall; cbn; [lia|].
    eapply Forall_impl; [exact Ht|]. cbn. intros x [Hd _]. lia.
  - apply LoopFacts.enqueue_Forall; cbn; [split; [lia|exact I]|].
    eapply Forall_impl; [exact Ht|]. cbn. intros x [Hd Hq]. split; [lia|exact Hq].
Qed.

Lemma fb_successful_run (L0 : Loop) d1 d2 response fields rest url :
  Loop.quiescent L0 ->
  Js.ok response = true ->
  Js.bodyJson response = inr (Js.Arr (Js.Obj fields :: rest)) ->
  Js.lookup "url" fields = Some url ->
  let p := Loop.nextPromise L0 in
  let L2 := run [Elapse d1; FetchSettles p (Js.Fulfilled response);
                 Elapse d2; BodyRead (S p)] (runFetch L0) in
  status (Loop.view L2) = Status.loading /\
  forall d3,
    let L3 := handle (Elapse d3) L2 in
    ((d3 < 3200)%N -> status (Loop.view L3) = Status.loading) /\
    ((3200 <= d3)%N ->
     status (Loop.view L3) = Status.success /\
     imageUrl (Loop.view L3) = url /\
     (exists e, e ∈ logs (Loop.view L3) /\ type e = Kind.success) /\
     Loop.timers L3 = []).
Proof.
  intros Q0 Hok Hjson Hurl p. cbn [run fold_left].
  pose proof (fb_awaiting_runFetch L0 Q0) as A.
  apply (fb_awaiting_elapse _ _ _ d1) in A.
  apply (fb_awaiting_response _ _ response) in A; [|exact Hok].
  apply (fb_awaiting_elapse _ _ _ d2) in A.
  apply (fun H => fb_body_read _ _ _ _ _ H A) in Hjson; [|lia].
  fold p in Hjson.
  destruct Hjson as (Hs & q & i & Ht & Hq).
  split; [exact Hs|]. intros d3.
  set (L2 := handle (BodyRead (S p)) _) in *. clearbody L2. clear A.
  cbn [handle]. unfold Loop.elapse. cbn [Loop.view Loop.timers].
  rewrite Ht. split; intros Hd.
  - destruct (LoopFacts.drain_last_early fire
                (fun v => status v = Status.loading) (Loop.clock L2 + d3) q
                {| Loop.id := i; Loop.due := (Loop.clock L2 + 3200)%N;
                   Loop.callback := rendered (Js.Arr (Js.Obj fields :: rest)) |}
                (Loop.view L2) (Loop.uncaught L2))
      as (r & s1 & e1 & Hs1 & ->); cbn; [| lia | exact Hs | exact Hs1].
    eapply Forall_impl; [exact Hq|]. cbn. intros x [_ Hx] now v Hv.
    now apply (fb_quiet_status _ _ _ (fun st => st = Status.loading)).
  - destruct (LoopFacts.drain_last_due fire
                (fun v => True) (Loop.clock L2 + d3) q
                {| Loop.id := i; Loop.due := (Loop.clock L2 + 3200)%N;
                   Loop.callback := rendered (Js.Arr (Js.Obj fields :: rest)) |}
                (Loop.view L2) (Loop.uncaught L2))
      as (s1 & e1 & _ & ->); cbn [Loop.due Loop.callback]; [| lia | exact I |].
    + eapply Forall_impl; [exact Hq|]. cbn. intros x [Hx _]. split; [lia|auto].
    + rewrite (fb_fire_rendered _ _ _ _ _ Hurl). cbn.
      split; [reflexivity|]. split; [reflexivity|]. split; [|reflexivity].
      eexists. split; [apply elem_of_app; right; apply list_elem_of_singleton;
                       reflexivity|reflexivity].
Qed.

Lemma fb_run_cons e es (L : Loop) : run (e :: es) L = run es (handle e L).
Proof. reflexivity. Qed.

Lemma fb_click_run (L : Loop) :
  status (Loop.view L) <> Status.loading ->
  handle ClickRun L = runFetch L.
Proof.
  intros H. cbn [handle].
  destruct (status (Loop.view L)); try reflexivity. congruence.
Qed.

Lemma fb_successful_click (L0 : Loop) d1 d2 response fields rest url :
  Loop.quiescent L0 ->
  status (Loop.view L0) <> Status.loading ->
  Js.ok response = true ->
  Js.bodyJson response = inr (Js.Arr (Js.Obj fields :: rest)) ->
  Js.lookup "url" fields = Some url ->
  let p := Loop.nextPromise L0 in
  let L2 := run [ClickRun; Elapse d1; FetchSettles p (Js.Fulfilled response);
                 Elapse d2; BodyRead (S p)] L0 in
  status (Loop.view L2) = Status.loading /\
  forall d3,
    let L3 := handle (Elapse d3) L2 in
    ((d3 < 3200)%N -> status (Loop.view L3) = Status.loading) /\
    ((3200 <= d3)%N ->
     status (Loop.view L3) = Status.success /\
     imageUrl (Loop.view L3) = url /\
     (exists e, e ∈ logs (Loop.view L3) /\ type e = Kind.success) /\
     Loop.timers L3 = []).
Proof.
  intros Q Hs Hok Hjson Hurl p. rewrite fb_run_cons, (fb_click_run L0 Hs).
  exact (fb_successful_run L0 d1 d2 response fields rest url
           Q Hok Hjson Hurl).
Qed.
End FetchBasicsFacts.

Module XhrLegacyFacts.
Import XhrLegacy.

Lemma xhr_quiet_status cb now v (Q : Status.t -> Prop) :
  quiet cb -> Q (status v) -> Q (status (fst (fire cb now v))).
Proof. destruct cb; cbn; tauto. Qed.

Lemma xhr_flying_elapse bound ms L :
  flying bound L -> flying bound (Loop.elapse fire ms L).
Proof.
  intros [Hs Ht]. split; cbn.
  - apply (LoopFacts.drain_view fire (fun v => status v = Status.loading));
      [|exact Hs].
    eapply Forall_impl; [exact Ht|]. cbn. intros x [_ Hq] now v Hv.
    now apply (xhr_quiet_status _ _ _ (fun st => st = Status.loading)).
  - apply LoopFacts.drain_rest. eapply Forall_impl; [exact Ht|].
    cbn. intros x [Hd Hq]. split; [lia|exact Hq].
Qed.

Lemma xhr_flying_runXhrFlow m L0 :
  Loop.timers L0 = [] -> flying 1400 (runXhrFlow m L0).
Proof.
  intros Ht. split; [reflexivity|]. cbn. rewrite Ht.
  repeat apply LoopFacts.enqueue_Forall; cbn; repeat constructor; lia.
Qed.

Lemma xhr_flying_weaken b b' L : (b <= b')%N -> flying b L -> flying b' L.
Proof.
  intros Hb [Hs Ht]. split; [exact Hs|].
  eapply Forall_impl; [exact Ht|]. cbn. intros x [Hd Hq]. split; [lia|exact Hq].
Qed.

Lemma xhr_awaiting_runXhrFlow m L0 :
  Loop.quiescent L0 ->
  awaiting 2400 (Loop.nextPromise L0) (awaitFetch m) (runXhrFlow m L0).
Proof.
  intros [Ht Hp]. split; [|split].
  - apply (xhr_flying_weaken 1400); [lia|now apply xhr_flying_runXhrFlow].
  - cbn. now rewrite Hp.
  - reflexivity.
Qed.

Lemma xhr_awaiting_elapse bound p k ms L :
  awaiting bound p k L -> awaiting bound p k (handle (Elapse ms) L).
Proof. intros (F & P & N). split; [now apply xhr_flying_elapse|now split]. Qed.

Lemma xhr_awaiting_response bound p m response L :
  awaiting bound p (awaitFetch m) L ->
  Js.ok response = true ->
  awaiting bound (S p) (awaitJson m response)
    (handle (FetchSettles p (Js.Fulfilled response)) L).
Proof.
  intros ([Hs Ht] & P & N) Hok. cbn [handle].
  rewrite (LoopFacts.take_head _ _ _ _ P). unfold afterFetch.
  rewrite Hok. cbn [negb]. repeat split; cbn; try assumption;
    now rewrite N.
Qed.

(** What the last timer of a successful run does. *)
Lemma xhr_fire_rendered fields rest url now v :
  Js.lookup "url" fields = Some url ->
  fire (rendered (Js.Arr (Js.Obj fields :: rest))) now v =
  (v |> setImageUrl url |> setStatus Status.success
     |> addLog "Image rendered in UI" Kind.success now, None).
Proof. intros H. cbn. now rewrite H. Qed.

Lemma xhr_body_read bound p m response data L :
  (bound <= 2400)%N ->
  awaiting bound p (awaitJson m response) L ->
  Js.bodyJson response = inr data ->
  let L' := handle (BodyRead p) L in
  status (Loop.view L') = Status.loading /\
  exists q i,
    Loop.timers L' =
      q ++ [{| Loop.id := i; Loop.due := (Loop.clock L' + 3200)%N;
               Loop.callback := rendered data |}] /\
    Forall (fun x => (Loop.due x <= Loop.clock L' + 2400)%N /\
                     quiet (Loop.callback x)) q.
Proof.
  intros Hb ([Hs Ht] & P & N) Hjson. cbn [handle].
  rewrite (LoopFacts.take_head _ _ _ _ P). unfold afterJson.
  rewrite Hjson. cbn. split; [exact Hs|].
  eexists _, _. split.
  - apply LoopFacts.enqueue_last. apply LoopFacts.enqueue_Forall; cbn; [lia|].
    eapply Forall_impl; [exact Ht|]. cbn. intros x [Hd _]. lia.
  - apply LoopFacts.enqueue_Forall; cbn; [split; [lia|exact I]|].
    eapply Forall_impl; [exact Ht|]. cbn. intros x [Hd Hq]. split; [lia|exact Hq].
Qed.

Lemma xhr_successful_run (L0 : Loop) m d1 d2 response fields rest url :
  Loop.quiescent L0 ->
  Js.ok response = true ->
  Js.bodyJson response = inr (Js.Arr (Js.Obj fields :: rest)) ->
  Js.lookup "url" fields = Some url ->
  let p := Loop.nextPromise L0 in
  let L2 := run [Elapse d1; FetchSettles p (Js.Fulfilled response);
                 Elapse d2; BodyRead (S p)] (runXhrFlow m L0) in
  status (Loop.view L2) = Status.loading /\
  forall d3,
    let L3 := handle (Elapse d3) L2 in
    ((d3 < 3200)%N -> status (Loop.view L3) = Status.loading) /\
    ((3200 <= d3)%N ->
     status (Loop.view L3) = Status.success /\
     imageUrl (Loop.view L3) = url /\
     (exists e, e ∈ logs (Loop.view L3) /\ type e = Kind.success) /\
     Loop.timers L3 = []).
Proof.
  intros Q0 Hok Hjson Hurl p. cbn [run fold_left].
  pose proof (xhr_awaiting_runXhrFlow m L0 Q0) as A.
  apply (xhr_awaiting_elapse _ _ _ d1) in A.
  apply (xhr_awaiting_response _ _ _ response) in A; [|exact Hok].
  apply (xhr_awaiting_elapse _ _ _ d2) in A.
  apply (fun H => xhr_body_read _ _ _ _ _ _ H A) in Hjson; [|lia].
  fold p in Hjson.
  destruct Hjson as (Hs & q & i & Ht & Hq).
  split; [exact Hs|]. intros d3.
  set (L2 := handle (BodyRead (S p)) _) in *. clearbody L2. clear A.
  cbn [handle]. unfold Loop.elapse. cbn [Loop.view Loop.timers].
  rewrite Ht. split; intros Hd.
  - destruct (LoopFacts.drain_last_early fire
                (fun v => status v = Status.loading) (Loop.clock L2 + d3) q
                {| Loop.id := i; Loop.due := (Loop.clock L2 + 3200)%N;
                   Loop.callback := rendered (Js.Arr (Js.Obj fields :: rest)) |}
                (Loop.view L2) (Loop.uncaught L2))
      as (r & s1 & e1 & Hs1 & ->); cbn; [| lia | exact Hs | exact Hs1].
    eapply Forall_impl; [exact Hq|]. cbn. intros x [_ Hx] now v Hv.
    now apply (xhr_quiet_status _ _ _ (fun st => st = Status.loading)).
  - destruct (LoopFacts.drain_last_due fire
                (fun v => True) (Loop.clock L2 + d3) q
                {| Loop.id := i; Loop.due := (Loop.clock L2 + 3200)%N;
                   Loop.callback := rendered (Js.Arr (Js.Obj fields :: rest)) |}
                (Loop.view L2) (Loop.uncaught L2))
      as (s1 & e1 & _ & ->); cbn [Loop.due Loop.callback]; [| lia | exact I |].
    + eapply Forall_impl; [exact Hq|]. cbn. intros x [Hx _]. split; [lia|auto].
    + rewrite (xhr_fire_rendered _ _ _ _ _ Hurl). cbn.
      split; [reflexivity|]. split; [reflexivity|]. split; [|reflexivity].
      eexists. split; [apply elem_of_app; right; apply list_elem_of_singleton;
                       reflexivity|reflexivity].
Qed.

Lemma xhr_run_cons e es (L : Loop) : run (e :: es) L = run es (handle e L).
Proof. reflexivity. Qed.

Lemma xhr_click_run (L : Loop) :
  status (Loop.view L) <> Status.loading ->
  handle ClickRun L = runXhrFlow (activeMethod (Loop.view L)) L.
Proof.
  intros H. cbn [handle].
  destruct (status (Loop.view L)); try reflexivity. congruence.
Qed.

Lemma xhr_successful_click (L0 : Loop) d1 d2 response fields rest url :
  Loop.quiescent L0 ->
  status (Loop.view L0) <> Status.loading ->
  Js.ok response = true ->
  Js.bodyJson response = inr (Js.Arr (Js.Obj fields :: rest)) ->
  Js.lookup "url" fields = Some url ->
  let p := Loop.nextPromise L0 in
  let L2 := run [ClickRun; Elapse d1; FetchSettles p (Js.Fulfilled response);
                 Elapse d2; BodyRead (S p)] L0 in
  status (Loop.view L2) = Status.loading /\
  forall d3,
    let L3 := handle (Elapse d3) L2 in
    ((d3 < 3200)%N -> status (Loop.view L3) = Status.loading) /\
    ((3200 <= d3)%N ->
     status (Loop.view L3) = Status.success /\
     imageUrl (Loop.view L3) = url /\
     (exists e, e ∈ logs (Loop.view L3) /\ type e = Kind.success) /\
     Loop.timers L3 = []).
Proof.
  intros Q Hs Hok Hjson Hurl p. rewrite xhr_run_cons, (xhr_click_run L0 Hs).
  exact (xhr_successful_run L0 (activeMethod (Loop.view L0)) d1 d2 response fields rest url
           Q Hok Hjson Hurl).
Qed.
End XhrLegacyFacts.

Module PromisesAsyncFacts.
Import PromisesAsync.

Lemma pa_quiet_status cb now v (Q : Status.t -> Prop) :
  quiet cb -> Q (status v) -> Q (status (fst (fire cb now v))).
Proof.
  destruct cb; cbn; try tauto.
  destruct (String.eqb selectedMode "then"); cbn; tauto.
Qed.

Lemma pa_flying_elapse bound ms L :
  flying bound L -> flying bound (Loop.elapse fire ms L).
Proof.
  intros [Hs Ht]. split; cbn.
  - apply (LoopFacts.drain_view fire (fun v => status v = Status.loading));
      [|exact Hs].
    eapply Forall_impl; [exact Ht|]. cbn. intros x [_ Hq] now v Hv.
    now apply (pa_quiet_status _ _ _ (fun st => st = Status.loading)).
  - apply LoopFacts.drain_rest. eapply Forall_impl; [exact Ht|].
    cbn. intros x [Hd Hq]. split; [lia|exact Hq].
Qed.

Lemma pa_flying_runFlow m L0 :
  Loop.timers L0 = [] -> flying 1200 (runFlow m L0).
Proof.
  intros Ht. split; [reflexivity|]. cbn. rewrite Ht.
  repeat apply LoopFacts.enqueue_Forall; cbn; repeat constructor; lia.
Qed.

Lemma pa_flying_weaken b b' L : (b <= b')%N -> flying b L -> flying b' L.
Proof.
  intros Hb [Hs Ht]. split; [exact Hs|].
  eapply Forall_impl; [exact Ht|]. cbn. intros x [Hd Hq]. split; [lia|exact Hq].
Qed.

Lemma pa_awaiting_runFlow m L0 :
  Loop.quiescent L0 ->
  awaiting 2400 (Loop.nextPromise L0) (awaitFetch m (Loop.clock L0))
    (runFlow m L0).
Proof.
  intros [Ht Hp]. split; [|split].
  - apply (pa_flying_weaken 1200); [lia|now apply pa_flying_runFlow].
  - cbn. now rewrite Hp.
  - reflexivity.
Qed.

Lemma pa_awaiting_elapse bound p k ms L :
  awaiting bound p k L -> awaiting bound p k (handle (Elapse ms) L).
Proof. intros (F & P & N). split; [now apply pa_flying_elapse|now split]. Qed.

Lemma pa_awaiting_response bound p m start response L :
  (2200 <= bound)%N ->
  awaiting bound p (awaitFetch m start) L ->
  Js.ok response = true ->
  awaiting bound (S p) (awaitJson response start)
    (handle (FetchSettles p (Js.Fulfilled response)) L).
Proof.
  intros Hb ([Hs Ht] & P & N) Hok. cbn [handle].
  rewrite (LoopFacts.take_head _ _ _ _ P). unfold afterFetch.
  rewrite Hok. cbn [negb]. split; [split|split]; cbn; try assumption.
  - apply LoopFacts.enqueue_Forall; [cbn; split; [lia|exact I]|exact Ht].
  - now rewrite N.
  - now rewrite N.
Qed.

(** What the last timer of a successful run does. *)
Lemma pa_fire_updated fields rest url start now v :
  Js.lookup "url" fields = Some url ->
  fire (updated (Js.Arr (Js.Obj fields :: rest)) start) now v =
  (v |> setStep 4 |> setImageUrl url |> setStatus Status.success
     |> setExecutionTime (Some (now - start)%N)
     |> addLog "UI updated with image" Kind.success now
     |> addLog ("Total execution time: " +:+ Js.num (now - start)%N +:+
                "ms") Kind.info now, None).
Proof. intros H. cbn. now rewrite H. Qed.

Lemma pa_body_read bound p start response data L :
  (bound <= 2400)%N ->
  awaiting bound p (awaitJson response start) L ->
  Js.bodyJson response = inr data ->
  let L' := handle (BodyRead p) L in
  status (Loop.view L') = Status.loading /\
  exists q i,
    Loop.timers L' =
      q ++ [{| Loop.id := i; Loop.due := (Loop.clock L' + 3200)%N;
               Loop.callback := updated data start |}] /\
    Forall (fun x => (Loop.due x <= Loop.clock L' + 2400)%N /\
                     quiet (Loop.callback x)) q.
Proof.
  intros Hb ([Hs Ht] & P & N) Hjson. cbn [handle].
  rewrite (LoopFacts.take_head _ _ _ _ P). unfold afterJson.
  rewrite Hjson. cbn. split; [exact Hs|].
  eexists _, _. split.
  - apply LoopFacts.enqueue_last.
    eapply Forall_impl; [exact Ht|]. cbn. intros x [Hd _]. lia.
  - eapply Forall_impl; [exact Ht|]. cbn. intros x [Hd Hq]. split; [lia|exact Hq].
Qed.

Lemma pa_successful_run (L0 : Loop) m d1 d2 response fields rest url :
  Loop.quiescent L0 ->
  Js.ok response = true ->
  Js.bodyJson response = inr (Js.Arr (Js.Obj fields :: rest)) ->
  Js.lookup "url" fields = Some url ->
  let p := Loop.nextPromise L0 in
  let L2 := run [Elapse d1; FetchSettles p (Js.Fulfilled response);
                 Elapse d2; BodyRead (S p)] (runFlow m L0) in
  status (Loop.view L2) = Status.loading /\
  forall d3,
    let L3 := handle (Elapse d3) L2 in
    ((d3 < 3200)%N -> status (Loop.view L3) = Status.loading) /\
    ((3200 <= d3)%N ->
     status (Loop.view L3) = Status.success /\
     imageUrl (Loop.view L3) = url /\
     (exists e, e ∈ logs (Loop.view L3) /\ type e = Kind.success) /\
     Loop.timers L3 = []).
Proof.
  intros Q0 Hok Hjson Hurl p. cbn [run fold_left].
  pose proof (pa_awaiting_runFlow m L0 Q0) as A.
  apply (pa_awaiting_elapse _ _ _ d1) in A.
  apply (pa_awaiting_response _ _ _ _ response) in A; [|lia|exact Hok].
  apply (pa_awaiting_elapse _ _ _ d2) in A.
  apply (fun H => pa_body_read _ _ _ _ _ _ H A) in Hjson; [|lia].
  fold p in Hjson.
  destruct Hjson as (Hs & q & i & Ht & Hq).
  split; [exact Hs|]. intros d3.
  set (L2 := handle (BodyRead (S p)) _) in *. clearbody L2. clear A.
  cbn [handle]. unfold Loop.elapse. cbn [Loop.view Loop.timers].
  rewrite Ht. split; intros Hd.
  - destruct (LoopFacts.drain_last_early fire
                (fun v => status v = Status.loading) (Loop.clock L2 + d3) q
                {| Loop.id := i; Loop.due := (Loop.clock L2 + 3200)%N;
                   Loop.callback := updated (Js.Arr (Js.Obj fields :: rest))
                                             (Loop.clock L0) |}
                (Loop.view L2) (Loop.uncaught L2))
      as (r & s1 & e1 & Hs1 & ->); cbn; [| lia | exact Hs | exact Hs1].
    eapply Forall_impl; [exact Hq|]. cbn. intros x [_ Hx] now v Hv.
    now apply (pa_quiet_status _ _ _ (fun st => st = Status.loading)).
  - destruct (LoopFacts.drain_last_due fire
                (fun v => True) (Loop.clock L2 + d3) q
                {| Loop.id := i; Loop.due := (Loop.clock L2 + 3200)%N;
                   Loop.callback := updated (Js.Arr (Js.Obj fields :: rest))
                                             (Loop.clock L0) |}
                (Loop.view L2) (Loop.uncaught L2))
      as (s1 & e1 & _ & ->); cbn [Loop.due Loop.callback]; [| lia | exact I |].
    + eapply Forall_impl; [exact Hq|]. cbn. intros x [Hx _]. split; [lia|auto].
    + rewrite (pa_fire_updated _ _ _ _ _ _ Hurl). cbn.
      split; [reflexivity|]. split; [reflexivity|]. split; [|reflexivity].
      exists {| msg := "UI updated with image"; type := Kind.success;
                timestamp := (Loop.clock L2 + 3200)%N |}.
      split; [|reflexivity].
      apply elem_of_app. left. apply elem_of_app. right.
      apply list_elem_of_singleton. reflexivity.
Qed.

Lemma pa_run_cons e es (L : Loop) : run (e :: es) L = run es (handle e L).
Proof. reflexivity. Qed.

Lemma pa_click_run (L : Loop) :
  status (Loop.view L) <> Status.loading ->
  handle ClickRun L = runFlow (mode (Loop.view L)) L.
Proof.
  intros H. cbn [handle].
  destruct (status (Loop.view L)); try reflexivity. congruence.
Qed.

Lemma pa_successful_click (L0 : Loop) d1 d2 response fields rest url :
  Loop.quiescent L0 ->
  status (Loop.view L0) <> Status.loading ->
  Js.ok response = true ->
  Js.bodyJson response = inr (Js.Arr (Js.Obj fields :: rest)) ->
  Js.lookup "url" fields = Some url ->
  let p := Loop.nextPromise L0 in
  let L2 := run [ClickRun; Elapse d1; FetchSettles p (Js.Fulfilled response);
                 Elapse d2; BodyRead (S p)] L0 in
  status (Loop.view L2) = Status.loading /\
  forall d3,
    let L3 := handle (Elapse d3) L2 in
    ((d3 < 3200)%N -> status (Loop.view L3) = Status.loading) /\
    ((3200 <= d3)%N ->
     status (Loop.view L3) = Status.success /\
     imageUrl (Loop.view L3) = url /\
     (exists e, e ∈ logs (Loop.view L3) /\ type e = Kind.success) /\
     Loop.timers L3 = []).
Proof.
  intros Q Hs Hok Hjson Hurl p. rewrite pa_run_cons, (pa_click_run L0 Hs).
  exact (pa_successful_run L0 (mode (Loop.view L0)) d1 d2 response fields rest url
           Q Hok Hjson Hurl).
Qed.
End PromisesAsyncFacts.

(** ** Reset and the run button *)

(** C1.  On every demo page and from every prior state, a click on
    reset leaves the status idle, the step 0, the log empty and the
    result cells cleared. *)
Theorem reset_restores_initial_state
    (stringify : Js.Val -> string) (byteSize : string -> N)
    (kilobytes : N -> string) (createObjectURL : Js.Blob -> string)
    (p : Demo.t) :
  let p' :=
    Demo.handle stringify byteSize kilobytes createObjectURL ClickReset p in
  Demo.status p' = Status.idle /\
  Demo.step p' = 0 /\
  Demo.logs p' = [] /\
  Demo.resultCleared p'.
Proof. destruct p; cbn; intuition reflexivity. Qed.

(** C3.  On every demo page, a click on the run button while the status
    is loading changes nothing: no timer is scheduled, no request is
    sent and no log line is added. *)
Theorem run_disabled_while_loading
    (stringify : Js.Val -> string) (byteSize : string -> N)
    (kilobytes : N -> string) (createObjectURL : Js.Blob -> string)
    (p : Demo.t) :
  Demo.status p = Status.loading ->
  Demo.handle stringify byteSize kilobytes createObjectURL ClickRun p = p.
Proof.
  destruct p; cbn [Demo.status Demo.handle]; intros H;
    cbn [FetchBasics.handle XhrLegacy.handle PromisesAsync.handle
         RequestConfig.handle ResponseParsing.handle ErrorHandling.handle];
    rewrite H; reflexivity.
Qed.

(** ** Network events and the status *)

Lemma take_view {View Callback Cont} p (L L' : Loop.t View Callback Cont) k :
  Loop.take p L = Some (k, L') -> Loop.view L' = Loop.view L.
Proof.
  unfold Loop.take. destruct (Loop.remove p (Loop.pending L)) as [[k' r]|];
    [|discriminate]. intros [= _ <-]. reflexivity.
Qed.

(** The settling of a promise leaves the status alone or sets it to
    error. *)
Ltac settle_cases :=
  repeat match goal with
         | |- context [match ?x with _ => _ end] => destruct x eqn:?; cbn
         | |- context [if ?x then _ else _] => destruct x eqn:?; cbn
         end.

Ltac settles T :=
  match type of T with
  | Loop.take _ _ = Some (?k, _) =>
      pose proof (take_view _ _ _ _ T) as V; clear T; destruct k;
      cbn; settle_cases; rewrite ?V; auto
  | _ => auto
  end.

Lemma FetchBasics_settles e L :
  network e = true ->
  FetchBasics.status (Loop.view (FetchBasics.handle e L)) =
    FetchBasics.status (Loop.view L) \/
  FetchBasics.status (Loop.view (FetchBasics.handle e L)) = Status.error.
Proof.
  destruct e; try discriminate; intros _; cbn [FetchBasics.handle];
    destruct (Loop.take promise L) as [[k L']|] eqn:T;
    unfold FetchBasics.afterFetch, FetchBasics.afterJson; settles T.
Qed.

Lemma XhrLegacy_settles e L :
  network e = true ->
  XhrLegacy.status (Loop.view (XhrLegacy.handle e L)) =
    XhrLegacy.status (Loop.view L) \/
  XhrLegacy.status (Loop.view (XhrLegacy.handle e L)) = Status.error.
Proof.
  destruct e; try discriminate; intros _; cbn [XhrLegacy.handle];
    destruct (Loop.take promise L) as [[k L']|] eqn:T;
    unfold XhrLegacy.afterFetch, XhrLegacy.afterJson; settles T.
Qed.

Lemma PromisesAsync_settles e L :
  network e = true ->
  PromisesAsync.status (Loop.view (PromisesAsync.handle e L)) =
    PromisesAsync.status (Loop.view L) \/
  PromisesAsync.status (Loop.view (PromisesAsync.handle e L)) = Status.error.
Proof.
  destruct e; try discriminate; intros _; cbn [PromisesAsync.handle];
    destruct (Loop.take promise L) as [[k L']|] eqn:T;
    unfold PromisesAsync.afterFetch, PromisesAsync.afterJson; settles T.
Qed.

Lemma RequestConfig_settles e L :
  network e = true ->
  RequestConfig.status (Loop.view (RequestConfig.handle e L)) =
    RequestConfig.status (Loop.view L) \/
  RequestConfig.status (Loop.view (RequestConfig.handle e L)) = Status.error.
Proof.
  destruct e; try discriminate; intros _; cbn [RequestConfig.handle];
    destruct (Loop.take promise L) as [[k L']|] eqn:T;
    unfold RequestConfig.afterFetch, RequestConfig.afterJson; settles T.
Qed.

Lemma ErrorHandling_settles e L :
  network e = true ->
  ErrorHandling.status (Loop.view (ErrorHandling.handle e L)) =
    ErrorHandling.status (Loop.view L) \/
  ErrorHandling.status (Loop.view (ErrorHandling.handle e L)) = Status.error.
Proof.
  destruct e; try discriminate; intros _; cbn [ErrorHandling.handle];
    destruct (Loop.take promise L) as [[k L']|] eqn:T;
    unfold ErrorHandling.afterFetch, ErrorHandling.afterJson, ErrorHandling.afterText, ErrorHandling.catch; settles T.
Qed.

Lemma ResponseParsing_settles stringify byteSize kilobytes createObjectURL e L :
  network e = true ->
  ResponseParsing.status (Loop.view (ResponseParsing.handle stringify byteSize kilobytes createObjectURL e L)) =
    ResponseParsing.status (Loop.view L) \/
  ResponseParsing.status (Loop.view (ResponseParsing.handle stringify byteSize kilobytes createObjectURL e L)) = Status.error.
Proof.
  destruct e; try discriminate; intros _; cbn [ResponseParsing.handle];
    destruct (Loop.take promise L) as [[k L']|] eqn:T;
    unfold ResponseParsing.afterFetch, ResponseParsing.afterJson, ResponseParsing.afterText, ResponseParsing.afterBlobJson, ResponseParsing.afterImage, ResponseParsing.afterBlob; settles T.
Qed.

(** ** Successful runs *)

Section SuccessfulRun.
Variable stringify : Js.Val -> string.
Variable byteSize : string -> N.
Variable kilobytes : N -> string.
Variable createObjectURL : Js.Blob -> string.

Local Abbreviation handle :=
  (Demo.handle stringify byteSize kilobytes createObjectURL).
Local Abbreviation run :=
  (Demo.run stringify byteSize kilobytes createObjectURL).

Lemma run_fetchBasics es L :
  run es (Demo.fetchBasics L) = Demo.fetchBasics (FetchBasics.run es L).
Proof. revert L. induction es as [|e es IH]; intros L; [reflexivity|apply IH]. Qed.

Lemma run_xhrLegacy es L :
  run es (Demo.xhrLegacy L) = Demo.xhrLegacy (XhrLegacy.run es L).
Proof. revert L. induction es as [|e es IH]; intros L; [reflexivity|apply IH]. Qed.

Lemma run_promisesAsync es L :
  run es (Demo.promisesAsync L) = Demo.promisesAsync (PromisesAsync.run es L).
Proof. revert L. induction es as [|e es IH]; intros L; [reflexivity|apply IH]. Qed.

(** A run from the click to the moment the body has been parsed, and
    what [ms] more milliseconds make of it. *)
Lemma image_run (p : Demo.t) d1 d2 response fields rest url :
  Demo.showsImage p = true ->
  Demo.quiescent p ->
  Demo.status p <> Status.loading ->
  Js.ok response = true ->
  Js.bodyJson response = inr (Js.Arr (Js.Obj fields :: rest)) ->
  Js.lookup "url" fields = Some url ->
  let n := Demo.nextPromise p in
  let parsed :=
    run [ClickRun; Elapse d1; FetchSettles n (Js.Fulfilled response);
         Elapse d2; BodyRead (S n)] p in
  Demo.status parsed = Status.loading /\
  forall ms,
    let p' := handle (Elapse ms) parsed in
    ((ms < 3200)%N -> Demo.status p' = Status.loading) /\
    ((3200 <= ms)%N ->
     Demo.status p' = Status.success /\
     Demo.imageUrl p' = Some url /\
     exists e, e ∈ Demo.logs p' /\ type e = Kind.success).
Proof.
  intros Hi Q Hs Hok Hjson Hurl.
  destruct p as [L|L|L| | | ]; try discriminate Hi;
    cbn [Demo.quiescent Demo.status] in Q, Hs; cbn [Demo.nextPromise];
    cbv zeta.
  - rewrite run_fetchBasics.
    destruct (FetchBasicsFacts.fb_successful_click L d1 d2 _ _ _ _
                Q Hs Hok Hjson Hurl) as [H1 H2].
    split; [exact H1|]. intros ms. destruct (H2 ms) as [H3 H4].
    split; [exact H3|]. intros Hd. destruct (H4 Hd) as (? & E & ? & _).
    split; [assumption|]. split; [|assumption].
    exact (f_equal Some E).
  - rewrite run_xhrLegacy.
    destruct (XhrLegacyFacts.xhr_successful_click L d1 d2 _ _ _ _
                Q Hs Hok Hjson Hurl) as [H1 H2].
    split; [exact H1|]. intros ms. destruct (H2 ms) as [H3 H4].
    split; [exact H3|]. intros Hd. destruct (H4 Hd) as (? & E & ? & _).
    split; [assumption|]. split; [|assumption].
    exact (f_equal Some E).
  - rewrite run_promisesAsync.
    destruct (PromisesAsyncFacts.pa_successful_click L d1 d2 _ _ _ _
                Q Hs Hok Hjson Hurl) as [H1 H2].
    split; [exact H1|]. intros ms. destruct (H2 ms) as [H3 H4].
    split; [exact H3|]. intros Hd. destruct (H4 Hd) as (? & E & ? & _).
    split; [assumption|]. split; [|assumption].
    exact (f_equal Some E).
Qed.

Lemma settles_status (p : Demo.t) e :
  network e = true ->
  Demo.status (handle e p) = Demo.status p \/
  Demo.status (handle e p) = Status.error.
Proof.
  intros H. destruct p; cbn.
  - now apply FetchBasics_settles.
  - now apply XhrLegacy_settles.
  - now apply PromisesAsync_settles.
  - now apply RequestConfig_settles.
  - now apply ResponseParsing_settles.
  - now apply ErrorHandling_settles.
Qed.
End SuccessfulRun.

(** C4.  On a page which displays the fetched image, a run whose
    request is answered with a 2xx status (200 among them) and a JSON
    list whose first element has a [url] field ends, once the last
    timer has run, with the status success, that [url] as the image and
    a log line of kind success. *)
Theorem successful_run_ends_in_success
    (stringify : Js.Val -> string) (byteSize : string -> N)
    (kilobytes : N -> string) (createObjectURL : Js.Blob -> string)
    (p : Demo.t) (d1 d2 d3 : N) (response : Js.Response)
    (fields : list (string * Js.Val)) (rest : list Js.Val) (url : Js.Val) :
  Demo.showsImage p = true ->
  Demo.quiescent p ->
  Demo.status p <> Status.loading ->
  Js.ok response = true ->
  Js.bodyJson response = inr (Js.Arr (Js.Obj fields :: rest)) ->
  Js.lookup "url" fields = Some url ->
  (3200 <= d3)%N ->
  let n := Demo.nextPromise p in
  let p' :=
    Demo.run stringify byteSize kilobytes createObjectURL
      [ClickRun; Elapse d1; FetchSettles n (Js.Fulfilled response);
       Elapse d2; BodyRead (S n); Elapse d3] p in
  Demo.status p' = Status.success /\
  Demo.imageUrl p' = Some url /\
  exists e, e ∈ Demo.logs p' /\ type e = Kind.success.
Proof.
  intros Hi Q Hs Hok Hjson Hurl Hd n.
  destruct (image_run stringify byteSize kilobytes createObjectURL p d1 d2
              response fields rest url Hi Q Hs Hok Hjson Hurl) as [_ H].
  exact (proj2 (H d3) Hd).
Qed.

(** C8.  The settling of a promise never turns the status into
    success, on any page; and on a page which displays the fetched
    image, a successful run is still loading when the body has been
    parsed and shows success exactly from 3200 ms later on, when the
    last timer of the narration runs. *)
Theorem success_waits_for_last_timer
    (stringify : Js.Val -> string) (byteSize : string -> N)
    (kilobytes : N -> string) (createObjectURL : Js.Blob -> string)
    (p : Demo.t) (d1 d2 : N) (response : Js.Response)
    (fields : list (string * Js.Val)) (rest : list Js.Val) (url : Js.Val) :
  Demo.showsImage p = true ->
  Demo.quiescent p ->
  Demo.status p <> Status.loading ->
  Js.ok response = true ->
  Js.bodyJson response = inr (Js.Arr (Js.Obj fields :: rest)) ->
  Js.lookup "url" fields = Some url ->
  let handle := Demo.handle stringify byteSize kilobytes createObjectURL in
  let n := Demo.nextPromise p in
  let parsed :=
    Demo.run stringify byteSize kilobytes createObjectURL
      [ClickRun; Elapse d1; FetchSettles n (Js.Fulfilled response);
       Elapse d2; BodyRead (S n)] p in
  (forall q e, network e = true ->
     Demo.status (handle e q) = Status.success ->
     Demo.status q = Status.success) /\
  Demo.status parsed = Status.loading /\
  forall ms,
    Demo.status (handle (Elapse ms) parsed) = Status.success <->
    (3200 <= ms)%N.
Proof.
  intros Hi Q Hs Hok Hjson Hurl handle n parsed. split.
  - intros q e He H.
    destruct (settles_status stringify byteSize kilobytes createObjectURL
                q e He) as [E|E]; fold handle in E; congruence.
  - destruct (image_run stringify byteSize kilobytes createObjectURL p d1 d2
                response fields rest url Hi Q Hs Hok Hjson Hurl) as [H1 H2].
    split; [exact H1|]. intros ms. destruct (H2 ms) as [H3 H4].
    split.
    + intros H. destruct (N.lt_ge_cases ms 3200) as [Hlt|Hge]; [|exact Hge].
      specialize (H3 Hlt). fold n handle parsed in H3. congruence.
    + intros Hge. exact (proj1 (H4 Hge)).
Qed.

Lemma successful_run_ends_in_success_witness :
  let p := Sample.fetchPage in
  (Demo.showsImage p = true /\ Demo.quiescent p /\
   Demo.status p <> Status.loading /\ Js.ok Sample.cat = true /\
   (3200 <= 4000)%N) /\
  let p' :=
    Sample.run [ClickRun; Elapse 120; FetchSettles 0 (Js.Fulfilled Sample.cat);
                Elapse 15; BodyRead 1; Elapse 4000] p in
  Demo.status p' = Status.success /\
  Demo.imageUrl p' = Some (Js.Str Sample.catUrl) /\
  exists e, e ∈ Demo.logs p' /\ type e = Kind.success.
Proof.
  split.
  - repeat split; try reflexivity; [discriminate | vm_compute; discriminate].
  - apply (successful_run_ends_in_success Sample.stringify Sample.byteSize
             Sample.kilobytes Sample.createObjectURL Sample.fetchPage
             120 15 4000 Sample.cat
             [("id", Js.Str "9j5"); ("url", Js.Str Sample.catUrl)] []
             (Js.Str Sample.catUrl));
      try reflexivity; [split; reflexivity | discriminate | vm_compute; discriminate].
Defined.

Lemma success_waits_for_last_timer_witness :
  let p := Sample.fetchPage in
  (Demo.showsImage p = true /\ Demo.quiescent p /\
   Demo.status p <> Status.loading /\ Js.ok Sample.cat = true) /\
  let parsed :=
    Sample.run [ClickRun; Elapse 120; FetchSettles 0 (Js.Fulfilled Sample.cat);
                Elapse 15; BodyRead 1] p in
  (forall q e, network e = true ->
     Demo.status (Sample.handle e q) = Status.success ->
     Demo.status q = Status.success) /\
  Demo.status parsed = Status.loading /\
  forall ms,
    Demo.status (Sample.handle (Elapse ms) parsed) = Status.success <->
    (3200 <= ms)%N.
Proof.
  split.
  - repeat split; try reflexivity; discriminate.
  - apply (success_waits_for_last_timer Sample.stringify Sample.byteSize
             Sample.kilobytes Sample.createObjectURL Sample.fetchPage
             120 15 Sample.cat
             [("id", Js.Str "9j5"); ("url", Js.Str Sample.catUrl)] []
             (Js.Str Sample.catUrl));
      try reflexivity; [split; reflexivity | discriminate].
Defined.

Lemma run_disabled_while_loading_witness :
  let p := Sample.handle ClickRun Sample.fetchPage in
  Demo.status p = Status.loading /\ Sample.handle ClickRun p = p.
Proof.
  split; [reflexivity|].
  apply (run_disabled_while_loading Sample.stringify Sample.byteSize
           Sample.kilobytes Sample.createObjectURL). reflexivity.
Defined.

(** ** A second run after a reset *)

Section SecondRun.
Variable stringify : Js.Val -> string.
Variable byteSize : string -> N.
Variable kilobytes : N -> string.
Variable createObjectURL : Js.Blob -> string.

Local Abbreviation handle :=
  (Demo.handle stringify byteSize kilobytes createObjectURL).
Local Abbreviation run :=
  (Demo.run stringify byteSize kilobytes createObjectURL).

(** Events do not change which page is mounted. *)
Lemma showsImage_handle e p :
  Demo.showsImage (handle e p) = Demo.showsImage p.
Proof. destruct p; reflexivity. Qed.

Lemma showsImage_run es p :
  Demo.showsImage (run es p) = Demo.showsImage p.
Proof.
  revert p. induction es as [|e es IH]; intros p; [reflexivity|].
  cbn. etransitivity; [apply IH|apply showsImage_handle].
Qed.

(** Whatever a page holds, reset followed by run leaves the start
    line of the new run and nothing else. *)
Lemma reset_then_run p :
  Demo.showsImage p = true ->
  let p' := run [ClickReset; ClickRun] p in
  Demo.status p' = Status.loading /\
  Demo.step p' = 0 /\
  Demo.imageUrl p' = Some Js.Null /\
  exists m,
    Demo.logs p' =
    [{| msg := m; type := Kind.info; timestamp := Demo.clock p |}].
Proof.
  destruct p; try discriminate; intros _; cbn;
    repeat split; eexists; reflexivity.
Qed.
End SecondRun.

(** C9.  When a successful run is followed by a reset and a second
    run, the second run starts with the status loading, no image, and
    a log holding its own start line only, stamped with the time of
    the second click. *)
Theorem second_run_starts_clean
    (stringify : Js.Val -> string) (byteSize : string -> N)
    (kilobytes : N -> string) (createObjectURL : Js.Blob -> string)
    (p : Demo.t) (d1 d2 d3 : N) (response : Js.Response)
    (fields : list (string * Js.Val)) (rest : list Js.Val) (url : Js.Val) :
  Demo.showsImage p = true ->
  Demo.quiescent p ->
  Demo.status p <> Status.loading ->
  Js.ok response = true ->
  Js.bodyJson response = inr (Js.Arr (Js.Obj fields :: rest)) ->
  Js.lookup "url" fields = Some url ->
  (3200 <= d3)%N ->
  let run := Demo.run stringify byteSize kilobytes createObjectURL in
  let n := Demo.nextPromise p in
  let first :=
    run [ClickRun; Elapse d1; FetchSettles n (Js.Fulfilled response);
         Elapse d2; BodyRead (S n); Elapse d3] p in
  let second := run [ClickReset; ClickRun] first in
  (Demo.status first = Status.success /\
   Demo.imageUrl first = Some url /\
   Demo.logs first <> []) /\
  Demo.status second = Status.loading /\
  Demo.imageUrl second = Some Js.Null /\
  exists m,
    Demo.logs second =
    [{| msg := m; type := Kind.info; timestamp := Demo.clock first |}].
Proof.
  intros Hi Q Hs Hok Hjson Hurl Hd run n first second.
  destruct (image_run stringify byteSize kilobytes createObjectURL p d1 d2
              response fields rest url Hi Q Hs Hok Hjson Hurl) as [_ H].
  destruct (proj2 (H d3) Hd) as (F1 & F2 & e & He & _).
  change (Demo.status first = Status.success) in F1.
  change (Demo.imageUrl first = Some url) in F2.
  change (e ∈ Demo.logs first) in He. split.
  - repeat split; try assumption. intros E. rewrite E in He.
    now apply elem_of_nil in He.
  - assert (Hf : Demo.showsImage first = true)
      by (unfold first, run; now rewrite showsImage_run).
    destruct (reset_then_run stringify byteSize kilobytes createObjectURL
                first Hf) as (S1 & _ & S2 & S3).
    repeat split; assumption.
Qed.

Lemma second_run_starts_clean_witness :
  let p := Sample.fetchPage in
  (Demo.showsImage p = true /\ Demo.quiescent p /\
   Demo.status p <> Status.loading /\ Js.ok Sample.cat = true /\
   (3200 <= 4000)%N) /\
  let first :=
    Sample.run [ClickRun; Elapse 120; FetchSettles 0 (Js.Fulfilled Sample.cat);
                Elapse 15; BodyRead 1; Elapse 4000] p in
  let second := Sample.run [ClickReset; ClickRun] first in
  (Demo.status first = Status.success /\
   Demo.imageUrl first = Some (Js.Str Sample.catUrl) /\
   Demo.logs first <> []) /\
  Demo.status second = Status.loading /\
  Demo.imageUrl second = Some Js.Null /\
  exists m,
    Demo.logs second =
    [{| msg := m; type := Kind.info; timestamp := Demo.clock first |}].
Proof.
  split.
  - repeat split; try reflexivity; [discriminate | vm_compute; discriminate].
  - apply (second_run_starts_clean Sample.stringify Sample.byteSize
             Sample.kilobytes Sample.createObjectURL Sample.fetchPage
             120 15 4000 Sample.cat
             [("id", Js.Str "9j5"); ("url", Js.Str Sample.catUrl)] []
             (Js.Str Sample.catUrl));
      try reflexivity; [split; reflexivity | discriminate | vm_compute; discriminate].
Defined.

(** ** Reset in the middle of a run *)

(** C2.  Reset does not cancel the timers of the run it interrupts.
    On the fetch page, a reset 535 ms into a run whose answer is already
    parsed puts the page back to its initial state and leaves three
    timers pending; with no further click they set the step to 3, the
    status to success and the image, and write three log lines. *)
Theorem reset_leaves_timers_pending :
  (forall L : FetchBasics.Loop,
     Loop.timers (FetchBasics.handle ClickReset L) = Loop.timers L) /\
  let L :=
    FetchBasics.run
      [ClickRun; Elapse 120; FetchSettles 0 (Js.Fulfilled Sample.cat);
       Elapse 15; BodyRead 1; Elapse 400; ClickReset]
      (Loop.mount FetchBasics.initial 0) in
  let L' := FetchBasics.handle (Elapse 5000) L in
  Loop.view L = FetchBasics.initial /\
  map Loop.due (Loop.timers L) = [1400; 2535; 3335]%N /\
  FetchBasics.status (Loop.view L') = Status.success /\
  FetchBasics.step (Loop.view L') = 3 /\
  FetchBasics.imageUrl (Loop.view L') = Js.Str Sample.catUrl /\
  map timestamp (FetchBasics.logs (Loop.view L')) = [1400; 2535; 3335]%N.
Proof. split; [reflexivity|]. vm_compute. repeat split. Qed.

(** ** An answer without a first element *)

(** C7.  When the API answers 200 with an empty list, the last timer
    of the fetch page and of the XHR page throws a TypeError which
    nothing catches: the status stays loading and no log line of kind
    error is written. *)
Theorem empty_list_throws_uncaught :
  let events :=
    [ClickRun; Elapse 120; FetchSettles 0 (Js.Fulfilled Sample.noCat);
     Elapse 15; BodyRead 1; Elapse 5000] in
  let F := FetchBasics.run events (Loop.mount FetchBasics.initial 0) in
  let X := XhrLegacy.run events (Loop.mount XhrLegacy.initial 0) in
  (Loop.uncaught F = [Js.cannotRead "undefined" "url"] /\
   FetchBasics.status (Loop.view F) = Status.loading /\
   map type (FetchBasics.logs (Loop.view F)) =
     [Kind.info; Kind.success; Kind.success; Kind.info; Kind.info;
      Kind.info] /\
   Loop.timers F = [] /\ Loop.pending F = []) /\
  (Loop.uncaught X = [Js.cannotRead "undefined" "url"] /\
   XhrLegacy.status (Loop.view X) = Status.loading /\
   map type (XhrLegacy.logs (Loop.view X)) =
     [Kind.info; Kind.success; Kind.success; Kind.info; Kind.info;
      Kind.info] /\
   Loop.timers X = [] /\ Loop.pending X = []).
Proof. vm_compute. repeat split. Qed.

(** ** Failures on the error-handling page *)

Module ErrorHandlingFacts.
Import ErrorHandling.

Lemma eh_run_cons e es (L : Loop) : run (e :: es) L = run es (handle e L).
Proof. reflexivity. Qed.

Lemma eh_click_run (L : Loop) :
  status (Loop.view L) <> Status.loading ->
  handle ClickRun L = runRequest (mode (Loop.view L)) (mode (Loop.view L)) L.
Proof.
  intros H. cbn [handle].
  destruct (status (Loop.view L)); try reflexivity. congruence.
Qed.

(** No timer callback touches the failure on display, and none
    removes a log line. *)
Lemma eh_fire_keeps cb now v :
  errorDetails (fst (fire cb now v)) = errorDetails v /\
  forall e, e ∈ logs v -> e ∈ logs (fst (fire cb now v)).
Proof.
  destruct cb; cbn; (split; [reflexivity|]); intros e He; try assumption;
    apply elem_of_app; now left.
Qed.

Lemma eh_bounded_elapse bound ms L :
  bounded bound L -> bounded bound (handle (Elapse ms) L).
Proof.
  intros H. unfold bounded. cbn. apply LoopFacts.drain_rest.
  eapply Forall_impl; [exact H|]. cbn. intros x Hx. lia.
Qed.

Lemma eh_awaiting_elapse bound p k ms L :
  awaiting bound p k L -> awaiting bound p k (handle (Elapse ms) L).
Proof. intros (B & P & N). split; [now apply eh_bounded_elapse|now split]. Qed.

Lemma eh_awaiting_runRequest m sel L0 :
  Loop.quiescent L0 ->
  exists url,
    awaiting 1800 (Loop.nextPromise L0) (awaitFetch m sel url)
      (runRequest m sel L0).
Proof.
  intros [Ht Hp]. unfold runRequest.
  destruct (String.eqb sel "http"), (String.eqb sel "network");
    eexists; (split; [|split]);
    try (cbn; now rewrite Hp); try reflexivity;
    unfold bounded; cbn; rewrite Ht;
    repeat apply LoopFacts.enqueue_Forall; cbn; repeat constructor; lia.
Qed.

(** Once the [catch] block has run and 2600 ms have passed, the
    status is error and the message for the user is on display. *)
Lemma eh_caught_reported m err ms (L : Loop) :
  bounded 1800 L ->
  (2600 <= ms)%N ->
  let L' := handle (Elapse ms) (catch m err L) in
  status (Loop.view L') = Status.error /\
  userMessage (Loop.view L') = getUserMessage err m /\
  errorDetails (Loop.view L') =
    Some {| name := Js.name err; message := Js.message err;
            errorType := getErrorType err m |} /\
  (forall e, e ∈ logs (Loop.view L) -> e ∈ logs (Loop.view L')) /\
  Loop.timers L' = [].
Proof.
  intros B Hms. cbn [handle]. unfold Loop.elapse, catch.
  cbn [Loop.view Loop.timers Loop.setTimeout Loop.update Loop.clock
       Loop.nextTimer Loop.uncaught].
  set (d := {| name := Js.name err; message := Js.message err;
               errorType := getErrorType err m |}).
  set (v := setErrorDetails (Some d) (Loop.view L)).
  set (c := {| Loop.id := Loop.nextTimer L;
               Loop.due := (Loop.clock L + 1800)%N;
               Loop.callback := caught err |}).
  set (r := {| Loop.id := S (Loop.nextTimer L);
               Loop.due := (Loop.clock L + 2600)%N;
               Loop.callback := reported err m |}).
  assert (Hc : Forall (fun x => (Loop.due x <= Loop.clock L + 1800)%N)
                 (Loop.enqueue c (Loop.timers L)))
    by (apply LoopFacts.enqueue_Forall; [cbn; lia|exact B]).
  rewrite (LoopFacts.enqueue_last r).
  2:{ eapply Forall_impl; [exact Hc|]. cbn. intros x Hx. lia. }
  destruct (LoopFacts.drain_last_due fire
              (fun v' => errorDetails v' = Some d /\
                         forall e, e ∈ logs (Loop.view L) -> e ∈ logs v')
              (Loop.clock L + ms) (Loop.enqueue c (Loop.timers L)) r
              v (Loop.uncaught L))
    as (s1 & e1 & [D1 G1] & ->).
  - eapply Forall_impl; [exact Hc|]. cbn. intros x Hx.
    split; [lia|]. intros now v' [D G].
    destruct (eh_fire_keeps (Loop.callback x) now v') as [K1 K2].
    split; [congruence|auto].
  - cbn. lia.
  - split; [reflexivity|auto].
  - cbn. repeat split; try assumption.
    intros e He. apply elem_of_app. left. auto.
Qed.

(** The entry a failed response leaves in the log. *)
Lemma eh_fetch_not_ok p m sel url response (L : Loop) :
  Loop.pending L = [(p, awaitFetch m sel url)] ->
  Js.ok response = false ->
  handle (FetchSettles p (Js.Fulfilled response)) L =
  catch m {| Js.name := "Error";
             Js.message := "HTTP " +:+ Js.num (Js.status response) |}
    (Loop.withPending [] L
       |> Loop.update (setResponseStatus (Some (Js.status response)))
       |> Loop.update
            (addLog ("Response received - Status: " +:+
                     Js.num (Js.status response)) Kind.warning
               (Loop.clock L))
       |> Loop.update
            (addLog ("HTTP Error detected: " +:+
                     Js.num (Js.status response)) Kind.error
               (Loop.clock L))).
Proof.
  intros P Hok. cbn [handle]. rewrite (LoopFacts.take_head _ _ _ _ P).
  unfold afterFetch. rewrite Hok. reflexivity.
Qed.

Lemma eh_prefix_refl s : String.prefix s s = true.
Proof.
  induction s as [|c s IH]; cbn; [reflexivity|].
  destruct (ascii_dec c c); [exact IH|congruence].
Qed.

Lemma eh_includes_suffix needle before :
  Js.includes needle (before +:+ needle) = true.
Proof.
  induction before as [|c before IH].
  - change (EmptyString +:+ needle) with needle.
    destruct needle; cbn [Js.includes]; now rewrite eh_prefix_refl.
  - change (String c before +:+ needle) with (String c (before +:+ needle)).
    cbn [Js.includes]. rewrite IH. apply orb_true_r.
Qed.

(** None of the messages for the user starts like the message of an
    HTTP failure. *)
Lemma eh_user_message_differs code m :
  getUserMessage {| Js.name := "Error"; Js.message := "HTTP " +:+ code |} m
  <> "HTTP " +:+ code.
Proof.
  unfold getUserMessage. cbn [Js.message].
  repeat match goal with
         | |- (if ?b then _ else _) <> _ => destruct b
         end; cbv [String.append]; discriminate.
Qed.

(** A response which is not ok, from the click to the message. *)
Lemma eh_http_failure (L0 : Loop) d1 d2 response :
  Loop.quiescent L0 ->
  status (Loop.view L0) <> Status.loading ->
  Js.ok response = false ->
  (2600 <= d2)%N ->
  let code := Js.num (Js.status response) in
  let L :=
    run [ClickRun; Elapse d1;
         FetchSettles (Loop.nextPromise L0) (Js.Fulfilled response);
         Elapse d2] L0 in
  status (Loop.view L) = Status.error /\
  (exists e, e ∈ logs (Loop.view L) /\ type e = Kind.error /\
             Js.includes code (msg e) = true) /\
  exists d, errorDetails (Loop.view L) = Some d /\
            message d = "HTTP " +:+ code /\
            userMessage (Loop.view L) <> message d.
Proof.
  intros Q Hs Hok Hd code.
  rewrite eh_run_cons, (eh_click_run L0 Hs).
  destruct (eh_awaiting_runRequest (mode (Loop.view L0)) (mode (Loop.view L0))
              L0 Q) as (url & A).
  apply (eh_awaiting_elapse _ _ _ d1) in A.
  rewrite eh_run_cons.
  generalize dependent (handle (Elapse d1)
                          (runRequest (mode (Loop.view L0))
                             (mode (Loop.view L0)) L0)).
  generalize (mode (Loop.view L0)). intros m L1 (B & P & _).
  rewrite eh_run_cons, (eh_fetch_not_ok _ _ _ _ _ _ P Hok).
  cbn [run fold_left].
  match goal with
  | |- context [catch m ?err ?L] => destruct (eh_caught_reported m err d2 L B Hd)
      as (R1 & R2 & R3 & R4 & _)
  end.
  split; [exact R1|]. split.
  - exists {| msg := "HTTP Error detected: " +:+ code; type := Kind.error;
              timestamp := Loop.clock L1 |}.
    split; [|split; [reflexivity|apply eh_includes_suffix]].
    apply R4. cbn. apply elem_of_app. right.
    apply list_elem_of_singleton. reflexivity.
  - eexists. split; [exact R3|]. split; [reflexivity|].
    rewrite R2. apply eh_user_message_differs.
Qed.

(** *** The label of a failure *)

Lemma eh_labelled_catch m err (L : Loop) :
  Forall (fun pk => closure (snd pk) = m) (Loop.pending L) ->
  labelled m (catch m err L).
Proof.
  intros H. split; [exact H|]. cbn. intros d err' [= <-]. reflexivity.
Qed.

Lemma eh_labelled_update m f (L : Loop) :
  (forall v, errorDetails (f v) = errorDetails v) ->
  labelled m L -> labelled m (Loop.update f L).
Proof. intros Hf [H1 H2]. split; [exact H1|]. cbn. now rewrite Hf. Qed.

Lemma eh_labelled_elapse m ms (L : Loop) :
  labelled m L -> labelled m (handle (Elapse ms) L).
Proof.
  intros [H1 H2]. split; [exact H1|]. cbn.
  apply (LoopFacts.drain_view fire
           (fun v => forall d err, errorDetails v = Some d ->
                                   errorType d = getErrorType err m));
    [|exact H2].
  apply Forall_forall. intros x _ now v Hv.
  now rewrite (proj1 (eh_fire_keeps (Loop.callback x) now v)).
Qed.

Lemma eh_labelled_settles m e (L : Loop) :
  network e = true -> labelled m L -> labelled m (handle e L).
Proof.
  intros He [H1 H2]. destruct e; try discriminate; cbn [handle];
    destruct (Loop.take promise L) as [[k L']|] eqn:T;
    try (split; assumption);
    destruct (LoopFacts.take_Forall _ _ _ _ _ T H1) as ([q K] & F & V);
    cbn in K; destruct k; try (split; assumption); cbn in K; subst mode0.
  - (* the fetch settles *)
    unfold afterFetch. destruct r as [err|response].
    + now apply eh_labelled_catch.
    + destruct (Js.ok response); cbn [negb].
      * destruct (String.eqb selectedMode "parsing");
          (split; [cbn; apply Forall_app; split;
                   [exact F|repeat constructor]|]);
          cbn; rewrite V; exact H2.
      * now apply eh_labelled_catch.
  - (* the text is there *)
    unfold afterText. now apply eh_labelled_catch.
  - (* the body is parsed *)
    unfold afterJson. destruct (Js.bodyJson response).
    + now apply eh_labelled_catch.
    + split; [exact F|]. cbn. rewrite V. exact H2.
Qed.

Lemma eh_labelled_handle m e (L : Loop) :
  starts e = false -> labelled m L -> labelled m (handle e L).
Proof.
  intros He H. destruct e; try discriminate.
  - now apply eh_labelled_update.
  - destruct H as [H1 _]. split; [exact H1|]. cbn. discriminate.
  - now apply eh_labelled_elapse.
  - now apply eh_labelled_settles.
  - now apply eh_labelled_settles.
Qed.

Lemma eh_labelled_run m es (L : Loop) :
  Forall (fun e => starts e = false) es ->
  labelled m L -> labelled m (run es L).
Proof.
  intros H. revert L. induction H as [|e es He _ IH]; intros L HL;
    [exact HL|].
  rewrite eh_run_cons. now apply IH, eh_labelled_handle.
Qed.

Lemma eh_labelled_runRequest m sel (L0 : Loop) :
  Loop.pending L0 = [] -> labelled m (runRequest m sel L0).
Proof.
  intros Hp. unfold runRequest.
  destruct (String.eqb sel "http"), (String.eqb sel "network");
    (split; [cbn; rewrite Hp; repeat constructor|cbn; discriminate]).
Qed.

(** *** The parsing scenario *)

Lemma eh_fetch_ok_parsing bound p m url response (L : Loop) :
  awaiting bound p (awaitFetch m "parsing" url) L ->
  (1800 <= bound)%N ->
  Js.ok response = true ->
  awaiting bound (S p) (awaitText m response)
    (handle (FetchSettles p (Js.Fulfilled response)) L).
Proof.
  intros (B & P & N) Hb Hok. cbn [handle].
  rewrite (LoopFacts.take_head _ _ _ _ P). unfold afterFetch.
  rewrite Hok. cbn [negb String.eqb]. split; [|split]; cbn.
  - apply LoopFacts.enqueue_Forall; [cbn; lia|exact B].
  - now rewrite N.
  - now rewrite N.
Qed.

Lemma eh_text_read p m response (L : Loop) :
  Loop.pending L = [(p, awaitText m response)] ->
  handle (BodyRead p) L =
  catch m invalidJson
    (Loop.withPending [] L
       |> Loop.update
            (addLog "Forcing invalid JSON parse..." Kind.warning
               (Loop.clock L))).
Proof.
  intros P. cbn [handle]. now rewrite (LoopFacts.take_head _ _ _ _ P).
Qed.

Lemma eh_parsing_failure (L0 : Loop) d1 d2 d3 response :
  Loop.quiescent L0 ->
  status (Loop.view L0) <> Status.loading ->
  mode (Loop.view L0) = "parsing" ->
  Js.ok response = true ->
  (2600 <= d3)%N ->
  let n := Loop.nextPromise L0 in
  let L :=
    run [ClickRun; Elapse d1; FetchSettles n (Js.Fulfilled response);
         Elapse d2; BodyRead (S n); Elapse d3] L0 in
  status (Loop.view L) = Status.error /\
  errorDetails (Loop.view L) =
    Some {| name := "SyntaxError"; message := Js.message invalidJson;
            errorType := "Parsing Error" |}.
Proof.
  intros Q Hs Hm Hok Hd n.
  rewrite eh_run_cons, (eh_click_run L0 Hs), Hm.
  destruct (eh_awaiting_runRequest "parsing" "parsing" L0 Q) as (url & A).
  apply (eh_awaiting_elapse _ _ _ d1) in A.
  assert (A2 := eh_fetch_ok_parsing _ _ _ _ response _ A (N.le_refl _) Hok).
  apply (eh_awaiting_elapse _ _ _ d2) in A2.
  do 3 rewrite eh_run_cons. fold n in A2.
  generalize dependent
    (handle (Elapse d2)
       (handle (FetchSettles n (Js.Fulfilled response))
          (handle (Elapse d1) (runRequest "parsing" "parsing" L0)))).
  intros L2 (B & P & _).
  rewrite eh_run_cons, (eh_text_read _ _ _ _ P). cbn [run fold_left].
  match goal with
  | |- context [catch "parsing" ?err ?L] =>
      destruct (eh_caught_reported "parsing" err d3 L B Hd)
        as (R1 & _ & R3 & _)
  end.
  split; [exact R1|exact R3].
Qed.
End ErrorHandlingFacts.

(** C5.  On the error-handling page, a run whose request is answered
    with a status outside 200..299 ends, once the last timer has run,
    with the status error; the log holds a line of kind error whose
    message includes the status code, and the message shown to the user
    differs from the message of the error that was thrown, which the
    page keeps among the error details. *)
Theorem http_error_is_reported
    (L0 : ErrorHandling.Loop) (d1 d2 : N) (response : Js.Response) :
  Loop.quiescent L0 ->
  ErrorHandling.status (Loop.view L0) <> Status.loading ->
  Js.ok response = false ->
  (2600 <= d2)%N ->
  let code := Js.num (Js.status response) in
  let L :=
    ErrorHandling.run
      [ClickRun; Elapse d1;
       FetchSettles (Loop.nextPromise L0) (Js.Fulfilled response);
       Elapse d2] L0 in
  ErrorHandling.status (Loop.view L) = Status.error /\
  (exists e, e ∈ ErrorHandling.logs (Loop.view L) /\ type e = Kind.error /\
             Js.includes code (msg e) = true) /\
  exists d, ErrorHandling.errorDetails (Loop.view L) = Some d /\
            ErrorHandling.message d = "HTTP " +:+ code /\
            ErrorHandling.userMessage (Loop.view L) <> ErrorHandling.message d.
Proof. exact (ErrorHandlingFacts.eh_http_failure L0 d1 d2 response). Qed.

Lemma http_error_is_reported_witness :
  let L0 :=
    Loop.mount (ErrorHandling.setMode "http" ErrorHandling.initial) 0 in
  (Loop.quiescent L0 /\
   ErrorHandling.status (Loop.view L0) <> Status.loading /\
   Js.ok Sample.notFound = false /\ (2600 <= 3000)%N) /\
  let L :=
    ErrorHandling.run
      [ClickRun; Elapse 80; FetchSettles 0 (Js.Fulfilled Sample.notFound);
       Elapse 3000] L0 in
  ErrorHandling.status (Loop.view L) = Status.error /\
  (exists e, e ∈ ErrorHandling.logs (Loop.view L) /\ type e = Kind.error /\
             Js.includes "404" (msg e) = true) /\
  exists d, ErrorHandling.errorDetails (Loop.view L) = Some d /\
            ErrorHandling.message d = "HTTP 404" /\
            ErrorHandling.userMessage (Loop.view L) <> ErrorHandling.message d.
Proof.
  split.
  - repeat split; try reflexivity; [discriminate | vm_compute; discriminate].
  - apply (http_error_is_reported
             (Loop.mount (ErrorHandling.setMode "http" ErrorHandling.initial) 0)
             80 3000 Sample.notFound);
      [split; reflexivity | discriminate | reflexivity
      | vm_compute; discriminate].
Defined.

(** C6.  On the error-handling page the label of a failure is chosen
    by the scenario selected when the run button was clicked, whatever
    was thrown and whatever happens afterwards short of a new run; and
    a run of the parsing scenario whose request is answered with an ok
    status, whatever the payload, ends with the status error and the
    label Parsing Error. *)
Theorem failure_label_follows_scenario
    (L0 : ErrorHandling.Loop) (es : list Event) (d1 d2 d3 : N)
    (response : Js.Response) :
  Loop.quiescent L0 ->
  ErrorHandling.status (Loop.view L0) <> Status.loading ->
  Forall (fun e => ErrorHandling.starts e = false) es ->
  let m := ErrorHandling.mode (Loop.view L0) in
  let n := Loop.nextPromise L0 in
  (forall d,
     ErrorHandling.errorDetails
       (Loop.view (ErrorHandling.run (ClickRun :: es) L0)) = Some d ->
     (forall err, ErrorHandling.errorType d = ErrorHandling.getErrorType err m) /\
     (m = "parsing" -> ErrorHandling.errorType d = "Parsing Error") /\
     (m = "network" -> ErrorHandling.errorType d = "Network Error") /\
     (m = "http" -> ErrorHandling.errorType d = "HTTP Error") /\
     (m <> "parsing" -> m <> "network" -> m <> "http" ->
      ErrorHandling.errorType d = "Unknown Error")) /\
  (m = "parsing" -> Js.ok response = true -> (2600 <= d3)%N ->
   let L :=
     ErrorHandling.run
       [ClickRun; Elapse d1; FetchSettles n (Js.Fulfilled response);
        Elapse d2; BodyRead (S n); Elapse d3] L0 in
   ErrorHandling.status (Loop.view L) = Status.error /\
   exists d, ErrorHandling.errorDetails (Loop.view L) = Some d /\
             ErrorHandling.errorType d = "Parsing Error" /\
             ErrorHandling.errorType d <> "Network Error").
Proof.
  intros Q Hs Hes m n. split.
  - intros d Hd.
    assert (HL : ErrorHandling.labelled m
                   (ErrorHandling.run (ClickRun :: es) L0)).
    { rewrite ErrorHandlingFacts.eh_run_cons, (ErrorHandlingFacts.eh_click_run L0 Hs).
      apply ErrorHandlingFacts.eh_labelled_run; [exact Hes|].
      apply ErrorHandlingFacts.eh_labelled_runRequest, Q. }
    destruct HL as [_ HL].
    assert (E : forall err,
               ErrorHandling.errorType d = ErrorHandling.getErrorType err m)
      by (intros err; now apply HL).
    pose proof (E ErrorHandling.invalidJson) as E0.
    unfold ErrorHandling.getErrorType in E0.
    split; [exact E|]. repeat split.
    + intros ->. exact E0.
    + intros ->. exact E0.
    + intros ->. exact E0.
    + intros N1 N2 N3.
      destruct (String.eqb_spec m "network"); [contradiction|].
      destruct (String.eqb_spec m "http"); [contradiction|].
      destruct (String.eqb_spec m "parsing"); [contradiction|].
      exact E0.
  - intros Hm Hok Hd.
    destruct (ErrorHandlingFacts.eh_parsing_failure L0 d1 d2 d3 response
                Q Hs Hm Hok Hd) as [R1 R2].
    split; [exact R1|]. eexists. split; [exact R2|].
    split; [reflexivity|discriminate].
Qed.

Lemma failure_label_follows_scenario_witness :
  let L0 :=
    Loop.mount (ErrorHandling.setMode "parsing" ErrorHandling.initial) 0 in
  let es := [Elapse 90; FetchSettles 0 (Js.Fulfilled Sample.notFound);
             Select "http"; Elapse 3000] in
  (Loop.quiescent L0 /\
   ErrorHandling.status (Loop.view L0) <> Status.loading /\
   Forall (fun e => ErrorHandling.starts e = false) es) /\
  (forall d,
     ErrorHandling.errorDetails
       (Loop.view (ErrorHandling.run (ClickRun :: es) L0)) = Some d ->
     ErrorHandling.errorType d = "Parsing Error") /\
  let L :=
    ErrorHandling.run
      [ClickRun; Elapse 90; FetchSettles 0 (Js.Fulfilled Sample.cat);
       Elapse 20; BodyRead 1; Elapse 2600] L0 in
  ErrorHandling.status (Loop.view L) = Status.error /\
  exists d, ErrorHandling.errorDetails (Loop.view L) = Some d /\
            ErrorHandling.errorType d = "Parsing Error" /\
            ErrorHandling.errorType d <> "Network Error".
Proof.
  intros L0 es.
  assert (Q : Loop.quiescent L0) by (split; reflexivity).
  assert (Hs : ErrorHandling.status (Loop.view L0) <> Status.loading)
    by discriminate.
  assert (Hes : Forall (fun e => ErrorHandling.starts e = false) es)
    by (repeat constructor).
  destruct (failure_label_follows_scenario L0 es 90 20 2600 Sample.cat
              Q Hs Hes) as [W1 W2].
  split; [auto|]. split.
  - intros d Hd. destruct (W1 d Hd) as (_ & W & _). now apply W.
  - apply W2; [reflexivity | reflexivity | vm_compute; discriminate].
Defined.

(** ** The timers of the use() page *)

Module UseHookFacts.
Import UseHook.

Lemma uh_run_cons e es (L : Loop) : run (e :: es) L = run es (handle e L).
Proof. reflexivity. Qed.

(** Clearing a list of ids leaves the rest of the loop alone and
    removes every timer with one of these ids. *)
Lemma uh_clear_ids ids (L : Loop) :
  let L' := fold_left (fun L i => Loop.clearTimeout i L) ids L in
  Loop.view L' = Loop.view L /\
  Loop.clock L' = Loop.clock L /\
  Loop.nextTimer L' = Loop.nextTimer L /\
  sublist (Loop.timers L') (Loop.timers L) /\
  Forall (fun x => Loop.id x ∉ ids) (Loop.timers L').
Proof.
  revert L. induction ids as [|i ids IH]; intros L; cbn.
  - repeat split; [reflexivity|]. apply Forall_forall. intros x _ H.
    now apply elem_of_nil in H.
  - destruct (IH (Loop.clearTimeout i L)) as (V & C & N & S & F).
    cbn in V, C, N, S. repeat split; try assumption.
    + etransitivity; [exact S|]. apply sublist_filter.
    + apply Forall_forall. intros x Hx.
      rewrite Forall_forall in F. specialize (F x Hx).
      intros [E|H]%elem_of_cons; [|contradiction].
      apply (fun H => elem_of_sublist _ _ _ H S), list_elem_of_filter in Hx.
      now destruct Hx.
Qed.

Lemma uh_clearAll_owned (L : Loop) :
  owned L ->
  Loop.timers (clearAll L) = [] /\
  Loop.view (clearAll L) = Loop.view L /\
  Loop.clock (clearAll L) = Loop.clock L /\
  Loop.nextTimer (clearAll L) = Loop.nextTimer L.
Proof.
  intros [O _]. unfold clearAll.
  destruct (uh_clear_ids (timeoutsRef (Loop.view L)) L) as (V & C & N & S & F).
  cbv zeta in V, C, N, S, F.
  match type of V with
  | Loop.view ?X = _ => generalize dependent X
  end.
  intros L' V C N S F.
  repeat split; try assumption.
  destruct (Loop.timers L') as [|x q]; [reflexivity|].
  exfalso. inversion F as [|? ? Hx _]; subst. apply Hx.
  rewrite Forall_forall in O. apply O.
  apply (fun H => elem_of_sublist _ _ _ H S). now left.
Qed.

(** A call of [startAnimation] leaves its own six timers pending and
    nothing else. *)
Lemma uh_startAnimation_timers path (L : Loop) :
  owned L ->
  let L' := startAnimation path L in
  Loop.timers L' = scheduled L /\
  timeoutsRef (Loop.view L') = map Loop.id (scheduled L) /\
  mounted (Loop.view L') = mounted (Loop.view L).
Proof.
  intros O. destruct (uh_clearAll_owned L O) as (T & V & C & N).
  unfold startAnimation, scheduled. rewrite <- C, <- N, <- V.
  generalize dependent (clearAll L).
  intros [v c ts nt ps np un] T _ _ _. clear L O. cbn in T. subst ts.
  cbn -[N.ltb N.add].
  repeat (match goal with
          | |- context [N.ltb ?a ?b] => destruct (N.ltb_spec a b); [lia|]
          end; cbn -[N.ltb N.add]).
  repeat split.
Qed.

Lemma uh_Forall_sublist {A} (P : A -> Prop) (l k : list A) :
  sublist l k -> Forall P k -> Forall P l.
Proof.
  intros S H. apply Forall_forall. intros x Hx.
  rewrite Forall_forall in H. apply H. exact (elem_of_sublist _ _ _ Hx S).
Qed.

(** No timer callback touches the ref or remounts the component. *)
Lemma uh_fire_keeps cb now v :
  timeoutsRef (fst (fire cb now v)) = timeoutsRef v /\
  mounted (fst (fire cb now v)) = mounted v.
Proof.
  unfold fire. destruct (mounted v) eqn:M, cb; cbn; split;
    first [reflexivity | now rewrite M].
Qed.

Lemma uh_elapse_view ms (L : Loop) :
  timeoutsRef (Loop.view (handle (Elapse ms) L)) = timeoutsRef (Loop.view L) /\
  mounted (Loop.view (handle (Elapse ms) L)) = mounted (Loop.view L).
Proof.
  cbn.
  apply (LoopFacts.drain_view fire
           (fun v => timeoutsRef v = timeoutsRef (Loop.view L) /\
                     mounted v = mounted (Loop.view L)));
    [|split; reflexivity].
  apply Forall_forall. intros x _ now v [H1 H2].
  destruct (uh_fire_keeps (Loop.callback x) now v) as [K1 K2].
  split; congruence.
Qed.

Lemma uh_owned_mount now : owned (Loop.mount initial now).
Proof. split; [constructor|reflexivity]. Qed.

Lemma uh_owned_startAnimation path (L : Loop) :
  mounted (Loop.view L) = true -> owned L -> owned (startAnimation path L).
Proof.
  intros M O. destruct (uh_startAnimation_timers path L O) as (T & R & M').
  split.
  - rewrite T, R. apply Forall_forall. intros x Hx.
    now apply list_elem_of_fmap_2.
  - rewrite M', M. discriminate.
Qed.

Lemma uh_owned_elapse ms (L : Loop) : owned L -> owned (handle (Elapse ms) L).
Proof.
  intros [O U]. destruct (uh_elapse_view ms L) as [R M]. split.
  - rewrite R. eapply uh_Forall_sublist; [|exact O].
    cbn. apply LoopFacts.drain_sublist.
  - rewrite M. intros H. cbn. now rewrite (U H).
Qed.

Lemma uh_owned_unmount (L : Loop) : owned L -> owned (unmount L).
Proof.
  intros O. destruct (uh_clearAll_owned L O) as (T & _).
  unfold unmount, owned. cbn. rewrite T. split; [constructor|reflexivity].
Qed.

Lemma uh_owned_handle e (L : Loop) : owned L -> owned (handle e L).
Proof.
  intros O. destruct e; [| |now apply uh_owned_elapse|]; cbn [handle];
    destruct (mounted (Loop.view L)) eqn:M; cbn [negb]; try exact O.
  - destruct (isAnimating (Loop.view L)); [exact O|].
    now apply uh_owned_startAnimation.
  - now apply uh_owned_startAnimation.
  - now apply uh_owned_unmount.
Qed.

Lemma uh_owned_run es (L : Loop) : owned L -> owned (run es L).
Proof.
  revert L. induction es as [|e es IH]; intros L O; [exact O|].
  rewrite uh_run_cons. now apply IH, uh_owned_handle.
Qed.

(** Without a call of [startAnimation] the pending timers only get
    fewer. *)
Lemma uh_handle_sublist e (L : Loop) :
  starts e = false ->
  sublist (Loop.timers (handle e L)) (Loop.timers L).
Proof.
  destruct e; try discriminate; intros _.
  - cbn. apply LoopFacts.drain_sublist.
  - cbn [handle]. destruct (mounted (Loop.view L)); cbn [negb];
      [|reflexivity].
    unfold unmount, clearAll. cbn [Loop.update Loop.timers].
    now destruct (uh_clear_ids (timeoutsRef (Loop.view L)) L) as (_ & _ & _ & S & _).
Qed.

Lemma uh_run_sublist es (L : Loop) :
  Forall (fun e => starts e = false) es ->
  sublist (Loop.timers (run es L)) (Loop.timers L).
Proof.
  intros H. revert L. induction H as [|e es He _ IH]; intros L;
    [reflexivity|].
  rewrite uh_run_cons. etransitivity; [apply IH|now apply uh_handle_sublist].
Qed.

Lemma uh_unmount_clears (L : Loop) :
  owned L -> Loop.timers (handle Unmount L) = [].
Proof.
  intros O. cbn [handle]. destruct (mounted (Loop.view L)) eqn:M;
    cbn [negb].
  - now destruct (uh_owned_unmount L O) as [_ U]; apply U.
  - now destruct O as [_ U]; apply U.
Qed.
End UseHookFacts.

(** C10.  On the use() page a call of [startAnimation] cancels every
    timer set before it and leaves its own six timers pending; until
    the next call the pending timers are some of these six, so a
    callback that advances the step belongs to the most recent
    animation; and unmounting the component cancels every timer. *)
Theorem animation_timers_belong_to_last_start
    (now : N) (before after : list UseHook.Event) (path : string) :
  let L1 := UseHook.run before (Loop.mount UseHook.initial now) in
  UseHook.mounted (Loop.view L1) = true ->
  Forall (fun e => UseHook.starts e = false) after ->
  let L2 := UseHook.startAnimation path L1 in
  let L3 := UseHook.run after L2 in
  Loop.timers L2 = UseHook.scheduled L1 /\
  UseHook.timeoutsRef (Loop.view L2) = map Loop.id (UseHook.scheduled L1) /\
  Forall (fun x => Loop.nextTimer L1 <= Loop.id x) (Loop.timers L2) /\
  sublist (Loop.timers L3) (UseHook.scheduled L1) /\
  Loop.timers (UseHook.handle UseHook.Unmount L3) = [] /\
  (UseHook.mounted (Loop.view L3) = false -> Loop.timers L3 = []).
Proof.
  intros L1 M Hafter L2 L3.
  assert (O1 : UseHook.owned L1)
    by apply UseHookFacts.uh_owned_run, UseHookFacts.uh_owned_mount.
  destruct (UseHookFacts.uh_startAnimation_timers path L1 O1) as (T & R & _).
  fold L2 in T, R.
  assert (O3 : UseHook.owned L3)
    by (apply UseHookFacts.uh_owned_run;
        now apply UseHookFacts.uh_owned_startAnimation).
  split; [exact T|]. split; [exact R|]. split.
  - rewrite T. unfold UseHook.scheduled. repeat constructor; cbn; lia.
  - split; [|split].
    + rewrite <- T. now apply UseHookFacts.uh_run_sublist.
    + now apply UseHookFacts.uh_unmount_clears.
    + exact (proj2 O3).
Qed.

Lemma animation_timers_belong_to_last_start_witness :
  let before := [UseHook.Start "success"; UseHook.Elapse 2500] in
  let after := [UseHook.Elapse 1300] in
  let L1 := UseHook.run before (Loop.mount UseHook.initial 0) in
  (UseHook.mounted (Loop.view L1) = true /\
   Forall (fun e => UseHook.starts e = false) after) /\
  let L2 := UseHook.startAnimation "error" L1 in
  let L3 := UseHook.run after L2 in
  map Loop.id (Loop.timers L1) = [3; 4; 5; 6] /\
  map Loop.id (Loop.timers L2) = [7; 8; 9; 10; 11; 12] /\
  sublist (Loop.timers L3) (UseHook.scheduled L1) /\
  Loop.timers (UseHook.handle UseHook.Unmount L3) = [].
Proof.
  intros before after L1.
  assert (M : UseHook.mounted (Loop.view L1) = true) by reflexivity.
  assert (A : Forall (fun e => UseHook.starts e = false) after)
    by (repeat constructor).
  destruct (animation_timers_belong_to_last_start 0 before after "error" M A)
    as (_ & _ & _ & W1 & W2 & _).
  split; [split; assumption|]. split; [reflexivity|].
  split; [reflexivity|]. split; assumption.
Defined.

(** * Further properties of the code *)

(** ** Moving between topics *)

(** X1.  Whatever the [active] cell holds, [goPrev] and [goNext] never
    read outside [TABS]: they throw nothing, [goNext] always lands on a
    tab, and [goPrev] stays on the tabs once on one.  On the first tab
    [goPrev] changes nothing, on the last one [goNext] changes
    nothing. *)
Theorem navigation_stays_on_tabs (active : string) :
  (exists a, App.goPrev active = inr a /\
             (In active App.TABS -> In a App.TABS) /\
             (App.currentIndex active = 0%Z -> a = active)) /\
  (exists b, App.goNext active = inr b /\ In b App.TABS /\
             (App.currentIndex active = (App.total - 1)%Z -> b = active)).
Proof.
  assert (T : forall id, id = active ->
            (exists a, App.goPrev id = inr a /\ In a App.TABS /\
                       (App.currentIndex id = 0%Z -> a = id)) /\
            (exists b, App.goNext id = inr b /\ In b App.TABS /\
                       (App.currentIndex id = (App.total - 1)%Z -> b = id)) ->
            (exists a, App.goPrev active = inr a /\
                       (In active App.TABS -> In a App.TABS) /\
                       (App.currentIndex active = 0%Z -> a = active)) /\
            (exists b, App.goNext active = inr b /\ In b App.TABS /\
                       (App.currentIndex active = (App.total - 1)%Z ->
                        b = active))).
  { intros id <- [(a & P1 & P2 & P3) Q]. split; [|exact Q].
    exists a. auto. }
  assert (known : forall id, In id App.TABS ->
            (exists a, App.goPrev id = inr a /\ In a App.TABS /\
                       (App.currentIndex id = 0%Z -> a = id)) /\
            (exists b, App.goNext id = inr b /\ In b App.TABS /\
                       (App.currentIndex id = (App.total - 1)%Z -> b = id))).
  { intros id H. unfold App.TABS in H. cbn in H.
    repeat (destruct H as [<-|H];
            [split; eexists;
             (split; [vm_compute; reflexivity|]);
             (split; [cbn; repeat (first [left; reflexivity|right])|]);
             intros Hi; first [reflexivity|vm_compute in Hi; discriminate]|]).
    contradiction. }
  destruct (in_dec string_dec active App.TABS) as [H|H].
  - apply (T active eq_refl), known, H.
  - assert (I : App.currentIndex active = (-1)%Z).
    { unfold App.currentIndex, App.TABS in *. cbn [App.findIndexFrom].
      repeat match goal with
             | |- context [String.eqb ?id active] =>
                 destruct (String.eqb_spec id active);
                 [exfalso; apply H; subst; cbn; tauto|]
             end.
      reflexivity. }
    unfold App.goPrev, App.goNext. rewrite I. split.
    + exists active. cbn. split; [reflexivity|]. split; [tauto|discriminate].
    + exists "comparison". split; [reflexivity|].
      split; [cbn; tauto|discriminate].
Qed.

(** X2.  Between two tabs [goNext] and [goPrev] undo each other: from
    a tab which is not the last, next then previous comes back to it,
    and from a tab which is not the first, previous then next does. *)
Theorem next_then_previous (active : string) :
  In active App.TABS ->
  (App.currentIndex active < App.total - 1 ->
   exists b, App.goNext active = inr b /\ b <> active /\
             App.goPrev b = inr active)%Z /\
  (0 < App.currentIndex active ->
   exists a, App.goPrev active = inr a /\ a <> active /\
             App.goNext a = inr active)%Z.
Proof.
  intros H. unfold App.TABS in H. cbn in H.
  repeat (destruct H as [<-|H];
          [split; intros Hi;
           first [ exfalso; vm_compute in Hi; discriminate
                 | eexists; split; [vm_compute; reflexivity|];
                   split; [discriminate|vm_compute; reflexivity] ]|]).
  contradiction.
Qed.

Lemma next_then_previous_witness :
  In "config" App.TABS /\
  (exists b, App.goNext "config" = inr b /\ b <> "config" /\
             App.goPrev b = inr "config") /\
  (exists a, App.goPrev "config" = inr a /\ a <> "config" /\
             App.goNext a = inr "config").
Proof.
  assert (H : In "config" App.TABS) by (cbn; tauto).
  destruct (next_then_previous "config" H) as [W1 W2].
  split; [exact H|]. split; [apply W1|apply W2]; reflexivity.
Defined.

(** ** The step counter and the log, event by event *)

Ltac keeps_step T V :=
  match type of T with
  | Loop.take _ _ = Some (?k, _) =>
      pose proof (take_view _ _ _ _ T) as V; clear T; destruct k;
      cbn; settle_cases; rewrite ?V; first [assumption | lia]
  | _ => assumption
  end.

Ltac extends_log T V :=
  match type of T with
  | Loop.take _ _ = Some (?k, _) =>
      pose proof (take_view _ _ _ _ T) as V; clear T; destruct k;
      cbn -[prefix]; settle_cases; rewrite ?V;
      repeat apply prefix_app_r; reflexivity
  | _ => reflexivity
  end.

Lemma FetchBasics_step_bound e (L : FetchBasics.Loop) :
  FetchBasics.step (Loop.view L) <= 3 ->
  FetchBasics.step (Loop.view (FetchBasics.handle e L)) <= 3.
Proof.
  intros H. destruct e; cbn [FetchBasics.handle].
  - exact H.
  - destruct (Status.eqb _ _); [exact H|].
    unfold FetchBasics.afterFetch, FetchBasics.afterJson, FetchBasics.catch; cbn; settle_cases; lia.
  - cbn; lia.
  - cbn. apply (LoopFacts.drain_view FetchBasics.fire
                  (fun v => FetchBasics.step v <= 3)); [|exact H].
    apply Forall_forall. intros x _ now v Hv.
    destruct (Loop.callback x); cbn; settle_cases; first [exact Hv | lia].
  - destruct (Loop.take promise L) as [[k L']|] eqn:T;
      unfold FetchBasics.afterFetch, FetchBasics.afterJson, FetchBasics.catch; keeps_step T V.
  - destruct (Loop.take promise L) as [[k L']|] eqn:T;
      unfold FetchBasics.afterFetch, FetchBasics.afterJson, FetchBasics.catch; keeps_step T V.
Qed.

Lemma FetchBasics_log_grows e (L : FetchBasics.Loop) :
  Progress.clears e = false ->
  FetchBasics.logs (Loop.view L) `prefix_of`
  FetchBasics.logs (Loop.view (FetchBasics.handle e L)).
Proof.
  intros H. destruct e; try discriminate; cbn [FetchBasics.handle].
  - reflexivity.
  - cbn -[prefix].
    apply (LoopFacts.drain_view FetchBasics.fire
             (fun v => FetchBasics.logs (Loop.view L) `prefix_of` FetchBasics.logs v));
      [|reflexivity].
    apply Forall_forall. intros x _ now v Hv. etransitivity; [exact Hv|].
    destruct (Loop.callback x); cbn -[prefix]; settle_cases;
      repeat apply prefix_app_r; reflexivity.
  - destruct (Loop.take promise L) as [[k L']|] eqn:T;
      unfold FetchBasics.afterFetch, FetchBasics.afterJson, FetchBasics.catch; extends_log T V.
  - destruct (Loop.take promise L) as [[k L']|] eqn:T;
      unfold FetchBasics.afterFetch, FetchBasics.afterJson, FetchBasics.catch; extends_log T V.
Qed.

Lemma XhrLegacy_step_bound e (L : XhrLegacy.Loop) :
  XhrLegacy.step (Loop.view L) <= 3 ->
  XhrLegacy.step (Loop.view (XhrLegacy.handle e L)) <= 3.
Proof.
  intros H. destruct e; cbn [XhrLegacy.handle].
  - exact H.
  - destruct (Status.eqb _ _); [exact H|].
    unfold XhrLegacy.afterFetch, XhrLegacy.afterJson, XhrLegacy.catch; cbn; settle_cases; lia.
  - cbn; lia.
  - cbn. apply (LoopFacts.drain_view XhrLegacy.fire
                  (fun v => XhrLegacy.step v <= 3)); [|exact H].
    apply Forall_forall. intros x _ now v Hv.
    destruct (Loop.callback x); cbn; settle_cases; first [exact Hv | lia].
  - destruct (Loop.take promise L) as [[k L']|] eqn:T;
      unfold XhrLegacy.afterFetch, XhrLegacy.afterJson, XhrLegacy.catch; keeps_step T V.
  - destruct (Loop.take promise L) as [[k L']|] eqn:T;
      unfold XhrLegacy.afterFetch, XhrLegacy.afterJson, XhrLegacy.catch; keeps_step T V.
Qed.

Lemma XhrLegacy_log_grows e (L : XhrLegacy.Loop) :
  Progress.clears e = false ->
  XhrLegacy.logs (Loop.view L) `prefix_of`
  XhrLegacy.logs (Loop.view (XhrLegacy.handle e L)).
Proof.
  intros H. destruct e; try discriminate; cbn [XhrLegacy.handle].
  - reflexivity.
  - cbn -[prefix].
    apply (LoopFacts.drain_view XhrLegacy.fire
             (fun v => XhrLegacy.logs (Loop.view L) `prefix_of` XhrLegacy.logs v));
      [|reflexivity].
    apply Forall_forall. intros x _ now v Hv. etransitivity; [exact Hv|].
    destruct (Loop.callback x); cbn -[prefix]; settle_cases;
      repeat apply prefix_app_r; reflexivity.
  - destruct (Loop.take promise L) as [[k L']|] eqn:T;
      unfold XhrLegacy.afterFetch, XhrLegacy.afterJson, XhrLegacy.catch; extends_log T V.
  - destruct (Loop.take promise L) as [[k L']|] eqn:T;
      unfold XhrLegacy.afterFetch, XhrLegacy.afterJson, XhrLegacy.catch; extends_log T V.
Qed.

Lemma PromisesAsync_step_bound e (L : PromisesAsync.Loop) :
  PromisesAsync.step (Loop.view L) <= 4 ->
  PromisesAsync.step (Loop.view (PromisesAsync.handle e L)) <= 4.
Proof.
  intros H. destruct e; cbn [PromisesAsync.handle].
  - exact H.
  - destruct (Status.eqb _ _); [exact H|].
    unfold PromisesAsync.afterFetch, PromisesAsync.afterJson, PromisesAsync.catch; cbn; settle_cases; lia.
  - cbn; lia.
  - cbn. apply (LoopFacts.drain_view PromisesAsync.fire
                  (fun v => PromisesAsync.step v <= 4)); [|exact H].
    apply Forall_forall. intros x _ now v Hv.
    destruct (Loop.callback x); cbn; settle_cases; first [exact Hv | lia].
  - destruct (Loop.take promise L) as [[k L']|] eqn:T;
      unfold PromisesAsync.afterFetch, PromisesAsync.afterJson, PromisesAsync.catch; keeps_step T V.
  - destruct (Loop.take promise L) as [[k L']|] eqn:T;
      unfold PromisesAsync.afterFetch, PromisesAsync.afterJson, PromisesAsync.catch; keeps_step T V.
Qed.

Lemma PromisesAsync_log_grows e (L : PromisesAsync.Loop) :
  Progress.clears e = false ->
  PromisesAsync.logs (Loop.view L) `prefix_of`
  PromisesAsync.logs (Loop.view (PromisesAsync.handle e L)).
Proof.
  intros H. destruct e; try discriminate; cbn [PromisesAsync.handle].
  - reflexivity.
  - cbn -[prefix].
    apply (LoopFacts.drain_view PromisesAsync.fire
             (fun v => PromisesAsync.logs (Loop.view L) `prefix_of` PromisesAsync.logs v));
      [|reflexivity].
    apply Forall_forall. intros x _ now v Hv. etransitivity; [exact Hv|].
    destruct (Loop.callback x); cbn -[prefix]; settle_cases;
      repeat apply prefix_app_r; reflexivity.
  - destruct (Loop.take promise L) as [[k L']|] eqn:T;
      unfold PromisesAsync.afterFetch, PromisesAsync.afterJson, PromisesAsync.catch; extends_log T V.
  - destruct (Loop.take promise L) as [[k L']|] eqn:T;
      unfold PromisesAsync.afterFetch, PromisesAsync.afterJson, PromisesAsync.catch; extends_log T V.
Qed.

Lemma RequestConfig_step_bound e (L : RequestConfig.Loop) :
  RequestConfig.step (Loop.view L) <= 7 ->
  RequestConfig.step (Loop.view (RequestConfig.handle e L)) <= 7.
Proof.
  intros H. destruct e; cbn [RequestConfig.handle].
  - exact H.
  - destruct (Status.eqb _ _); [exact H|].
    unfold RequestConfig.afterFetch, RequestConfig.afterJson, RequestConfig.catch; cbn; settle_cases; lia.
  - cbn; lia.
  - cbn. apply (LoopFacts.drain_view RequestConfig.fire
                  (fun v => RequestConfig.step v <= 7)); [|exact H].
    apply Forall_forall. intros x _ now v Hv.
    destruct (Loop.callback x); cbn; settle_cases; first [exact Hv | lia].
  - destruct (Loop.take promise L) as [[k L']|] eqn:T;
      unfold RequestConfig.afterFetch, RequestConfig.afterJson, RequestConfig.catch; keeps_step T V.
  - destruct (Loop.take promise L) as [[k L']|] eqn:T;
      unfold RequestConfig.afterFetch, RequestConfig.afterJson, RequestConfig.catch; keeps_step T V.
Qed.

Lemma RequestConfig_log_grows e (L : RequestConfig.Loop) :
  Progress.clears e = false ->
  RequestConfig.logs (Loop.view L) `prefix_of`
  RequestConfig.logs (Loop.view (RequestConfig.handle e L)).
Proof.
  intros H. destruct e; try discriminate; cbn [RequestConfig.handle].
  - reflexivity.
  - cbn -[prefix].
    apply (LoopFacts.drain_view RequestConfig.fire
             (fun v => RequestConfig.logs (Loop.view L) `prefix_of` RequestConfig.logs v));
      [|reflexivity].
    apply Forall_forall. intros x _ now v Hv. etransitivity; [exact Hv|].
    destruct (Loop.callback x); cbn -[prefix]; settle_cases;
      repeat apply prefix_app_r; reflexivity.
  - destruct (Loop.take promise L) as [[k L']|] eqn:T;
      unfold RequestConfig.afterFetch, RequestConfig.afterJson, RequestConfig.catch; extends_log T V.
  - destruct (Loop.take promise L) as [[k L']|] eqn:T;
      unfold RequestConfig.afterFetch, RequestConfig.afterJson, RequestConfig.catch; extends_log T V.
Qed.

Lemma ErrorHandling_step_bound e (L : ErrorHandling.Loop) :
  ErrorHandling.step (Loop.view L) <= 4 ->
  ErrorHandling.step (Loop.view (ErrorHandling.handle e L)) <= 4.
Proof.
  intros H. destruct e; cbn [ErrorHandling.handle].
  - exact H.
  - destruct (Status.eqb _ _); [exact H|].
    unfold ErrorHandling.runRequest.
    destruct (String.eqb _ "http"), (String.eqb _ "network"); cbn; lia.
  - cbn; lia.
  - cbn. apply (LoopFacts.drain_view ErrorHandling.fire
                  (fun v => ErrorHandling.step v <= 4)); [|exact H].
    apply Forall_forall. intros x _ now v Hv.
    destruct (Loop.callback x); cbn; settle_cases; first [exact Hv | lia].
  - destruct (Loop.take promise L) as [[k L']|] eqn:T;
      unfold ErrorHandling.afterFetch, ErrorHandling.afterJson, ErrorHandling.afterText, ErrorHandling.catch; keeps_step T V.
  - destruct (Loop.take promise L) as [[k L']|] eqn:T;
      unfold ErrorHandling.afterFetch, ErrorHandling.afterJson, ErrorHandling.afterText, ErrorHandling.catch; keeps_step T V.
Qed.

Lemma ErrorHandling_log_grows e (L : ErrorHandling.Loop) :
  Progress.clears e = false ->
  ErrorHandling.logs (Loop.view L) `prefix_of`
  ErrorHandling.logs (Loop.view (ErrorHandling.handle e L)).
Proof.
  intros H. destruct e; try discriminate; cbn [ErrorHandling.handle].
  - reflexivity.
  - cbn -[prefix].
    apply (LoopFacts.drain_view ErrorHandling.fire
             (fun v => ErrorHandling.logs (Loop.view L) `prefix_of` ErrorHandling.logs v));
      [|reflexivity].
    apply Forall_forall. intros x _ now v Hv. etransitivity; [exact Hv|].
    destruct (Loop.callback x); cbn -[prefix]; settle_cases;
      repeat apply prefix_app_r; reflexivity.
  - destruct (Loop.take promise L) as [[k L']|] eqn:T;
      unfold ErrorHandling.afterFetch, ErrorHandling.afterJson, ErrorHandling.afterText, ErrorHandling.catch; extends_log T V.
  - destruct (Loop.take promise L) as [[k L']|] eqn:T;
      unfold ErrorHandling.afterFetch, ErrorHandling.afterJson, ErrorHandling.afterText, ErrorHandling.catch; extends_log T V.
Qed.

Lemma ResponseParsing_step_bound stringify byteSize kilobytes createObjectURL e (L : ResponseParsing.Loop) :
  ResponseParsing.step (Loop.view L) <= 4 ->
  ResponseParsing.step (Loop.view (ResponseParsing.handle stringify byteSize kilobytes createObjectURL e L)) <= 4.
Proof.
  intros H. destruct e; cbn [ResponseParsing.handle].
  - exact H.
  - destruct (Status.eqb _ _); [exact H|].
    unfold ResponseParsing.afterFetch, ResponseParsing.afterJson, ResponseParsing.afterText, ResponseParsing.afterBlobJson, ResponseParsing.afterImage, ResponseParsing.afterBlob, ResponseParsing.catch; cbn; settle_cases; lia.
  - cbn; lia.
  - cbn. apply (LoopFacts.drain_view ResponseParsing.fire
                  (fun v => ResponseParsing.step v <= 4)); [|exact H].
    apply Forall_forall. intros x _ now v Hv.
    destruct (Loop.callback x); cbn; settle_cases; first [exact Hv | lia].
  - destruct (Loop.take promise L) as [[k L']|] eqn:T;
      unfold ResponseParsing.afterFetch, ResponseParsing.afterJson, ResponseParsing.afterText, ResponseParsing.afterBlobJson, ResponseParsing.afterImage, ResponseParsing.afterBlob, ResponseParsing.catch; keeps_step T V.
  - destruct (Loop.take promise L) as [[k L']|] eqn:T;
      unfold ResponseParsing.afterFetch, ResponseParsing.afterJson, ResponseParsing.afterText, ResponseParsing.afterBlobJson, ResponseParsing.afterImage, ResponseParsing.afterBlob, ResponseParsing.catch; keeps_step T V.
Qed.

Lemma ResponseParsing_log_grows stringify byteSize kilobytes createObjectURL e (L : ResponseParsing.Loop) :
  Progress.clears e = false ->
  ResponseParsing.logs (Loop.view L) `prefix_of`
  ResponseParsing.logs (Loop.view (ResponseParsing.handle stringify byteSize kilobytes createObjectURL e L)).
Proof.
  intros H. destruct e; try discriminate; cbn [ResponseParsing.handle].
  - reflexivity.
  - cbn -[prefix].
    apply (LoopFacts.drain_view ResponseParsing.fire
             (fun v => ResponseParsing.logs (Loop.view L) `prefix_of` ResponseParsing.logs v));
      [|reflexivity].
    apply Forall_forall. intros x _ now v Hv. etransitivity; [exact Hv|].
    destruct (Loop.callback x); cbn -[prefix]; settle_cases;
      repeat apply prefix_app_r; reflexivity.
  - destruct (Loop.take promise L) as [[k L']|] eqn:T;
      unfold ResponseParsing.afterFetch, ResponseParsing.afterJson, ResponseParsing.afterText, ResponseParsing.afterBlobJson, ResponseParsing.afterImage, ResponseParsing.afterBlob, ResponseParsing.catch; extends_log T V.
  - destruct (Loop.take promise L) as [[k L']|] eqn:T;
      unfold ResponseParsing.afterFetch, ResponseParsing.afterJson, ResponseParsing.afterText, ResponseParsing.afterBlobJson, ResponseParsing.afterImage, ResponseParsing.afterBlob, ResponseParsing.catch; extends_log T V.
Qed.

Section EveryPage.
Variable stringify : Js.Val -> string.
Variable byteSize : string -> N.
Variable kilobytes : N -> string.
Variable createObjectURL : Js.Blob -> string.
Local Abbreviation handle :=
  (Demo.handle stringify byteSize kilobytes createObjectURL).
Local Abbreviation run :=
  (Demo.run stringify byteSize kilobytes createObjectURL).

Lemma bar_handle e p : Progress.bar (handle e p) = Progress.bar p.
Proof. destruct p; reflexivity. Qed.

Lemma step_bound_handle e p :
  Demo.step p <= Progress.bar p -> Demo.step (handle e p) <= Progress.bar p.
Proof.
  destruct p; cbn [Demo.step Progress.bar Demo.handle].
  - apply FetchBasics_step_bound.
  - apply XhrLegacy_step_bound.
  - apply PromisesAsync_step_bound.
  - apply RequestConfig_step_bound.
  - apply ResponseParsing_step_bound.
  - apply ErrorHandling_step_bound.
Qed.

Lemma log_grows_handle e p :
  Progress.clears e = false ->
  Demo.logs p `prefix_of` Demo.logs (handle e p).
Proof.
  destruct p; cbn [Demo.logs Demo.handle].
  - apply FetchBasics_log_grows.
  - apply XhrLegacy_log_grows.
  - apply PromisesAsync_log_grows.
  - apply RequestConfig_log_grows.
  - apply ResponseParsing_log_grows.
  - apply ErrorHandling_log_grows.
Qed.
End EveryPage.

(** X3.  On each of the six demo pages the step counter never passes
    the divisor of the page's progress bar, whatever happens: a bar
    that is at most full stays at most full. *)
Theorem step_within_progress_bar
    (stringify : Js.Val -> string) (byteSize : string -> N)
    (kilobytes : N -> string) (createObjectURL : Js.Blob -> string)
    (es : list Event) (p : Demo.t) :
  Demo.step p <= Progress.bar p ->
  let p' := Demo.run stringify byteSize kilobytes createObjectURL es p in
  Demo.step p' <= Progress.bar p'.
Proof.
  revert p. induction es as [|e es IH]; intros p H; [exact H|].
  cbn. apply IH. rewrite bar_handle. now apply step_bound_handle.
Qed.

Lemma step_within_progress_bar_witness :
  let p := Sample.fetchPage in
  Demo.step p <= Progress.bar p /\
  let p' :=
    Sample.run [ClickRun; Elapse 600; ClickReset; Elapse 5000; ClickRun;
                FetchSettles 1 (Js.Fulfilled Sample.cat); BodyRead 2;
                Elapse 9000] p in
  Demo.step p' <= Progress.bar p'.
Proof.
  assert (H : Demo.step Sample.fetchPage <= Progress.bar Sample.fetchPage)
    by (cbn; lia).
  split; [exact H|].
  exact (step_within_progress_bar Sample.stringify Sample.byteSize
           Sample.kilobytes Sample.createObjectURL _ Sample.fetchPage H).
Defined.

(** X4.  On each of the six demo pages the log only grows as long as
    neither run nor reset is clicked: timers and settling promises
    append lines and never remove or change one. *)
Theorem log_only_grows
    (stringify : Js.Val -> string) (byteSize : string -> N)
    (kilobytes : N -> string) (createObjectURL : Js.Blob -> string)
    (es : list Event) (p : Demo.t) :
  Forall (fun e => Progress.clears e = false) es ->
  Demo.logs p `prefix_of`
  Demo.logs (Demo.run stringify byteSize kilobytes createObjectURL es p).
Proof.
  intros H. revert p. induction H as [|e es He _ IH]; intros p;
    [reflexivity|].
  cbn. etransitivity; [|apply IH]. now apply log_grows_handle.
Qed.

Lemma log_only_grows_witness :
  let p := Sample.handle ClickRun Sample.fetchPage in
  let es := [Elapse 600; FetchSettles 0 (Js.Fulfilled Sample.notFound);
             Select "x"; Elapse 3000] in
  Forall (fun e => Progress.clears e = false) es /\
  Demo.logs p `prefix_of` Demo.logs (Sample.run es p).
Proof.
  intros p es.
  assert (H : Forall (fun e => Progress.clears e = false) es)
    by (repeat constructor).
  split; [exact H|].
  exact (log_only_grows Sample.stringify Sample.byteSize Sample.kilobytes
           Sample.createObjectURL es p H).
Defined.

(** ** Failures on the pages that display the image *)

Module FetchBasicsFailures.
Import FetchBasics.

Lemma fb_fire_grows cb now v e :
  e ∈ logs v -> e ∈ logs (fst (fire cb now v)).
Proof.
  intros H. destruct cb; cbn; settle_cases; rewrite ?elem_of_app; auto.
Qed.

(** Once the [catch] block has run the status is error and stays so
    while the rest of the narration plays. *)
Lemma fb_caught_stays bound err ms (L : Loop) :
  flying bound L ->
  let L' := handle (Elapse ms) (catch err L) in
  status (Loop.view L') = Status.error /\
  {| msg := "Error: " +:+ Js.message err; type := Kind.error;
     timestamp := Loop.clock L |} ∈ logs (Loop.view L').
Proof.
  intros [_ Ht]. cbn [handle]. unfold Loop.elapse, catch.
  cbn [Loop.view Loop.timers Loop.update Loop.clock Loop.uncaught].
  apply (LoopFacts.drain_view fire
           (fun v => status v = Status.error /\
                     {| msg := "Error: " +:+ Js.message err;
                        type := Kind.error;
                        timestamp := Loop.clock L |} ∈ logs v)).
  - eapply Forall_impl; [exact Ht|]. cbn. intros x [_ Hq] now v [H1 H2].
    split.
    + now apply (FetchBasicsFacts.fb_quiet_status _ _ _ (fun st => st = Status.error)).
    + now apply fb_fire_grows.
  - split; [reflexivity|]. cbn. apply elem_of_app. right.
    apply list_elem_of_singleton. reflexivity.
Qed.

Lemma fb_fetch_fails (L0 : Loop) d1 d2 r :
  Loop.quiescent L0 ->
  status (Loop.view L0) <> Status.loading ->
  Failure.fetch r = true ->
  let L := run [ClickRun; Elapse d1; FetchSettles (Loop.nextPromise L0) r;
                Elapse d2] L0 in
  status (Loop.view L) = Status.error /\
  exists e, e ∈ logs (Loop.view L) /\ type e = Kind.error /\
            forall err, r = Js.Rejected err ->
                        Js.includes (Js.message err) (msg e) = true.
Proof.
  intros Q Hs Hf. rewrite FetchBasicsFacts.fb_run_cons, (FetchBasicsFacts.fb_click_run L0 Hs).
  pose proof (FetchBasicsFacts.fb_awaiting_runFetch L0 Q) as A.
  apply (FetchBasicsFacts.fb_awaiting_elapse _ _ _ d1) in A.
  rewrite FetchBasicsFacts.fb_run_cons.
  match type of A with
  | awaiting _ _ _ ?X => generalize dependent X
  end.
  intros L1 (F & P & _). rewrite FetchBasicsFacts.fb_run_cons. cbn [run fold_left].
  remember (handle (Elapse d2)) as tick eqn:Etick.
  cbn [handle]. rewrite (LoopFacts.take_head _ _ _ _ P). subst tick.
  unfold afterFetch. destruct r as [err|response]; cbn in Hf.
  - destruct (fb_caught_stays _ err d2 (Loop.withPending [] L1) F)
      as [R1 R2].
    split; [exact R1|]. eexists. split; [exact R2|]. split; [reflexivity|].
    intros err' [= <-]. apply ErrorHandlingFacts.eh_includes_suffix.
  - rewrite Hf.
    match goal with
    | |- context [catch ?err ?L] =>
        destruct (fb_caught_stays _ err d2 L F) as [R1 R2]
    end.
    split; [exact R1|]. eexists. split; [exact R2|]. split; [reflexivity|].
    discriminate.
Qed.

Lemma fb_body_fails (L0 : Loop) d1 d2 d3 response err :
  Loop.quiescent L0 ->
  status (Loop.view L0) <> Status.loading ->
  Js.ok response = true ->
  Js.bodyJson response = inl err ->
  let n := Loop.nextPromise L0 in
  let L := run [ClickRun; Elapse d1; FetchSettles n (Js.Fulfilled response);
                Elapse d2; BodyRead (S n); Elapse d3] L0 in
  status (Loop.view L) = Status.error /\
  exists e, e ∈ logs (Loop.view L) /\ type e = Kind.error /\
            Js.includes (Js.message err) (msg e) = true.
Proof.
  intros Q Hs Hok Hjson n.
  rewrite FetchBasicsFacts.fb_run_cons, (FetchBasicsFacts.fb_click_run L0 Hs).
  pose proof (FetchBasicsFacts.fb_awaiting_runFetch L0 Q) as A.
  apply (FetchBasicsFacts.fb_awaiting_elapse _ _ _ d1) in A.
  apply (FetchBasicsFacts.fb_awaiting_response _ _ response) in A;
    [|try lia; exact Hok..].
  apply (FetchBasicsFacts.fb_awaiting_elapse _ _ _ d2) in A.
  do 3 rewrite FetchBasicsFacts.fb_run_cons. fold n in A.
  match type of A with
  | awaiting _ _ _ ?X => generalize dependent X
  end.
  intros L2 (F & P & _). rewrite FetchBasicsFacts.fb_run_cons. cbn [run fold_left].
  remember (handle (Elapse d3)) as tick eqn:Etick.
  cbn [handle]. rewrite (LoopFacts.take_head _ _ _ _ P). subst tick.
  unfold afterJson. rewrite Hjson.
  destruct (fb_caught_stays _ err d3 (Loop.withPending [] L2) F)
    as [R1 R2].
  split; [exact R1|]. eexists. split; [exact R2|]. split; [reflexivity|].
  apply ErrorHandlingFacts.eh_includes_suffix.
Qed.
End FetchBasicsFailures.

Module XhrLegacyFailures.
Import XhrLegacy.

Lemma xhr_fire_grows cb now v e :
  e ∈ logs v -> e ∈ logs (fst (fire cb now v)).
Proof.
  intros H. destruct cb; cbn; settle_cases; rewrite ?elem_of_app; auto.
Qed.

(** Once the [catch] block has run the status is error and stays so
    while the rest of the narration plays. *)
Lemma xhr_caught_stays bound err ms (L : Loop) :
  flying bound L ->
  let L' := handle (Elapse ms) (catch err L) in
  status (Loop.view L') = Status.error /\
  {| msg := "Request failed: " +:+ Js.message err; type := Kind.error;
     timestamp := Loop.clock L |} ∈ logs (Loop.view L').
Proof.
  intros [_ Ht]. cbn [handle]. unfold Loop.elapse, catch.
  cbn [Loop.view Loop.timers Loop.update Loop.clock Loop.uncaught].
  apply (LoopFacts.drain_view fire
           (fun v => status v = Status.error /\
                     {| msg := "Request failed: " +:+ Js.message err;
                        type := Kind.error;
                        timestamp := Loop.clock L |} ∈ logs v)).
  - eapply Forall_impl; [exact Ht|]. cbn. intros x [_ Hq] now v [H1 H2].
    split.
    + now apply (XhrLegacyFacts.xhr_quiet_status _ _ _ (fun st => st = Status.error)).
    + now apply xhr_fire_grows.
  - split; [reflexivity|]. cbn. apply elem_of_app. right.
    apply list_elem_of_singleton. reflexivity.
Qed.

Lemma xhr_fetch_fails (L0 : Loop) d1 d2 r :
  Loop.quiescent L0 ->
  status (Loop.view L0) <> Status.loading ->
  Failure.fetch r = true ->
  let L := run [ClickRun; Elapse d1; FetchSettles (Loop.nextPromise L0) r;
                Elapse d2] L0 in
  status (Loop.view L) = Status.error /\
  exists e, e ∈ logs (Loop.view L) /\ type e = Kind.error /\
            forall err, r = Js.Rejected err ->
                        Js.includes (Js.message err) (msg e) = true.
Proof.
  intros Q Hs Hf. rewrite XhrLegacyFacts.xhr_run_cons, (XhrLegacyFacts.xhr_click_run L0 Hs).
  pose proof (XhrLegacyFacts.xhr_awaiting_runXhrFlow (activeMethod (Loop.view L0)) L0 Q) as A.
  apply (XhrLegacyFacts.xhr_awaiting_elapse _ _ _ d1) in A.
  rewrite XhrLegacyFacts.xhr_run_cons.
  match type of A with
  | awaiting _ _ _ ?X => generalize dependent X
  end.
  intros L1 (F & P & _). rewrite XhrLegacyFacts.xhr_run_cons. cbn [run fold_left].
  remember (handle (Elapse d2)) as tick eqn:Etick.
  cbn [handle]. rewrite (LoopFacts.take_head _ _ _ _ P). subst tick.
  unfold afterFetch. destruct r as [err|response]; cbn in Hf.
  - destruct (xhr_caught_stays _ err d2 (Loop.withPending [] L1) F)
      as [R1 R2].
    split; [exact R1|]. eexists. split; [exact R2|]. split; [reflexivity|].
    intros err' [= <-]. apply ErrorHandlingFacts.eh_includes_suffix.
  - rewrite Hf.
    match goal with
    | |- context [catch ?err ?L] =>
        destruct (xhr_caught_stays _ err d2 L F) as [R1 R2]
    end.
    split; [exact R1|]. eexists. split; [exact R2|]. split; [reflexivity|].
    discriminate.
Qed.

Lemma xhr_body_fails (L0 : Loop) d1 d2 d3 response err :
  Loop.quiescent L0 ->
  status (Loop.view L0) <> Status.loading ->
  Js.ok response = true ->
  Js.bodyJson response = inl err ->
  let n := Loop.nextPromise L0 in
  let L := run [ClickRun; Elapse d1; FetchSettles n (Js.Fulfilled response);
                Elapse d2; BodyRead (S n); Elapse d3] L0 in
  status (Loop.view L) = Status.error /\
  exists e, e ∈ logs (Loop.view L) /\ type e = Kind.error /\
            Js.includes (Js.message err) (msg e) = true.
Proof.
  intros Q Hs Hok Hjson n.
  rewrite XhrLegacyFacts.xhr_run_cons, (XhrLegacyFacts.xhr_click_run L0 Hs).
  pose proof (XhrLegacyFacts.xhr_awaiting_runXhrFlow (activeMethod (Loop.view L0)) L0 Q) as A.
  apply (XhrLegacyFacts.xhr_awaiting_elapse _ _ _ d1) in A.
  apply (XhrLegacyFacts.xhr_awaiting_response _ _ _ response) in A;
    [|try lia; exact Hok..].
  apply (XhrLegacyFacts.xhr_awaiting_elapse _ _ _ d2) in A.
  do 3 rewrite XhrLegacyFacts.xhr_run_cons. fold n in A.
  match type of A with
  | awaiting _ _ _ ?X => generalize dependent X
  end.
  intros L2 (F & P & _). rewrite XhrLegacyFacts.xhr_run_cons. cbn [run fold_left].
  remember (handle (Elapse d3)) as tick eqn:Etick.
  cbn [handle]. rewrite (LoopFacts.take_head _ _ _ _ P). subst tick.
  unfold afterJson. rewrite Hjson.
  destruct (xhr_caught_stays _ err d3 (Loop.withPending [] L2) F)
    as [R1 R2].
  split; [exact R1|]. eexists. split; [exact R2|]. split; [reflexivity|].
  apply ErrorHandlingFacts.eh_includes_suffix.
Qed.
End XhrLegacyFailures.

Module PromisesAsyncFailures.
Import PromisesAsync.

Lemma pa_fire_grows cb now v e :
  e ∈ logs v -> e ∈ logs (fst (fire cb now v)).
Proof.
  intros H. destruct cb; cbn; settle_cases; rewrite ?elem_of_app; auto.
Qed.

(** Once the [catch] block has run the status is error and stays so
    while the rest of the narration plays. *)
Lemma pa_caught_stays bound err ms (L : Loop) :
  flying bound L ->
  let L' := handle (Elapse ms) (catch err L) in
  status (Loop.view L') = Status.error /\
  {| msg := "Error caught: " +:+ Js.message err; type := Kind.error;
     timestamp := Loop.clock L |} ∈ logs (Loop.view L').
Proof.
  intros [_ Ht]. cbn [handle]. unfold Loop.elapse, catch.
  cbn [Loop.view Loop.timers Loop.update Loop.clock Loop.uncaught].
  apply (LoopFacts.drain_view fire
           (fun v => status v = Status.error /\
                     {| msg := "Error caught: " +:+ Js.message err;
                        type := Kind.error;
                        timestamp := Loop.clock L |} ∈ logs v)).
  - eapply Forall_impl; [exact Ht|]. cbn. intros x [_ Hq] now v [H1 H2].
    split.
    + now apply (PromisesAsyncFacts.pa_quiet_status _ _ _ (fun st => st = Status.error)).
    + now apply pa_fire_grows.
  - split; [reflexivity|]. cbn. apply elem_of_app. right.
    apply list_elem_of_singleton. reflexivity.
Qed.

Lemma pa_fetch_fails (L0 : Loop) d1 d2 r :
  Loop.quiescent L0 ->
  status (Loop.view L0) <> Status.loading ->
  Failure.fetch r = true ->
  let L := run [ClickRun; Elapse d1; FetchSettles (Loop.nextPromise L0) r;
                Elapse d2] L0 in
  status (Loop.view L) = Status.error /\
  exists e, e ∈ logs (Loop.view L) /\ type e = Kind.error /\
            forall err, r = Js.Rejected err ->
                        Js.includes (Js.message err) (msg e) = true.
Proof.
  intros Q Hs Hf. rewrite PromisesAsyncFacts.pa_run_cons, (PromisesAsyncFacts.pa_click_run L0 Hs).
  pose proof (PromisesAsyncFacts.pa_awaiting_runFlow (mode (Loop.view L0)) L0 Q) as A.
  apply (PromisesAsyncFacts.pa_awaiting_elapse _ _ _ d1) in A.
  rewrite PromisesAsyncFacts.pa_run_cons.
  match type of A with
  | awaiting _ _ _ ?X => generalize dependent X
  end.
  intros L1 (F & P & _). rewrite PromisesAsyncFacts.pa_run_cons. cbn [run fold_left].
  remember (handle (Elapse d2)) as tick eqn:Etick.
  cbn [handle]. rewrite (LoopFacts.take_head _ _ _ _ P). subst tick.
  unfold afterFetch. destruct r as [err|response]; cbn in Hf.
  - destruct (pa_caught_stays _ err d2 (Loop.withPending [] L1) F)
      as [R1 R2].
    split; [exact R1|]. eexists. split; [exact R2|]. split; [reflexivity|].
    intros err' [= <-]. apply ErrorHandlingFacts.eh_includes_suffix.
  - rewrite Hf.
    match goal with
    | |- context [catch ?err ?L] =>
        destruct (pa_caught_stays _ err d2 L F) as [R1 R2]
    end.
    split; [exact R1|]. eexists. split; [exact R2|]. split; [reflexivity|].
    discriminate.
Qed.

Lemma pa_body_fails (L0 : Loop) d1 d2 d3 response err :
  Loop.quiescent L0 ->
  status (Loop.view L0) <> Status.loading ->
  Js.ok response = true ->
  Js.bodyJson response = inl err ->
  let n := Loop.nextPromise L0 in
  let L := run [ClickRun; Elapse d1; FetchSettles n (Js.Fulfilled response);
                Elapse d2; BodyRead (S n); Elapse d3] L0 in
  status (Loop.view L) = Status.error /\
  exists e, e ∈ logs (Loop.view L) /\ type e = Kind.error /\
            Js.includes (Js.message err) (msg e) = true.
Proof.
  intros Q Hs Hok Hjson n.
  rewrite PromisesAsyncFacts.pa_run_cons, (PromisesAsyncFacts.pa_click_run L0 Hs).
  pose proof (PromisesAsyncFacts.pa_awaiting_runFlow (mode (Loop.view L0)) L0 Q) as A.
  apply (PromisesAsyncFacts.pa_awaiting_elapse _ _ _ d1) in A.
  apply (PromisesAsyncFacts.pa_awaiting_response _ _ _ _ response) in A;
    [|try lia; exact Hok..].
  apply (PromisesAsyncFacts.pa_awaiting_elapse _ _ _ d2) in A.
  do 3 rewrite PromisesAsyncFacts.pa_run_cons. fold n in A.
  match type of A with
  | awaiting _ _ _ ?X => generalize dependent X
  end.
  intros L2 (F & P & _). rewrite PromisesAsyncFacts.pa_run_cons. cbn [run fold_left].
  remember (handle (Elapse d3)) as tick eqn:Etick.
  cbn [handle]. rewrite (LoopFacts.take_head _ _ _ _ P). subst tick.
  unfold afterJson. rewrite Hjson.
  destruct (pa_caught_stays _ err d3 (Loop.withPending [] L2) F)
    as [R1 R2].
  split; [exact R1|]. eexists. split; [exact R2|]. split; [reflexivity|].
  apply ErrorHandlingFacts.eh_includes_suffix.
Qed.
End PromisesAsyncFailures.

Section ImagePages.
Variable stringify : Js.Val -> string.
Variable byteSize : string -> N.
Variable kilobytes : N -> string.
Variable createObjectURL : Js.Blob -> string.
Local Abbreviation run :=
  (Demo.run stringify byteSize kilobytes createObjectURL).

Lemma image_fetch_fails (p : Demo.t) d1 d2 r :
  Demo.showsImage p = true ->
  Demo.quiescent p ->
  Demo.status p <> Status.loading ->
  Failure.fetch r = true ->
  let p' := run [ClickRun; Elapse d1; FetchSettles (Demo.nextPromise p) r;
                 Elapse d2] p in
  Demo.status p' = Status.error /\
  exists e, e ∈ Demo.logs p' /\ type e = Kind.error /\
            forall err, r = Js.Rejected err ->
                        Js.includes (Js.message err) (msg e) = true.
Proof.
  intros Hi Q Hs Hf.
  destruct p as [L|L|L| | | ]; try discriminate Hi;
    cbn [Demo.quiescent Demo.status] in Q, Hs; cbn [Demo.nextPromise];
    cbv zeta.
  - rewrite run_fetchBasics.
    exact (FetchBasicsFailures.fb_fetch_fails L d1 d2 r Q Hs Hf).
  - rewrite run_xhrLegacy.
    exact (XhrLegacyFailures.xhr_fetch_fails L d1 d2 r Q Hs Hf).
  - rewrite run_promisesAsync.
    exact (PromisesAsyncFailures.pa_fetch_fails L d1 d2 r Q Hs Hf).
Qed.

Lemma image_body_fails (p : Demo.t) d1 d2 d3 response err :
  Demo.showsImage p = true ->
  Demo.quiescent p ->
  Demo.status p <> Status.loading ->
  Js.ok response = true ->
  Js.bodyJson response = inl err ->
  let n := Demo.nextPromise p in
  let p' := run [ClickRun; Elapse d1; FetchSettles n (Js.Fulfilled response);
                 Elapse d2; BodyRead (S n); Elapse d3] p in
  Demo.status p' = Status.error /\
  exists e, e ∈ Demo.logs p' /\ type e = Kind.error /\
            Js.includes (Js.message err) (msg e) = true.
Proof.
  intros Hi Q Hs Hok Hjson.
  destruct p as [L|L|L| | | ]; try discriminate Hi;
    cbn [Demo.quiescent Demo.status] in Q, Hs; cbn [Demo.nextPromise];
    cbv zeta.
  - rewrite run_fetchBasics.
    exact (FetchBasicsFailures.fb_body_fails L d1 d2 d3 _ _ Q Hs Hok Hjson).
  - rewrite run_xhrLegacy.
    exact (XhrLegacyFailures.xhr_body_fails L d1 d2 d3 _ _ Q Hs Hok Hjson).
  - rewrite run_promisesAsync.
    exact (PromisesAsyncFailures.pa_body_fails L d1 d2 d3 _ _ Q Hs Hok Hjson).
Qed.
End ImagePages.

(** X5.  On a page which displays the fetched image, a request that
    is rejected or answered with a status outside 200..299 sets the
    status to error at once; the status is still error however long the
    rest of the narration plays, and the log holds a line of kind error,
    which for a rejected request includes the message of the error. *)
Theorem failed_request_shows_error
    (stringify : Js.Val -> string) (byteSize : string -> N)
    (kilobytes : N -> string) (createObjectURL : Js.Blob -> string)
    (p : Demo.t) (d1 d2 : N) (r : Js.Settled) :
  Demo.showsImage p = true ->
  Demo.quiescent p ->
  Demo.status p <> Status.loading ->
  Failure.fetch r = true ->
  let p' :=
    Demo.run stringify byteSize kilobytes createObjectURL
      [ClickRun; Elapse d1; FetchSettles (Demo.nextPromise p) r; Elapse d2]
      p in
  Demo.status p' = Status.error /\
  exists e, e ∈ Demo.logs p' /\ type e = Kind.error /\
            forall err, r = Js.Rejected err ->
                        Js.includes (Js.message err) (msg e) = true.
Proof.
  exact (image_fetch_fails stringify byteSize kilobytes createObjectURL
           p d1 d2 r).
Qed.

Lemma failed_request_shows_error_witness :
  let p := Sample.fetchPage in
  let r := Js.Rejected {| Js.name := "TypeError";
                          Js.message := "Failed to fetch" |} in
  (Demo.showsImage p = true /\ Demo.quiescent p /\
   Demo.status p <> Status.loading /\ Failure.fetch r = true) /\
  let p' := Sample.run [ClickRun; Elapse 700; FetchSettles 0 r; Elapse 0] p in
  Demo.status p' = Status.error /\
  exists e, e ∈ Demo.logs p' /\ type e = Kind.error /\
            forall err, r = Js.Rejected err ->
                        Js.includes (Js.message err) (msg e) = true.
Proof.
  intros p r. split.
  - repeat split; try reflexivity. discriminate.
  - apply (failed_request_shows_error Sample.stringify Sample.byteSize
             Sample.kilobytes Sample.createObjectURL p 700 0 r);
      try reflexivity; [split; reflexivity|discriminate].
Defined.

(** X6.  On a page which displays the fetched image, an ok answer
    whose body is not valid JSON sets the status to error when the
    parse fails, the status stays error afterwards, and the log holds a
    line of kind error which includes the parser's message. *)
Theorem invalid_body_shows_error
    (stringify : Js.Val -> string) (byteSize : string -> N)
    (kilobytes : N -> string) (createObjectURL : Js.Blob -> string)
    (p : Demo.t) (d1 d2 d3 : N) (response : Js.Response) (err : Js.Error) :
  Demo.showsImage p = true ->
  Demo.quiescent p ->
  Demo.status p <> Status.loading ->
  Js.ok response = true ->
  Js.bodyJson response = inl err ->
  let n := Demo.nextPromise p in
  let p' :=
    Demo.run stringify byteSize kilobytes createObjectURL
      [ClickRun; Elapse d1; FetchSettles n (Js.Fulfilled response);
       Elapse d2; BodyRead (S n); Elapse d3] p in
  Demo.status p' = Status.error /\
  exists e, e ∈ Demo.logs p' /\ type e = Kind.error /\
            Js.includes (Js.message err) (msg e) = true.
Proof.
  exact (image_body_fails stringify byteSize kilobytes createObjectURL
           p d1 d2 d3 response err).
Qed.

Lemma invalid_body_shows_error_witness :
  let p := Sample.fetchPage in
  let response := Fixture.plainText in
  let err := {| Js.name := "SyntaxError";
                Js.message := "Unexpected token m in JSON at position 0" |} in
  (Demo.showsImage p = true /\ Demo.quiescent p /\
   Demo.status p <> Status.loading /\ Js.ok response = true /\
   Js.bodyJson response = inl err) /\
  let p' := Sample.run [ClickRun; Elapse 300; FetchSettles 0 (Js.Fulfilled response);
                        Elapse 10; BodyRead 1; Elapse 5000] p in
  Demo.status p' = Status.error /\
  exists e, e ∈ Demo.logs p' /\ type e = Kind.error /\
            Js.includes (Js.message err) (msg e) = true.
Proof.
  intros p response err. split.
  - repeat split; try reflexivity. discriminate.
  - apply (invalid_body_shows_error Sample.stringify Sample.byteSize
             Sample.kilobytes Sample.createObjectURL p 300 10 5000
             response err);
      try reflexivity; [split; reflexivity|discriminate].
Defined.

(** ** The timeline of a run on the error-handling page *)

Module NarrationFacts.
Import ErrorHandling Narration.

Lemma nar_quiet_keeps cb now v :
  quiet cb ->
  status (fst (fire cb now v)) = status v /\
  userMessage (fst (fire cb now v)) = userMessage v /\
  errorDetails (fst (fire cb now v)) = errorDetails v.
Proof. destruct cb; cbn; intros H; try contradiction; repeat split. Qed.

Lemma nar_elapse bound p k ms (L : Loop) :
  waitingFor bound p k L -> waitingFor bound p k (handle (Elapse ms) L).
Proof.
  intros ((Hst & M & D & T) & P & N). split; [|now split].
  assert (K : status (Loop.view (handle (Elapse ms) L)) = Status.loading /\
              userMessage (Loop.view (handle (Elapse ms) L)) = EmptyString /\
              errorDetails (Loop.view (handle (Elapse ms) L)) = None).
  { cbn.
    apply (LoopFacts.drain_view fire
             (fun v => status v = Status.loading /\
                       userMessage v = EmptyString /\
                       errorDetails v = None)); [|auto].
    eapply Forall_impl; [exact T|]. cbn. intros x [_ Hq] now v (H1 & H2 & H3).
    destruct (nar_quiet_keeps (Loop.callback x) now v Hq) as (K1 & K2 & K3).
    repeat split; congruence. }
  destruct K as (K1 & K2 & K3). repeat split; try assumption.
  cbn. apply LoopFacts.drain_rest. eapply Forall_impl; [exact T|].
  cbn. intros x [Hd Hq]. split; [lia|exact Hq].
Qed.

Lemma nar_runRequest m sel (L0 : Loop) :
  Loop.quiescent L0 ->
  exists url,
    waitingFor 1800 (Loop.nextPromise L0) (awaitFetch m sel url)
      (runRequest m sel L0).
Proof.
  intros [Ht Hp]. unfold runRequest.
  destruct (String.eqb sel "http"), (String.eqb sel "network");
    eexists; (split; [|split]);
    try (cbn; now rewrite Hp); try reflexivity;
    (repeat split; try reflexivity; cbn; rewrite Ht;
     repeat apply LoopFacts.enqueue_Forall; cbn; repeat constructor; lia).
Qed.

(** From the [catch] block to the message: the failure is kept at
    once, shown 2600 ms later and not before. *)
Lemma nar_caught m err ms (L : Loop) :
  status (Loop.view L) = Status.loading ->
  userMessage (Loop.view L) = EmptyString ->
  Forall (fun x => (Loop.due x <= Loop.clock L + 1800)%N /\
                   quiet (Loop.callback x)) (Loop.timers L) ->
  let L' := handle (Elapse ms) (catch m err L) in
  errorDetails (Loop.view L') = Some (details err m) /\
  ((ms < 2600)%N ->
   status (Loop.view L') = Status.loading /\
   userMessage (Loop.view L') = EmptyString) /\
  ((2600 <= ms)%N ->
   status (Loop.view L') = Status.error /\
   userMessage (Loop.view L') = getUserMessage err m /\
   step (Loop.view L') = 4).
Proof.
  intros Hst M T. cbn [handle]. unfold Loop.elapse, catch.
  cbn [Loop.view Loop.timers Loop.setTimeout Loop.update Loop.clock
       Loop.nextTimer Loop.uncaught].
  fold (details err m).
  set (v := setErrorDetails (Some (details err m)) (Loop.view L)).
  set (c := {| Loop.id := Loop.nextTimer L;
               Loop.due := (Loop.clock L + 1800)%N;
               Loop.callback := caught err |}).
  set (r := {| Loop.id := S (Loop.nextTimer L);
               Loop.due := (Loop.clock L + 2600)%N;
               Loop.callback := reported err m |}).
  assert (Hc : Forall (fun x => (Loop.due x <= Loop.clock L + 1800)%N /\
                                quiet (Loop.callback x))
                 (Loop.enqueue c (Loop.timers L)))
    by (apply LoopFacts.enqueue_Forall; [cbn; split; [lia|exact I]|exact T]).
  rewrite (LoopFacts.enqueue_last r).
  2:{ eapply Forall_impl; [exact Hc|]. cbn. intros x [Hx _]. lia. }
  assert (Hk : Forall
                 (fun y => forall now v',
                    (status v' = Status.loading /\
                     userMessage v' = EmptyString /\
                     errorDetails v' = Some (details err m)) ->
                    status (fst (fire (Loop.callback y) now v')) =
                      Status.loading /\
                    userMessage (fst (fire (Loop.callback y) now v')) =
                      EmptyString /\
                    errorDetails (fst (fire (Loop.callback y) now v')) =
                      Some (details err m))
                 (Loop.enqueue c (Loop.timers L))).
  { eapply Forall_impl; [exact Hc|]. cbn. intros x [_ Hq] now v' (H1 & H2 & H3).
    destruct (nar_quiet_keeps (Loop.callback x) now v' Hq) as (K1 & K2 & K3).
    repeat split; congruence. }
  destruct (N.lt_ge_cases ms 2600) as [Hlt|Hge].
  - destruct (LoopFacts.drain_last_early fire _ (Loop.clock L + ms)
                _ r v (Loop.uncaught L) Hk) as (q & s1 & e1 & (A & B & C) & ->);
      [cbn; lia|repeat split; assumption|].
    cbn. split; [exact C|]. split; [auto|]. intros. lia.
  - destruct (LoopFacts.drain_last_due fire
                (fun v' => status v' = Status.loading /\
                           userMessage v' = EmptyString /\
                           errorDetails v' = Some (details err m))
                (Loop.clock L + ms) (Loop.enqueue c (Loop.timers L)) r
                v (Loop.uncaught L)) as (s1 & e1 & (A & B & C) & ->).
    + rewrite Forall_forall in Hc, Hk. apply Forall_forall. intros x Hx.
      split; [destruct (Hc x Hx); cbn; lia|exact (Hk x Hx)].
    + cbn. lia.
    + repeat split; assumption.
    + cbn. split; [exact C|]. split; [intros; lia|]. intros _. repeat split.
Qed.

Lemma nar_fetch_failure (L0 : Loop) d1 r :
  Loop.quiescent L0 ->
  status (Loop.view L0) <> Status.loading ->
  Failure.fetch r = true ->
  let m := mode (Loop.view L0) in
  let L1 := run [ClickRun; Elapse d1; FetchSettles (Loop.nextPromise L0) r]
              L0 in
  forall ms,
    let L2 := handle (Elapse ms) L1 in
    errorDetails (Loop.view L2) = Some (details (thrown r) m) /\
    ((ms < 2600)%N ->
     status (Loop.view L2) = Status.loading /\
     userMessage (Loop.view L2) = EmptyString) /\
    ((2600 <= ms)%N ->
     status (Loop.view L2) = Status.error /\
     userMessage (Loop.view L2) = getUserMessage (thrown r) m /\
     step (Loop.view L2) = 4).
Proof.
  intros Q Hs Hf m L1 ms. subst L1.
  rewrite ErrorHandlingFacts.eh_run_cons, (ErrorHandlingFacts.eh_click_run L0 Hs).
  fold m.
  destruct (nar_runRequest m m L0 Q) as (url & A).
  apply (nar_elapse _ _ _ d1) in A.
  rewrite ErrorHandlingFacts.eh_run_cons.
  match type of A with
  | waitingFor _ _ _ ?X => generalize dependent X
  end.
  intros L1 ((Hst & M & D & T) & P & _). cbn [run fold_left].
  remember (handle (Elapse ms)) as tick eqn:Etick.
  cbn [handle]. rewrite (LoopFacts.take_head _ _ _ _ P). subst tick.
  unfold afterFetch. destruct r as [err|response]; cbn in Hf.
  - exact (nar_caught m err ms (Loop.withPending [] L1) Hst M T).
  - rewrite Hf.
    match goal with
    | |- context [catch m ?err ?L] => exact (nar_caught m err ms L Hst M T)
    end.
Qed.

Lemma nar_fetch_ok bound p m sel url response (L : Loop) :
  waitingFor bound p (awaitFetch m sel url) L ->
  (1800 <= bound)%N ->
  Js.ok response = true ->
  String.eqb sel "parsing" = false ->
  waitingFor bound (S p) (awaitJson m response)
    (handle (FetchSettles p (Js.Fulfilled response)) L).
Proof.
  intros ((Hst & M & D & T) & P & N) Hb Hok Hsel. cbn [handle].
  rewrite (LoopFacts.take_head _ _ _ _ P). unfold afterFetch.
  rewrite Hok, Hsel. cbn [negb]. split; [|split]; cbn; try now rewrite N.
  repeat split; try assumption.
  apply LoopFacts.enqueue_Forall; [cbn; split; [lia|exact I]|exact T].
Qed.

Lemma nar_succeeded bound ms (L : Loop) :
  narrating bound L ->
  (bound <= 2400)%N ->
  let L' := handle (Elapse ms) (Loop.setTimeout succeeded 2400 L) in
  ((ms < 2400)%N ->
   status (Loop.view L') = Status.loading /\
   userMessage (Loop.view L') = EmptyString) /\
  ((2400 <= ms)%N ->
   status (Loop.view L') = Status.success /\
   userMessage (Loop.view L') =
     "Everything went well. Data loaded successfully." /\
   step (Loop.view L') = 4 /\
   errorDetails (Loop.view L') = None).
Proof.
  intros (Hst & M & D & T) Hb. cbn [handle]. unfold Loop.elapse.
  cbn [Loop.view Loop.timers Loop.setTimeout Loop.clock Loop.uncaught].
  set (x := {| Loop.id := Loop.nextTimer L;
               Loop.due := (Loop.clock L + 2400)%N;
               Loop.callback := succeeded |}).
  rewrite (LoopFacts.enqueue_last x).
  2:{ eapply Forall_impl; [exact T|]. cbn. intros y [Hy _]. lia. }
  assert (Hk : Forall
                 (fun y => forall now v',
                    (status v' = Status.loading /\
                     userMessage v' = EmptyString /\
                     errorDetails v' = None) ->
                    status (fst (fire (Loop.callback y) now v')) =
                      Status.loading /\
                    userMessage (fst (fire (Loop.callback y) now v')) =
                      EmptyString /\
                    errorDetails (fst (fire (Loop.callback y) now v')) = None)
                 (Loop.timers L)).
  { eapply Forall_impl; [exact T|]. cbn. intros y [_ Hq] now v' (H1 & H2 & H3).
    destruct (nar_quiet_keeps (Loop.callback y) now v' Hq) as (K1 & K2 & K3).
    repeat split; congruence. }
  destruct (N.lt_ge_cases ms 2400) as [Hlt|Hge].
  - destruct (LoopFacts.drain_last_early fire _ (Loop.clock L + ms)
                _ x (Loop.view L) (Loop.uncaught L) Hk)
      as (q & s1 & e1 & (A & B & C) & ->);
      [cbn; lia|repeat split; assumption|].
    cbn. split; [auto|]. intros. lia.
  - destruct (LoopFacts.drain_last_due fire
                (fun v' => status v' = Status.loading /\
                           userMessage v' = EmptyString /\
                           errorDetails v' = None)
                (Loop.clock L + ms) (Loop.timers L) x
                (Loop.view L) (Loop.uncaught L)) as (s1 & e1 & (A & B & C) & ->).
    + rewrite Forall_forall in T, Hk. apply Forall_forall. intros y Hy.
      split; [destruct (T y Hy); cbn; lia|exact (Hk y Hy)].
    + cbn. lia.
    + repeat split; assumption.
    + cbn. split; [intros; lia|]. intros _. repeat split. exact C.
Qed.

Lemma nar_success (L0 : Loop) d1 d2 ms response data :
  Loop.quiescent L0 ->
  status (Loop.view L0) <> Status.loading ->
  String.eqb (mode (Loop.view L0)) "parsing" = false ->
  Js.ok response = true ->
  Js.bodyJson response = inr data ->
  let n := Loop.nextPromise L0 in
  let L :=
    run [ClickRun; Elapse d1; FetchSettles n (Js.Fulfilled response);
         Elapse d2; BodyRead (S n); Elapse ms] L0 in
  ((ms < 2400)%N ->
   status (Loop.view L) = Status.loading /\
   userMessage (Loop.view L) = EmptyString) /\
  ((2400 <= ms)%N ->
   status (Loop.view L) = Status.success /\
   userMessage (Loop.view L) =
     "Everything went well. Data loaded successfully." /\
   step (Loop.view L) = 4 /\
   errorDetails (Loop.view L) = None).
Proof.
  intros Q Hs Hm Hok Hjson n.
  rewrite ErrorHandlingFacts.eh_run_cons, (ErrorHandlingFacts.eh_click_run L0 Hs).
  destruct (nar_runRequest (mode (Loop.view L0)) (mode (Loop.view L0)) L0 Q)
    as (url & A).
  apply (nar_elapse _ _ _ d1) in A.
  assert (A2 := nar_fetch_ok _ _ _ _ _ response _ A (N.le_refl _) Hok Hm).
  apply (nar_elapse _ _ _ d2) in A2.
  do 3 rewrite ErrorHandlingFacts.eh_run_cons. fold n in A2.
  match type of A2 with
  | waitingFor _ _ _ ?X => generalize dependent X
  end.
  intros L2 (F & P & _).
  rewrite ErrorHandlingFacts.eh_run_cons. cbn [run fold_left].
  remember (handle (Elapse ms)) as tick eqn:Etick.
  cbn [handle]. rewrite (LoopFacts.take_head _ _ _ _ P). subst tick.
  unfold afterJson. rewrite Hjson.
  apply (nar_succeeded 1800 ms (Loop.withPending [] L2) F). lia.
Qed.
End NarrationFacts.

(** X7.  On the error-handling page a request that is rejected or
    answered with a status outside 200..299 is not shown as failed at
    once: the error details are kept when the failure is caught, the
    status stays loading and the message empty for 2600 ms, and from
    then on the status is error, the step 4 and the message the one
    [getUserMessage] picks for the thrown error and the scenario. *)
Theorem failure_is_shown_after_2600
    (L0 : ErrorHandling.Loop) (d1 ms : N) (r : Js.Settled) :
  Loop.quiescent L0 ->
  ErrorHandling.status (Loop.view L0) <> Status.loading ->
  Failure.fetch r = true ->
  let m := ErrorHandling.mode (Loop.view L0) in
  let L :=
    ErrorHandling.run
      [ClickRun; Elapse d1; FetchSettles (Loop.nextPromise L0) r; Elapse ms]
      L0 in
  ErrorHandling.errorDetails (Loop.view L) =
    Some (Narration.details (Narration.thrown r) m) /\
  (ErrorHandling.status (Loop.view L) = Status.error <-> (2600 <= ms)%N) /\
  ((ms < 2600)%N ->
   ErrorHandling.status (Loop.view L) = Status.loading /\
   ErrorHandling.userMessage (Loop.view L) = EmptyString) /\
  ((2600 <= ms)%N ->
   ErrorHandling.userMessage (Loop.view L) =
     ErrorHandling.getUserMessage (Narration.thrown r) m /\
   ErrorHandling.step (Loop.view L) = 4).
Proof.
  intros Q Hs Hf m L.
  destruct (NarrationFacts.nar_fetch_failure L0 d1 r Q Hs Hf ms)
    as (D & Early & Late).
  change (ErrorHandling.errorDetails (Loop.view L) =
            Some (Narration.details (Narration.thrown r) m)) in D.
  split; [exact D|]. split; [|split].
  - split.
    + intros E. destruct (N.lt_ge_cases ms 2600) as [Hlt|Hge]; [|exact Hge].
      destruct (Early Hlt) as [E' _].
      change (ErrorHandling.status (Loop.view L) = Status.loading) in E'.
      congruence.
    + intros Hge. exact (proj1 (Late Hge)).
  - exact Early.
  - intros Hge. destruct (Late Hge) as (_ & U & St). split; assumption.
Qed.

Lemma failure_is_shown_after_2600_witness :
  let L0 := Fixture.errorPage "http" in
  let r := Js.Fulfilled Sample.notFound in
  (Loop.quiescent L0 /\
   ErrorHandling.status (Loop.view L0) <> Status.loading /\
   Failure.fetch r = true) /\
  let L := ErrorHandling.run
             [ClickRun; Elapse 120; FetchSettles 0 r; Elapse 2600] L0 in
  ErrorHandling.errorDetails (Loop.view L) =
    Some (Narration.details (Narration.thrown r) "http") /\
  (ErrorHandling.status (Loop.view L) = Status.error <-> (2600 <= 2600)%N) /\
  ((2600 < 2600)%N ->
   ErrorHandling.status (Loop.view L) = Status.loading /\
   ErrorHandling.userMessage (Loop.view L) = EmptyString) /\
  ((2600 <= 2600)%N ->
   ErrorHandling.userMessage (Loop.view L) =
     ErrorHandling.getUserMessage (Narration.thrown r) "http" /\
   ErrorHandling.step (Loop.view L) = 4).
Proof.
  intros L0 r. split.
  - repeat split; try reflexivity. discriminate.
  - apply (failure_is_shown_after_2600 L0 120 2600 r);
      [split; reflexivity|discriminate|reflexivity].
Defined.

(** X8.  On the error-handling page a run of a scenario other than
    parsing whose request is answered with an ok status and a body that
    is valid JSON shows success exactly from 2400 ms after the body was
    parsed: before that the status is loading and the message empty,
    from then on the step is 4, the success message is shown and no
    error details are kept. *)
Theorem success_is_shown_after_2400
    (L0 : ErrorHandling.Loop) (d1 d2 ms : N) (response : Js.Response)
    (data : Js.Val) :
  Loop.quiescent L0 ->
  ErrorHandling.status (Loop.view L0) <> Status.loading ->
  ErrorHandling.mode (Loop.view L0) <> "parsing" ->
  Js.ok response = true ->
  Js.bodyJson response = inr data ->
  let n := Loop.nextPromise L0 in
  let L :=
    ErrorHandling.run
      [ClickRun; Elapse d1; FetchSettles n (Js.Fulfilled response);
       Elapse d2; BodyRead (S n); Elapse ms] L0 in
  (ErrorHandling.status (Loop.view L) = Status.success <-> (2400 <= ms)%N) /\
  ((ms < 2400)%N ->
   ErrorHandling.status (Loop.view L) = Status.loading /\
   ErrorHandling.userMessage (Loop.view L) = EmptyString) /\
  ((2400 <= ms)%N ->
   ErrorHandling.userMessage (Loop.view L) =
     "Everything went well. Data loaded successfully." /\
   ErrorHandling.step (Loop.view L) = 4 /\
   ErrorHandling.errorDetails (Loop.view L) = None).
Proof.
  intros Q Hs Hm Hok Hjson n L.
  assert (Hm' : String.eqb (ErrorHandling.mode (Loop.view L0)) "parsing"
                = false)
    by (destruct (String.eqb_spec (ErrorHandling.mode (Loop.view L0))
                    "parsing"); [contradiction|reflexivity]).
  destruct (NarrationFacts.nar_success L0 d1 d2 ms response data
              Q Hs Hm' Hok Hjson) as [Early Late].
  split; [|split].
  - split.
    + intros E. destruct (N.lt_ge_cases ms 2400) as [Hlt|Hge]; [|exact Hge].
      destruct (Early Hlt) as [E' _].
      change (ErrorHandling.status (Loop.view L) = Status.loading) in E'.
      congruence.
    + intros Hge. exact (proj1 (Late Hge)).
  - exact Early.
  - intros Hge. destruct (Late Hge) as (_ & U & St & D).
    repeat split; assumption.
Qed.

Lemma success_is_shown_after_2400_witness :
  let L0 := Fixture.errorPage "success" in
  let data := Js.Arr [Js.Obj [("id", Js.Str "9j5");
                              ("url", Js.Str Sample.catUrl)]] in
  (Loop.quiescent L0 /\
   ErrorHandling.status (Loop.view L0) <> Status.loading /\
   ErrorHandling.mode (Loop.view L0) <> "parsing" /\
   Js.ok Sample.cat = true /\ Js.bodyJson Sample.cat = inr data) /\
  let L := ErrorHandling.run
             [ClickRun; Elapse 120; FetchSettles 0 (Js.Fulfilled Sample.cat);
              Elapse 3; BodyRead 1; Elapse 2399] L0 in
  (ErrorHandling.status (Loop.view L) = Status.success <-> (2400 <= 2399)%N) /\
  ((2399 < 2400)%N ->
   ErrorHandling.status (Loop.view L) = Status.loading /\
   ErrorHandling.userMessage (Loop.view L) = EmptyString) /\
  ((2400 <= 2399)%N ->
   ErrorHandling.userMessage (Loop.view L) =
     "Everything went well. Data loaded successfully." /\
   ErrorHandling.step (Loop.view L) = 4 /\
   ErrorHandling.errorDetails (Loop.view L) = None).
Proof.
  intros L0 data. split.
  - repeat split; try reflexivity; discriminate.
  - apply (success_is_shown_after_2400 L0 120 3 2399 Sample.cat data);
      [split; reflexivity|discriminate|discriminate|reflexivity|reflexivity].
Defined.

(** ** The course of an animation on the use() page *)

Module AnimationFacts.
Import UseHook Animation.

Lemma an_clearAll (L : Loop) :
  Loop.view (clearAll L) = Loop.view L /\
  Loop.clock (clearAll L) = Loop.clock L /\
  Loop.uncaught (clearAll L) = Loop.uncaught L.
Proof.
  destruct (UseHookFacts.uh_clear_ids (timeoutsRef (Loop.view L)) L)
    as (V & C & _).
  split; [exact V|]. split; [exact C|]. unfold clearAll.
  generalize (timeoutsRef (Loop.view L)). intros ids. clear V C.
  revert L. induction ids as [|i ids IH]; intros L; [reflexivity|].
  cbn. now rewrite IH.
Qed.

Lemma an_startAnimation_view path (L : Loop) :
  let L' := startAnimation path L in
  animationStep (Loop.view L') = 1 /\
  isAnimating (Loop.view L') = true /\
  selectedPath (Loop.view L') = path /\
  mounted (Loop.view L') = mounted (Loop.view L) /\
  Loop.clock L' = Loop.clock L /\
  Loop.uncaught L' = Loop.uncaught L.
Proof.
  destruct (an_clearAll L) as (V & C & U). unfold startAnimation.
  generalize dependent (clearAll L). intros X V C U.
  rewrite <- V, <- C, <- U. clear.
  destruct X as [v c ts nt ps np un]. cbn. repeat split.
Qed.

Lemma an_div k ms : (1200 * k <= ms < 1200 * (k + 1) -> ms / 1200 = k)%N.
Proof.
  intros H. symmetry. apply (N.div_unique ms 1200 k (ms - 1200 * k)); lia.
Qed.

(** The state [ms] milliseconds after a call of [startAnimation]. *)
Lemma an_course path ms (L : Loop) :
  owned L ->
  mounted (Loop.view L) = true ->
  let L' := handle (Elapse ms) (startAnimation path L) in
  animationStep (Loop.view L') = stepAfter ms /\
  isAnimating (Loop.view L') = N.ltb ms 7000 /\
  selectedPath (Loop.view L') = path.
Proof.
  intros O M.
  destruct (UseHookFacts.uh_startAnimation_timers path L O) as (T & _ & _).
  destruct (an_startAnimation_view path L) as (A & I & P & M' & C & _).
  cbv zeta in *. rewrite M in M'.
  cbn [handle]. unfold Loop.elapse. cbn [Loop.view].
  rewrite T, C. unfold scheduled.
  generalize dependent (Loop.view (startAnimation path L)).
  intros [a i sp tr mo] A I P M'. cbn in A, I, P, M'. subst a i sp mo.
  generalize (Loop.uncaught (startAnimation path L)). intros un.
  generalize (Loop.clock L) (Loop.nextTimer L). intros c nt.
  unfold stepAfter.
  cbn -[N.leb N.add N.div N.min N.ltb].
  repeat (match goal with
          | |- context [N.leb ?a ?b] => destruct (N.leb_spec a b)
          end; cbn -[N.leb N.add N.div N.min N.ltb]);
    try lia;
    (split; [|split; [|reflexivity]]);
    try (destruct (N.ltb_spec ms 7000); [reflexivity + lia|reflexivity + lia]).
  - assert (5 <= ms / 1200)%N by (apply N.div_le_lower_bound; lia). lia.
  - assert (5 <= ms / 1200)%N by (apply N.div_le_lower_bound; lia). lia.
  - rewrite (an_div 4) by lia. reflexivity.
  - rewrite (an_div 3) by lia. reflexivity.
  - rewrite (an_div 2) by lia. reflexivity.
  - rewrite (an_div 1) by lia. reflexivity.
  - rewrite (an_div 0) by lia. reflexivity.
Qed.

(** Every pending callback sets a step of the bar. *)
Lemma an_within_handle e (L : Loop) :
  owned L ->
  animationStep (Loop.view L) <= 6 ->
  Forall (fun x => within (Loop.callback x)) (Loop.timers L) ->
  animationStep (Loop.view (handle e L)) <= 6 /\
  Forall (fun x => within (Loop.callback x)) (Loop.timers (handle e L)).
Proof.
  intros O A W.
  assert (St : forall path,
            animationStep (Loop.view (startAnimation path L)) <= 6 /\
            Forall (fun x => within (Loop.callback x))
              (Loop.timers (startAnimation path L))).
  { intros path.
    destruct (UseHookFacts.uh_startAnimation_timers path L O) as (T & _ & _).
    destruct (an_startAnimation_view path L) as (A1 & _).
    cbv zeta in *. rewrite T, A1. split; [lia|].
    unfold scheduled. repeat constructor; cbn; lia. }
  destruct e; cbn [handle].
  - destruct (mounted (Loop.view L)); cbn [negb]; [|auto].
    destruct (isAnimating (Loop.view L)); auto.
  - destruct (mounted (Loop.view L)); cbn [negb]; auto.
  - split.
    + cbn. apply (LoopFacts.drain_view fire
                    (fun v => animationStep v <= 6)); [|exact A].
      eapply Forall_impl; [exact W|]. cbn. intros x Hx now v Hv.
      unfold fire. destruct (mounted v); cbn; [|exact Hv].
      destruct (Loop.callback x); cbn in *; assumption.
    + cbn. now apply LoopFacts.drain_rest.
  - destruct (mounted (Loop.view L)); cbn [negb]; [|auto].
    destruct (UseHookFacts.uh_clearAll_owned L O) as (T & V & _).
    unfold unmount. cbn. rewrite T, V. split; [exact A|constructor].
Qed.

Lemma an_within_run es (L : Loop) :
  owned L ->
  animationStep (Loop.view L) <= 6 ->
  Forall (fun x => within (Loop.callback x)) (Loop.timers L) ->
  animationStep (Loop.view (run es L)) <= 6.
Proof.
  revert L. induction es as [|e es IH]; intros L O A W; [exact A|].
  rewrite UseHookFacts.uh_run_cons.
  destruct (an_within_handle e L O A W) as [A' W'].
  apply IH; [now apply UseHookFacts.uh_owned_handle|exact A'|exact W'].
Qed.
End AnimationFacts.

(** X9.  On the use() page, [ms] milliseconds after a call of
    [startAnimation] on the mounted page the step on display is one
    more for every 1200 ms elapsed, up to six; the path buttons are
    disabled (the page is animating) during the first 7000 ms and no
    longer; and the selected path is the one asked for. *)
Theorem animation_course
    (now ms : N) (before : list UseHook.Event) (path : string) :
  let L := UseHook.run before (Loop.mount UseHook.initial now) in
  UseHook.mounted (Loop.view L) = true ->
  let L' := UseHook.handle (UseHook.Elapse ms)
              (UseHook.startAnimation path L) in
  UseHook.animationStep (Loop.view L') = Animation.stepAfter ms /\
  UseHook.isAnimating (Loop.view L') = N.ltb ms 7000 /\
  UseHook.selectedPath (Loop.view L') = path.
Proof.
  intros L M. apply AnimationFacts.an_course; [|exact M].
  apply UseHookFacts.uh_owned_run, UseHookFacts.uh_owned_mount.
Qed.

Lemma animation_course_witness :
  let L := UseHook.run [UseHook.Click "success"; UseHook.Elapse 3000]
             (Loop.mount UseHook.initial 0) in
  UseHook.mounted (Loop.view L) = true /\
  let L' := UseHook.handle (UseHook.Elapse 3700)
              (UseHook.startAnimation "error" L) in
  UseHook.animationStep (Loop.view L') = 4 /\
  UseHook.isAnimating (Loop.view L') = true /\
  UseHook.selectedPath (Loop.view L') = "error".
Proof.
  split; [reflexivity|].
  exact (animation_course 0 3700
           [UseHook.Click "success"; UseHook.Elapse 3000] "error" eq_refl).
Defined.

(** X10.  On the use() page the animation step never passes 6, the
    divisor of the progress bar, whatever is clicked and whenever:
    overlapping calls of [startAnimation] included. *)
Theorem animation_step_within_bar (now : N) (es : list UseHook.Event) :
  UseHook.animationStep
    (Loop.view (UseHook.run es (Loop.mount UseHook.initial now))) <= 6.
Proof.
  apply AnimationFacts.an_within_run.
  - apply UseHookFacts.uh_owned_mount.
  - cbn. lia.
  - constructor.
Qed.

(** ** The parsing page *)

Section ParsingFacts.
Variable stringify : Js.Val -> string.
Variable byteSize : string -> N.
Variable kilobytes : N -> string.
Variable createObjectURL : Js.Blob -> string.
Local Abbreviation handle :=
  (ResponseParsing.handle stringify byteSize kilobytes createObjectURL).
Local Abbreviation run :=
  (ResponseParsing.run stringify byteSize kilobytes createObjectURL).

Lemma rp_run_cons e es (L : ResponseParsing.Loop) :
  run (e :: es) L = run es (handle e L).
Proof. reflexivity. Qed.

Lemma rp_click_run (L : ResponseParsing.Loop) :
  ResponseParsing.status (Loop.view L) <> Status.loading ->
  handle ClickRun L =
  ResponseParsing.runParse (ResponseParsing.mode (Loop.view L)) L.
Proof.
  intros H. cbn [ResponseParsing.handle].
  destruct (ResponseParsing.status (Loop.view L)); try reflexivity.
  congruence.
Qed.

Lemma rp_waiting_runParse m (L0 : ResponseParsing.Loop) :
  Loop.quiescent L0 ->
  Parsing.waiting 1800 (Loop.nextPromise L0) (ResponseParsing.awaitFetch m)
    (ResponseParsing.runParse m L0).
Proof.
  intros [Ht Hp]. split; [|split].
  - cbn. rewrite Ht. repeat constructor. cbn. lia.
  - cbn. now rewrite Hp.
  - reflexivity.
Qed.

Lemma rp_waiting_elapse bound p k ms (L : ResponseParsing.Loop) :
  Parsing.waiting bound p k L ->
  Parsing.waiting bound p k (handle (Elapse ms) L).
Proof.
  intros (B & P & N). split; [|now split].
  cbn. apply LoopFacts.drain_rest. eapply Forall_impl; [exact B|].
  cbn. intros x Hx. lia.
Qed.

(** After an ok answer the run waits for the body, in the way the
    selected mode asks for. *)
Lemma rp_waiting_body bound p m response (L : ResponseParsing.Loop) :
  Parsing.waiting bound p (ResponseParsing.awaitFetch m) L ->
  (1800 <= bound)%N ->
  Js.ok response = true ->
  Parsing.waiting bound (S p)
    (if String.eqb m "json" then ResponseParsing.awaitJson response
     else if String.eqb m "text" then ResponseParsing.awaitText response
     else ResponseParsing.awaitBlobJson response)
    (handle (FetchSettles p (Js.Fulfilled response)) L).
Proof.
  intros (B & P & N) Hb Hok. cbn [ResponseParsing.handle].
  rewrite (LoopFacts.take_head _ _ _ _ P). unfold ResponseParsing.afterFetch.
  rewrite Hok. cbn [negb].
  assert (T : Forall (fun x => (Loop.due x <= Loop.clock L + bound)%N)
                (Loop.enqueue
                   {| Loop.id := S (Loop.nextTimer L);
                      Loop.due := (Loop.clock L + 1800)%N;
                      Loop.callback := ResponseParsing.calling m |}
                   (Loop.enqueue
                      {| Loop.id := Loop.nextTimer L;
                         Loop.due := (Loop.clock L + 1000)%N;
                         Loop.callback := ResponseParsing.received response |}
                      (Loop.timers L))))
    by (repeat apply LoopFacts.enqueue_Forall; cbn; try lia; exact B).
  destruct (String.eqb m "json"); [|destruct (String.eqb m "text")];
    (split; [exact T|split; cbn; now rewrite N]).
Qed.

Lemma rp_no_url (L0 : ResponseParsing.Loop) d1 d2 response data :
  Loop.quiescent L0 ->
  ResponseParsing.status (Loop.view L0) <> Status.loading ->
  String.eqb (ResponseParsing.mode (Loop.view L0)) "json" = false ->
  String.eqb (ResponseParsing.mode (Loop.view L0)) "text" = false ->
  Js.ok response = true ->
  Js.bodyJson response = inr data ->
  Parsing.noUrl data ->
  let n := Loop.nextPromise L0 in
  let L := run [ClickRun; Elapse d1; FetchSettles n (Js.Fulfilled response);
                Elapse d2; BodyRead (S n)] L0 in
  ResponseParsing.status (Loop.view L) = Status.error /\
  Loop.pending L = [] /\
  exists e, last (ResponseParsing.logs (Loop.view L)) = Some e /\
            type e = Kind.error /\
            forall url, ResponseParsing.firstUrl data = inr url ->
                        msg e = "Error: No image URL in response".
Proof.
  intros Q Hs Hj Ht Hok Hjson Hno n.
  rewrite rp_run_cons, (rp_click_run L0 Hs).
  pose proof (rp_waiting_runParse (ResponseParsing.mode (Loop.view L0)) L0 Q)
    as A.
  apply (rp_waiting_elapse _ _ _ d1) in A.
  assert (A2 := rp_waiting_body _ _ _ response _ A (N.le_refl _) Hok).
  rewrite Hj, Ht in A2. apply (rp_waiting_elapse _ _ _ d2) in A2.
  do 3 rewrite rp_run_cons. fold n in A2.
  match type of A2 with
  | Parsing.waiting _ _ _ ?X => generalize dependent X
  end.
  intros L2 (_ & P & _). cbn [ResponseParsing.run fold_left].
  cbn [ResponseParsing.handle]. rewrite (LoopFacts.take_head _ _ _ _ P).
  unfold ResponseParsing.afterBlobJson. rewrite Hjson.
  unfold Parsing.noUrl in Hno.
  destruct (ResponseParsing.firstUrl data) as [err|url].
  - cbn. repeat split. eexists. split; [apply last_snoc|].
    split; [reflexivity|discriminate].
  - rewrite Hno. cbn. repeat split. eexists. split; [apply last_snoc|].
    split; reflexivity.
Qed.

Lemma rp_fire_dataSize cb now v :
  ResponseParsing.dataSize (fst (ResponseParsing.fire cb now v)) =
  ResponseParsing.dataSize v.
Proof. destruct cb; reflexivity. Qed.

Lemma rp_text (L0 : ResponseParsing.Loop) d1 d2 ms response :
  Loop.quiescent L0 ->
  ResponseParsing.status (Loop.view L0) <> Status.loading ->
  ResponseParsing.mode (Loop.view L0) = "text" ->
  Js.ok response = true ->
  (2400 <= ms)%N ->
  let n := Loop.nextPromise L0 in
  let L := run [ClickRun; Elapse d1; FetchSettles n (Js.Fulfilled response);
                Elapse d2; BodyRead (S n); Elapse ms] L0 in
  ResponseParsing.status (Loop.view L) = Status.success /\
  ResponseParsing.step (Loop.view L) = 4 /\
  ResponseParsing.rawPreview (Loop.view L) = Js.bodyText response /\
  ResponseParsing.dataSize (Loop.view L) =
    Some (byteSize (Js.bodyText response)) /\
  Loop.timers L = [] /\ Loop.pending L = [].
Proof.
  intros Q Hs Hm Hok Hms n.
  rewrite rp_run_cons, (rp_click_run L0 Hs), Hm.
  pose proof (rp_waiting_runParse "text" L0 Q) as A.
  apply (rp_waiting_elapse _ _ _ d1) in A.
  assert (A2 := rp_waiting_body _ _ _ response _ A (N.le_refl _) Hok).
  cbn [String.eqb Ascii.eqb Bool.eqb] in A2.
  apply (rp_waiting_elapse _ _ _ d2) in A2.
  do 3 rewrite rp_run_cons. fold n in A2.
  match type of A2 with
  | Parsing.waiting _ _ _ ?X => generalize dependent X
  end.
  intros L2 (B & P & _). rewrite rp_run_cons.
  cbn [ResponseParsing.run fold_left].
  remember (handle (Elapse ms)) as tick eqn:Etick.
  cbn [ResponseParsing.handle]. rewrite (LoopFacts.take_head _ _ _ _ P).
  subst tick. unfold ResponseParsing.afterText.
  cbn [ResponseParsing.handle]. unfold Loop.elapse.
  cbn [Loop.view Loop.timers Loop.setTimeout Loop.update Loop.clock
       Loop.nextTimer Loop.uncaught Loop.withPending Loop.pending].
  rewrite LoopFacts.enqueue_last.
  2:{ eapply Forall_impl; [exact B|]. cbn. intros x Hx. lia. }
  match goal with
  | |- context [Loop.drain _ ?d (?q ++ [?x]) ?v ?u] =>
      destruct (LoopFacts.drain_last_due ResponseParsing.fire
                  (fun v' => ResponseParsing.dataSize v' =
                             Some (byteSize (Js.bodyText response)))
                  d q x v u) as (s1 & e1 & D & ->)
  end.
  - eapply Forall_impl; [exact B|]. cbn. intros x Hx. split; [lia|].
    intros now v' Hv. now rewrite rp_fire_dataSize.
  - cbn. lia.
  - reflexivity.
  - cbn. repeat split. exact D.
Qed.
End ParsingFacts.

(** X11.  On the parsing page in blob mode, an ok answer whose JSON
    body has no usable [data[0]?.url] (an empty list, a first element
    without [url], an empty [url]) ends the run as an error: the status
    is error, the last log line is of kind error, no request for an
    image is under way, and where [data[0]?.url] could be read the line
    says that the response holds no image URL. *)
Theorem missing_url_is_reported
    (stringify : Js.Val -> string) (byteSize : string -> N)
    (kilobytes : N -> string) (createObjectURL : Js.Blob -> string)
    (L0 : ResponseParsing.Loop) (d1 d2 : N) (response : Js.Response)
    (data : Js.Val) :
  Loop.quiescent L0 ->
  ResponseParsing.status (Loop.view L0) <> Status.loading ->
  String.eqb (ResponseParsing.mode (Loop.view L0)) "json" = false ->
  String.eqb (ResponseParsing.mode (Loop.view L0)) "text" = false ->
  Js.ok response = true ->
  Js.bodyJson response = inr data ->
  Parsing.noUrl data ->
  let n := Loop.nextPromise L0 in
  let L :=
    ResponseParsing.run stringify byteSize kilobytes createObjectURL
      [ClickRun; Elapse d1; FetchSettles n (Js.Fulfilled response);
       Elapse d2; BodyRead (S n)] L0 in
  ResponseParsing.status (Loop.view L) = Status.error /\
  Loop.pending L = [] /\
  exists e, last (ResponseParsing.logs (Loop.view L)) = Some e /\
            type e = Kind.error /\
            forall url, ResponseParsing.firstUrl data = inr url ->
                        msg e = "Error: No image URL in response".
Proof.
  exact (rp_no_url stringify byteSize kilobytes createObjectURL
           L0 d1 d2 response data).
Qed.

Lemma missing_url_is_reported_witness :
  let L0 := Fixture.parsingPage "blob" in
  let data := Js.Arr [] in
  (Loop.quiescent L0 /\
   ResponseParsing.status (Loop.view L0) <> Status.loading /\
   String.eqb (ResponseParsing.mode (Loop.view L0)) "json" = false /\
   String.eqb (ResponseParsing.mode (Loop.view L0)) "text" = false /\
   Js.ok Sample.noCat = true /\ Js.bodyJson Sample.noCat = inr data /\
   Parsing.noUrl data) /\
  let L :=
    ResponseParsing.run Sample.stringify Sample.byteSize Sample.kilobytes
      Sample.createObjectURL
      [ClickRun; Elapse 90; FetchSettles 0 (Js.Fulfilled Sample.noCat);
       Elapse 2; BodyRead 1] L0 in
  ResponseParsing.status (Loop.view L) = Status.error /\
  Loop.pending L = [] /\
  exists e, last (ResponseParsing.logs (Loop.view L)) = Some e /\
            type e = Kind.error /\
            forall url, ResponseParsing.firstUrl data = inr url ->
                        msg e = "Error: No image URL in response".
Proof.
  intros L0 data. split.
  - repeat split; try reflexivity. discriminate.
  - apply (missing_url_is_reported Sample.stringify Sample.byteSize
             Sample.kilobytes Sample.createObjectURL L0 90 2 Sample.noCat
             data);
      try reflexivity; [split; reflexivity|discriminate].
Defined.

(** X12.  On the parsing page in text mode the body of an ok answer is
    never parsed: whether or not it is valid JSON, 2400 ms after the
    text was read the status is success, the step 4, the preview the
    text itself and the data size the byte size of the text, with no
    timer and no request left. *)
Theorem text_is_shown_unparsed
    (stringify : Js.Val -> string) (byteSize : string -> N)
    (kilobytes : N -> string) (createObjectURL : Js.Blob -> string)
    (L0 : ResponseParsing.Loop) (d1 d2 ms : N) (response : Js.Response) :
  Loop.quiescent L0 ->
  ResponseParsing.status (Loop.view L0) <> Status.loading ->
  ResponseParsing.mode (Loop.view L0) = "text" ->
  Js.ok response = true ->
  (2400 <= ms)%N ->
  let n := Loop.nextPromise L0 in
  let L :=
    ResponseParsing.run stringify byteSize kilobytes createObjectURL
      [ClickRun; Elapse d1; FetchSettles n (Js.Fulfilled response);
       Elapse d2; BodyRead (S n); Elapse ms] L0 in
  ResponseParsing.status (Loop.view L) = Status.success /\
  ResponseParsing.step (Loop.view L) = 4 /\
  ResponseParsing.rawPreview (Loop.view L) = Js.bodyText response /\
  ResponseParsing.dataSize (Loop.view L) =
    Some (byteSize (Js.bodyText response)) /\
  Loop.timers L = [] /\ Loop.pending L = [].
Proof.
  exact (rp_text stringify byteSize kilobytes createObjectURL
           L0 d1 d2 ms response).
Qed.

Lemma text_is_shown_unparsed_witness :
  let L0 := Fixture.parsingPage "text" in
  let response := Fixture.plainText in
  (Loop.quiescent L0 /\
   ResponseParsing.status (Loop.view L0) <> Status.loading /\
   ResponseParsing.mode (Loop.view L0) = "text" /\
   Js.ok response = true /\ (2400 <= 2400)%N) /\
  let L :=
    ResponseParsing.run Sample.stringify Sample.byteSize Sample.kilobytes
      Sample.createObjectURL
      [ClickRun; Elapse 90; FetchSettles 0 (Js.Fulfilled response);
       Elapse 2; BodyRead 1; Elapse 2400] L0 in
  ResponseParsing.status (Loop.view L) = Status.success /\
  ResponseParsing.step (Loop.view L) = 4 /\
  ResponseParsing.rawPreview (Loop.view L) = Js.bodyText response /\
  ResponseParsing.dataSize (Loop.view L) =
    Some (Sample.byteSize (Js.bodyText response)) /\
  Loop.timers L = [] /\ Loop.pending L = [].
Proof.
  intros L0 response. split.
  - repeat split; try reflexivity; try discriminate; lia.
  - apply (text_is_shown_unparsed Sample.stringify Sample.byteSize
             Sample.kilobytes Sample.createObjectURL L0 90 2 2400 response);
      try reflexivity; try discriminate; try lia; split; reflexivity.
Defined.

(** ** The animation cycle of the comparison page *)

Module ComparisonFacts.
Import Comparison.

Lemma cmp_clear_owned (L : Loop) i :
  owned L -> animationTimeoutRef (Loop.view L) = Some (S i) ->
  Loop.timers (Loop.clearTimeout (S i) L) = [].
Proof.
  unfold owned. intros O E. cbn. rewrite E in O.
  induction O as [|x q [Hx _] _ IH]; [reflexivity|].
  rewrite filter_cons. destruct (decide (Loop.id x <> S i)) as [n|_].
  - exfalso. apply n. congruence.
  - exact IH.
Qed.

Lemma cmp_owned_none (L : Loop) :
  owned L ->
  match animationTimeoutRef (Loop.view L) with
  | Some (S _) => True
  | _ => Loop.timers L = []
  end.
Proof.
  unfold owned. intros O.
  destruct (animationTimeoutRef (Loop.view L)) as [[|i]|]; [| exact I |];
    (destruct O as [|x q [Hx Hp] _]; [reflexivity|];
     exfalso; inversion Hx; lia).
Qed.

Lemma cmp_stop (L : Loop) :
  owned L ->
  stopAnimationCycle L =
  {| Loop.view :=
       {| catImage := if Js.truthy (pendingImageRef (Loop.view L))
                      then pendingImageRef (Loop.view L)
                      else catImage (Loop.view L);
          loading := loading (Loop.view L);
          isAnimating := false;
          animationKey := animationKey (Loop.view L);
          showResult := true;
          pendingImageRef := pendingImageRef (Loop.view L);
          animationTimeoutRef :=
            match animationTimeoutRef (Loop.view L) with
            | Some (S _) => None
            | r => r
            end |};
     Loop.clock := Loop.clock L; Loop.timers := [];
     Loop.nextTimer := Loop.nextTimer L; Loop.pending := Loop.pending L;
     Loop.nextPromise := Loop.nextPromise L;
     Loop.uncaught := Loop.uncaught L |}.
Proof.
  intros O. pose proof (cmp_owned_none L O) as N.
  pose proof (cmp_clear_owned L) as C.
  unfold stopAnimationCycle.
  destruct (animationTimeoutRef (Loop.view L)) as [[|i]|] eqn:E;
    [|specialize (C i O eq_refl)|];
    destruct L as [v c q nt pd np u];
    cbv [Loop.update Loop.clearTimeout Loop.view Loop.timers] in *;
    cbn [Loop.view Loop.clock Loop.timers Loop.nextTimer Loop.pending
         Loop.nextPromise Loop.uncaught] in *;
    rewrite ?C; subst;
    destruct v as [ci ld an key sr pr ref]; cbn in *; subst ref;
    destruct (Js.truthy pr); reflexivity.
Qed.

Lemma cmp_start (L : Loop) :
  owned L ->
  startAnimationCycle L =
  {| Loop.view :=
       {| catImage := Js.Null;
          loading := loading (Loop.view L);
          isAnimating := true;
          animationKey := animationKey (Loop.view L) + 1;
          showResult := false;
          pendingImageRef := pendingImageRef (Loop.view L);
          animationTimeoutRef := Some (Loop.nextTimer L) |};
     Loop.clock := Loop.clock L;
     Loop.timers := [{| Loop.id := Loop.nextTimer L;
                        Loop.due := (Loop.clock L + 6300)%N;
                        Loop.callback := endOfCycle |}];
     Loop.nextTimer := S (Loop.nextTimer L); Loop.pending := Loop.pending L;
     Loop.nextPromise := Loop.nextPromise L;
     Loop.uncaught := Loop.uncaught L |}.
Proof.
  intros O. pose proof (cmp_owned_none L O) as N.
  pose proof (cmp_clear_owned L) as C.
  unfold startAnimationCycle.
  destruct (animationTimeoutRef (Loop.view L)) as [[|i]|] eqn:E;
    [|specialize (C i O eq_refl)|];
    destruct L as [v c q nt pd np u];
    cbv [Loop.update Loop.clearTimeout Loop.setTimeout Loop.view Loop.timers
         Loop.nextTimer Loop.clock] in *;
    cbn [Loop.view Loop.clock Loop.timers Loop.nextTimer Loop.pending
         Loop.nextPromise Loop.uncaught] in *;
    rewrite ?C; subst;
    destruct v as [ci ld an key sr pr ref]; reflexivity.
Qed.

Lemma cmp_steady_owned (L : Loop) : steady L -> owned L.
Proof.
  intros [_ [(T & _)|(due & i & T & R & _)]]; unfold owned; rewrite T.
  - constructor.
  - constructor; [|constructor]. cbn. split; [exact R|lia].
Qed.

Lemma cmp_stop_resting (L : Loop) :
  owned L -> animationTimeoutRef (Loop.view L) <> Some 0 ->
  resting (stopAnimationCycle L).
Proof.
  intros O Z. rewrite (cmp_stop L O). unfold resting. cbn.
  destruct (animationTimeoutRef (Loop.view L)) as [[|i]|];
    [contradiction| |]; repeat split.
Qed.

Lemma cmp_elapse_resting (L : Loop) ms :
  Loop.timers L = [] -> elapse ms L = advance ms L.
Proof. intros T. unfold elapse. rewrite T. reflexivity. Qed.

Lemma cmp_elapse_playing (L : Loop) ms i due :
  Loop.timers L = [{| Loop.id := i; Loop.due := due;
                      Loop.callback := endOfCycle |}] ->
  elapse ms L =
  advance ms (if N.leb due (Loop.clock L + ms)
              then stopAnimationCycle (withTimers [] L) else L).
Proof.
  intros T. unfold elapse. rewrite T. cbn [List.length drain].
  rewrite T. cbn [Loop.due Loop.callback].
  destruct (N.leb due (Loop.clock L + ms)); reflexivity.
Qed.

Lemma cmp_click (L : Loop) :
  steady L -> guarded L -> loading (Loop.view L) = false ->
  handle ClickRun L =
  {| Loop.view :=
       {| catImage := Js.Null; loading := true; isAnimating := true;
          animationKey := animationKey (Loop.view L) + 1;
          showResult := false; pendingImageRef := Js.Null;
          animationTimeoutRef := Some (Loop.nextTimer L) |};
     Loop.clock := Loop.clock L;
     Loop.timers := [{| Loop.id := Loop.nextTimer L;
                        Loop.due := (Loop.clock L + 6300)%N;
                        Loop.callback := endOfCycle |}];
     Loop.nextTimer := S (Loop.nextTimer L);
     Loop.pending := [(Loop.nextPromise L, awaitFetch)];
     Loop.nextPromise := S (Loop.nextPromise L);
     Loop.uncaught := Loop.uncaught L |}.
Proof.
  intros St G Hl. cbn [handle]. rewrite Hl. unfold handleNativeFetch.
  assert (P : Loop.pending L = []).
  { destruct G as [[_ P]|[E _]]; [exact P|congruence]. }
  rewrite cmp_start.
  - destruct L as [v c q nt pd np u]. cbn in P. subst pd. reflexivity.
  - apply cmp_steady_owned in St. exact St.
Qed.

Lemma cmp_take (L : Loop) p :
  guarded L ->
  Loop.take p L = None \/
  exists k, Loop.take p L = Some (k, Loop.withPending [] L) /\
            Loop.pending L = [(p, k)] /\ loading (Loop.view L) = true.
Proof.
  intros [[_ P]|[Hl (q & k & P)]]; unfold Loop.take; rewrite P; cbn.
  - left. reflexivity.
  - destruct (Nat.eqb_spec q p) as [->|_]; [right|left; reflexivity].
    exists k. auto.
Qed.

Lemma cmp_catch (L : Loop) e :
  steady L -> Loop.pending L = [] ->
  steady (catch e L) /\ guarded (catch e L).
Proof.
  intros St P. unfold catch.
  pose proof (cmp_steady_owned L St) as O.
  assert (Z : animationTimeoutRef (Loop.view L) <> Some 0).
  { destruct St as [_ [(_ & R & _)|(d & i & _ & R & _)]]; rewrite R;
      discriminate. }
  pose proof (cmp_stop_resting L O Z) as R.
  rewrite (cmp_stop L O) in *. split.
  - split; [exact (proj1 St)|]. left. exact R.
  - left. split; [reflexivity|exact P].
Qed.

Lemma cmp_handle (e : Event) (L : Loop) :
  steady L /\ guarded L -> steady (handle e L) /\ guarded (handle e L).
Proof.
  intros [St G]. destruct e as [|ms|p r|p].
  - destruct (loading (Loop.view L)) eqn:Hl.
    + cbn [handle]. rewrite Hl. split; assumption.
    + rewrite (cmp_click L St G Hl). destruct St as [Hn _]. split.
      * split; [cbn; lia|]. right. exists (Loop.clock L + 6300)%N.
        destruct (Loop.nextTimer L) as [|i]; [lia|].
        exists i. repeat split. cbn. lia.
      * right. split; [reflexivity|]. eauto.
  - cbn [handle]. destruct St as [Hn [R|(due & i & T & R)]].
    + rewrite (cmp_elapse_resting L ms (proj1 R)).
      split; [split; [exact Hn|left; exact R]|exact G].
    + rewrite (cmp_elapse_playing L ms _ _ T).
      destruct (N.leb_spec due (Loop.clock L + ms)) as [Hd|Hd].
      * assert (O : owned (withTimers [] L)) by constructor.
        assert (Z : animationTimeoutRef (Loop.view (withTimers [] L))
                    <> Some 0)
          by (cbn; rewrite (proj1 R); discriminate).
        pose proof (cmp_stop_resting _ O Z) as R'.
        rewrite (cmp_stop _ O) in *. split.
        -- split; [exact Hn|left; exact R'].
        -- exact G.
      * split; [|exact G]. split; [exact Hn|].
        right. exists due, i. split; [exact T|].
        destruct R as (R1 & R2 & R3 & R4 & _). repeat split; assumption.
  - cbn [handle]. destruct (cmp_take L p G) as [->|(k & -> & P & Hl)];
      [split; assumption|].
    destruct k; [|split; assumption].
    unfold afterFetch.
    destruct r as [err|response];
      [|destruct (negb (Js.ok response))];
      try (apply cmp_catch; [exact St|reflexivity]).
    split; [exact St|]. right. split; [exact Hl|]. cbn. eauto.
  - cbn [handle]. destruct (cmp_take L p G) as [->|(k & -> & P & Hl)];
      [split; assumption|].
    destruct k; [split; assumption|].
    unfold afterJson.
    destruct (Js.bodyJson response) as [err|data];
      [|destruct (firstUrl data) as [err|url]];
      try (apply cmp_catch; [exact St|reflexivity]).
    split.
    + destruct St as [Hn [R|(due & i & R)]]; split; try exact Hn;
        [left|right; exists due, i]; exact R.
    + left. split; reflexivity.
Qed.

Lemma cmp_mount now :
  steady (Loop.mount initial now) /\ guarded (Loop.mount initial now).
Proof.
  split.
  - split; [cbn; lia|]. left. repeat split.
  - left. split; reflexivity.
Qed.

Lemma cmp_run (es : list Event) (L : Loop) :
  steady L /\ guarded L -> steady (run es L) /\ guarded (run es L).
Proof.
  revert L. induction es as [|e es IH]; intros L H; [exact H|].
  cbn. apply IH, cmp_handle, H.
Qed.

Lemma cmp_run_cons e es (L : Loop) : run (e :: es) L = run es (handle e L).
Proof. reflexivity. Qed.

Lemma cmp_fetch_settles (L : Loop) p r :
  Loop.pending L = [(p, awaitFetch)] ->
  handle (FetchSettles p r) L = afterFetch r (Loop.withPending [] L).
Proof.
  intros P. cbn [handle]. unfold Loop.take. rewrite P. cbn.
  now rewrite Nat.eqb_refl.
Qed.

Lemma cmp_body_read (L : Loop) p response :
  Loop.pending L = [(p, awaitJson response)] ->
  handle (BodyRead p) L = afterJson response (Loop.withPending [] L).
Proof.
  intros P. cbn [handle]. unfold Loop.take. rewrite P. cbn.
  now rewrite Nat.eqb_refl.
Qed.

Ltac cmp_norm :=
  cbv [advance withTimers Loop.update Loop.await Loop.withPending
       setCatImage setLoading setIsAnimating setAnimationKey setShowResult
       setPendingImageRef setAnimationTimeoutRef app];
  cbn [Loop.view Loop.clock Loop.timers Loop.nextTimer Loop.pending
       Loop.nextPromise Loop.uncaught
       catImage loading isAnimating animationKey showResult pendingImageRef
       animationTimeoutRef Js.truthy].

Ltac cmp_owned :=
  first [ constructor; fail
        | constructor; [cbn; split; [reflexivity|lia]|constructor] ].

(** One event of a run on a state which is written out. *)
Ltac cmp_step :=
  rewrite cmp_run_cons;
  lazymatch goal with
  | |- context [handle (Elapse ?ms) ?L] =>
      change (handle (Elapse ms) L) with (elapse ms L);
      first
        [ rewrite (cmp_elapse_resting L ms eq_refl)
        | rewrite (cmp_elapse_playing L ms _ _ eq_refl);
          cbn [Loop.clock];
          match goal with
          | |- context [N.leb ?a ?b] => destruct (N.leb_spec a b)
          end;
          [rewrite cmp_stop by cmp_owned|] ]
  | |- context [handle (FetchSettles ?p ?r) ?L] =>
      rewrite (cmp_fetch_settles L p r eq_refl)
  | |- context [handle (BodyRead ?p) ?L] =>
      rewrite (cmp_body_read L p _ eq_refl)
  end;
  cmp_norm.

(** From a clicked page on, the fields the run does not constrain are
    variables. *)
Lemma cmp_started (before : list Event) now :
  let L0 := run before (Loop.mount initial now) in
  loading (Loop.view L0) = false ->
  exists i,
    Loop.nextTimer L0 = S i /\
    handle ClickRun L0 =
    {| Loop.view :=
         {| catImage := Js.Null; loading := true; isAnimating := true;
            animationKey := animationKey (Loop.view L0) + 1;
            showResult := false; pendingImageRef := Js.Null;
            animationTimeoutRef := Some (S i) |};
       Loop.clock := Loop.clock L0;
       Loop.timers := [{| Loop.id := S i;
                          Loop.due := (Loop.clock L0 + 6300)%N;
                          Loop.callback := endOfCycle |}];
       Loop.nextTimer := S (S i);
       Loop.pending := [(Loop.nextPromise L0, awaitFetch)];
       Loop.nextPromise := S (Loop.nextPromise L0);
       Loop.uncaught := Loop.uncaught L0 |}.
Proof.
  intros L0 Hl.
  destruct (cmp_run before _ (cmp_mount now)) as [St G]. fold L0 in St, G.
  rewrite (cmp_click L0 St G Hl). destruct St as [Hn _].
  destruct (Loop.nextTimer L0) as [|i]; [lia|]. eauto.
Qed.

Lemma cmp_fetch_fails (before : list Event) now d1 ms r :
  let L0 := run before (Loop.mount initial now) in
  loading (Loop.view L0) = false ->
  Failure.fetch r = true ->
  let L := run [ClickRun; Elapse d1; FetchSettles (Loop.nextPromise L0) r;
                Elapse ms] L0 in
  isAnimating (Loop.view L) = false /\
  showResult (Loop.view L) = true /\
  loading (Loop.view L) = false /\
  displayed (Loop.view L) = None /\
  Loop.timers L = [] /\ Loop.pending L = [].
Proof.
  intros L0 Hl Hf. destruct (cmp_started before now Hl) as (i & _ & E).
  fold L0 in E. rewrite cmp_run_cons, E. clear E.
  assert (C : forall L, exists e, afterFetch r L = catch e L).
  { intros L. unfold afterFetch. destruct r as [e|response]; [eauto|].
    cbn in Hf. rewrite Hf. eauto. }
  generalize (Loop.clock L0), (animationKey (Loop.view L0)),
    (Loop.nextPromise L0), (Loop.uncaught L0). clear - C.
  intros c key n u. cmp_step; cmp_step;
    match goal with
    | |- context [afterFetch r ?L] => destruct (C L) as [e ->]
    end;
    unfold catch; rewrite cmp_stop by (cmp_norm; cmp_owned);
    cmp_norm; cmp_step; repeat split.
Qed.

Lemma cmp_body_fails (before : list Event) now d1 d2 ms response :
  let L0 := run before (Loop.mount initial now) in
  loading (Loop.view L0) = false ->
  Js.ok response = true ->
  unusable response ->
  let n := Loop.nextPromise L0 in
  let L := run [ClickRun; Elapse d1; FetchSettles n (Js.Fulfilled response);
                Elapse d2; BodyRead (S n); Elapse ms] L0 in
  isAnimating (Loop.view L) = false /\
  showResult (Loop.view L) = true /\
  loading (Loop.view L) = false /\
  displayed (Loop.view L) = None /\
  Loop.timers L = [] /\ Loop.pending L = [].
Proof.
  intros L0 Hl Hok Hu. destruct (cmp_started before now Hl) as (i & _ & E).
  fold L0 in E. cbv zeta. rewrite cmp_run_cons, E. clear E.
  assert (C : forall L, exists e, afterJson response L = catch e L).
  { intros L. unfold afterJson. unfold unusable in Hu.
    destruct (Js.bodyJson response) as [e|data]; [eauto|].
    destruct (firstUrl data) as [e|url]; [eauto|contradiction]. }
  assert (F : forall L, afterFetch (Js.Fulfilled response) L =
                        Loop.await (awaitJson response) L).
  { intros L. unfold afterFetch. rewrite Hok. reflexivity. }
  generalize (Loop.clock L0), (animationKey (Loop.view L0)),
    (Loop.nextPromise L0), (Loop.uncaught L0). clear - C F.
  intros c key n u.
  cmp_step; cmp_step; rewrite F; cmp_norm; cmp_step; cmp_step;
    match goal with
    | |- context [afterJson response ?L] => destruct (C L) as [e ->]
    end;
    unfold catch; rewrite cmp_stop by (cmp_norm; cmp_owned);
    cmp_norm; cmp_step; repeat split.
Qed.

Lemma cmp_displayed (before : list Event) now d1 d2 ms response data url :
  let L0 := run before (Loop.mount initial now) in
  loading (Loop.view L0) = false ->
  Js.ok response = true ->
  Js.bodyJson response = inr data ->
  firstUrl data = inr url ->
  let n := Loop.nextPromise L0 in
  let L := run [ClickRun; Elapse d1; FetchSettles n (Js.Fulfilled response);
                Elapse d2; BodyRead (S n); Elapse ms] L0 in
  loading (Loop.view L) = false /\
  isAnimating (Loop.view L) = N.ltb (d1 + d2 + ms) 6300 /\
  displayed (Loop.view L) =
    (if N.ltb (d1 + d2) 6300 && N.leb 6300 (d1 + d2 + ms) && Js.truthy url
     then Some url else None) /\
  Loop.pending L = [].
Proof.
  intros L0 Hl Hok Hj Hu. destruct (cmp_started before now Hl) as (i & _ & E).
  fold L0 in E. cbv zeta. rewrite cmp_run_cons, E. clear E.
  assert (C : forall L, afterJson response L =
                        L |> Loop.update (setPendingImageRef url)
                          |> Loop.update (setLoading false)).
  { intros L. unfold afterJson. rewrite Hj, Hu. reflexivity. }
  assert (F : forall L, afterFetch (Js.Fulfilled response) L =
                        Loop.await (awaitJson response) L).
  { intros L. unfold afterFetch. rewrite Hok. reflexivity. }
  generalize (Loop.clock L0), (animationKey (Loop.view L0)),
    (Loop.nextPromise L0), (Loop.uncaught L0). clear - C F.
  intros c key n u.
  cmp_step; cmp_step; rewrite F; cmp_norm; cmp_step; cmp_step;
    rewrite C; cmp_norm; cmp_step; cbn [run fold_left]; cmp_norm;
    unfold displayed; cmp_norm;
    destruct (N.ltb_spec (d1 + d2 + ms) 6300); try lia;
    destruct (N.ltb_spec (d1 + d2) 6300); try lia;
    destruct (N.leb_spec 6300 (d1 + d2 + ms)); try lia;
    cbn [andb]; destruct (Js.truthy url) eqn:T; cbn [andb Js.truthy];
    rewrite ?T; repeat split.
Qed.

Lemma cmp_consistent (L : Loop) :
  steady L -> guarded L ->
  showResult (Loop.view L) = negb (isAnimating (Loop.view L)) /\
  (isAnimating (Loop.view L) = true -> displayed (Loop.view L) = None) /\
  List.length (Loop.timers L) = (if isAnimating (Loop.view L) then 1 else 0) /\
  Forall (fun x => (Loop.clock L < Loop.due x)%N) (Loop.timers L) /\
  List.length (Loop.pending L) = (if loading (Loop.view L) then 1 else 0).
Proof.
  intros [_ St] G.
  assert (P : List.length (Loop.pending L) =
              (if loading (Loop.view L) then 1 else 0)).
  { destruct G as [[-> ->]|[-> (p & k & ->)]]; reflexivity. }
  destruct St as [(T & _ & A & R)|(due & i & T & _ & A & R & C & D)];
    unfold displayed; rewrite T, A, R.
  - repeat split; [discriminate|constructor|exact P].
  - repeat split; [|exact P]. constructor; [exact D|constructor].
Qed.

End ComparisonFacts.

(** X13.  On the comparison page, whatever is clicked and whenever the
    request settles: the result panel is hidden exactly while the
    animation plays and displays no image then; the animation plays
    exactly while its timer is pending, there is never more than that
    one timer and no timer is left due; and the run button is disabled
    exactly while a request is under way, which is never more than
    one. *)
Theorem animation_cycle_is_consistent (now : N) (es : list Comparison.Event) :
  let L := Comparison.run es (Loop.mount Comparison.initial now) in
  Comparison.showResult (Loop.view L) =
    negb (Comparison.isAnimating (Loop.view L)) /\
  (Comparison.isAnimating (Loop.view L) = true ->
   Comparison.displayed (Loop.view L) = None) /\
  List.length (Loop.timers L) =
    (if Comparison.isAnimating (Loop.view L) then 1 else 0) /\
  Forall (fun x => (Loop.clock L < Loop.due x)%N) (Loop.timers L) /\
  List.length (Loop.pending L) =
    (if Comparison.loading (Loop.view L) then 1 else 0).
Proof.
  intros L.
  destruct (ComparisonFacts.cmp_run es _ (ComparisonFacts.cmp_mount now))
    as [St G].
  exact (ComparisonFacts.cmp_consistent L St G).
Qed.

(** X14.  On the comparison page the image a run fetches is displayed
    only if its body was read before the animation ended: with the
    answer [d1] ms and the body [d1 + d2] ms after the click, the
    animation plays for 6300 ms from the click, and the image is on
    display from then on if [d1 + d2 < 6300] and the url is not empty;
    an image which arrives later is never displayed.  The button is
    free once the body is read. *)
Theorem fetched_image_is_displayed_in_time
    (now : N) (before : list Comparison.Event) (d1 d2 ms : N)
    (response : Js.Response) (data url : Js.Val) :
  let L0 := Comparison.run before (Loop.mount Comparison.initial now) in
  Comparison.loading (Loop.view L0) = false ->
  Js.ok response = true ->
  Js.bodyJson response = inr data ->
  Comparison.firstUrl data = inr url ->
  let n := Loop.nextPromise L0 in
  let L :=
    Comparison.run
      [Comparison.ClickRun; Comparison.Elapse d1;
       Comparison.FetchSettles n (Js.Fulfilled response);
       Comparison.Elapse d2; Comparison.BodyRead (S n);
       Comparison.Elapse ms] L0 in
  Comparison.loading (Loop.view L) = false /\
  Comparison.isAnimating (Loop.view L) = N.ltb (d1 + d2 + ms) 6300 /\
  Comparison.displayed (Loop.view L) =
    (if N.ltb (d1 + d2) 6300 && N.leb 6300 (d1 + d2 + ms) && Js.truthy url
     then Some url else None) /\
  Loop.pending L = [].
Proof.
  exact (ComparisonFacts.cmp_displayed before now d1 d2 ms response data url).
Qed.

Lemma fetched_image_is_displayed_in_time_witness :
  let before := [Comparison.ClickRun; Comparison.Elapse 1000;
                 Comparison.FetchSettles 0 (Js.Fulfilled Sample.notFound)] in
  let data := Js.Arr [Js.Obj [("id", Js.Str "9j5");
                              ("url", Js.Str Sample.catUrl)]] in
  let url := Js.Str Sample.catUrl in
  let L0 := Comparison.run before (Loop.mount Comparison.initial 0) in
  (Comparison.loading (Loop.view L0) = false /\
   Js.ok Sample.cat = true /\ Js.bodyJson Sample.cat = inr data /\
   Comparison.firstUrl data = inr url) /\
  let L :=
    Comparison.run
      [Comparison.ClickRun; Comparison.Elapse 100;
       Comparison.FetchSettles 1 (Js.Fulfilled Sample.cat);
       Comparison.Elapse 50; Comparison.BodyRead 2;
       Comparison.Elapse 6150] L0 in
  Comparison.loading (Loop.view L) = false /\
  Comparison.isAnimating (Loop.view L) = false /\
  Comparison.displayed (Loop.view L) = Some url /\
  Loop.pending L = [].
Proof.
  intros before data url L0. split.
  - repeat split; reflexivity.
  - apply (fetched_image_is_displayed_in_time 0 before 100 50 6150
             Sample.cat data url); reflexivity.
Defined.

(** X15.  On the comparison page a request that is rejected or
    answered with a status outside 200..299 stops the animation at
    once, wherever it stood: from then on no animation plays, the
    result panel is back with no image in it, the button is free, and
    neither a timer nor a request is left. *)
Theorem failed_fetch_stops_the_cycle
    (now : N) (before : list Comparison.Event) (d1 ms : N)
    (r : Js.Settled) :
  let L0 := Comparison.run before (Loop.mount Comparison.initial now) in
  Comparison.loading (Loop.view L0) = false ->
  Failure.fetch r = true ->
  let L :=
    Comparison.run
      [Comparison.ClickRun; Comparison.Elapse d1;
       Comparison.FetchSettles (Loop.nextPromise L0) r;
       Comparison.Elapse ms] L0 in
  Comparison.isAnimating (Loop.view L) = false /\
  Comparison.showResult (Loop.view L) = true /\
  Comparison.loading (Loop.view L) = false /\
  Comparison.displayed (Loop.view L) = None /\
  Loop.timers L = [] /\ Loop.pending L = [].
Proof.
  exact (ComparisonFacts.cmp_fetch_fails before now d1 ms r).
Qed.

Lemma failed_fetch_stops_the_cycle_witness :
  let r := Js.Fulfilled Sample.notFound in
  let L0 := Loop.mount Comparison.initial 0 in
  (Comparison.loading (Loop.view L0) = false /\ Failure.fetch r = true) /\
  let L :=
    Comparison.run
      [Comparison.ClickRun; Comparison.Elapse 800;
       Comparison.FetchSettles 0 r; Comparison.Elapse 0] L0 in
  Comparison.isAnimating (Loop.view L) = false /\
  Comparison.showResult (Loop.view L) = true /\
  Comparison.loading (Loop.view L) = false /\
  Comparison.displayed (Loop.view L) = None /\
  Loop.timers L = [] /\ Loop.pending L = [].
Proof.
  intros r L0. split.
  - split; reflexivity.
  - apply (failed_fetch_stops_the_cycle 0 [] 800 0 r); reflexivity.
Defined.

(** X16.  On the comparison page an ok answer which [handleNativeFetch]
    cannot use (a body that is not valid JSON, or one where reading
    [data[0].url] throws, as for an empty list) is caught: when the
    body is read the animation stops if it still plays, the result
    panel is back with no image in it, the button is free, and neither
    a timer nor a request is left. *)
Theorem unusable_answer_stops_the_cycle
    (now : N) (before : list Comparison.Event) (d1 d2 ms : N)
    (response : Js.Response) :
  let L0 := Comparison.run before (Loop.mount Comparison.initial now) in
  Comparison.loading (Loop.view L0) = false ->
  Js.ok response = true ->
  Comparison.unusable response ->
  let n := Loop.nextPromise L0 in
  let L :=
    Comparison.run
      [Comparison.ClickRun; Comparison.Elapse d1;
       Comparison.FetchSettles n (Js.Fulfilled response);
       Comparison.Elapse d2; Comparison.BodyRead (S n);
       Comparison.Elapse ms] L0 in
  Comparison.isAnimating (Loop.view L) = false /\
  Comparison.showResult (Loop.view L) = true /\
  Comparison.loading (Loop.view L) = false /\
  Comparison.displayed (Loop.view L) = None /\
  Loop.timers L = [] /\ Loop.pending L = [].
Proof.
  exact (ComparisonFacts.cmp_body_fails before now d1 d2 ms response).
Qed.

Lemma unusable_answer_stops_the_cycle_witness :
  let L0 := Loop.mount Comparison.initial 0 in
  (Comparison.loading (Loop.view L0) = false /\
   Js.ok Sample.noCat = true /\ Comparison.unusable Sample.noCat) /\
  let L :=
    Comparison.run
      [Comparison.ClickRun; Comparison.Elapse 800;
       Comparison.FetchSettles 0 (Js.Fulfilled Sample.noCat);
       Comparison.Elapse 5; Comparison.BodyRead 1;
       Comparison.Elapse 0] L0 in
  Comparison.isAnimating (Loop.view L) = false /\
  Comparison.showResult (Loop.view L) = true /\
  Comparison.loading (Loop.view L) = false /\
  Comparison.displayed (Loop.view L) = None /\
  Loop.timers L = [] /\ Loop.pending L = [].
Proof.
  intros L0. split.
  - repeat split; reflexivity.
  - apply (unusable_answer_stops_the_cycle 0 [] 800 5 0 Sample.noCat);
      [reflexivity|reflexivity|exact I].
Defined.

(** ** The configuration page while the request is unanswered *)

Module TimeFacts.
Section TimeFacts.
Context {View Callback Cont : Type}.
Variable fire : Callback -> N -> View -> View * option Js.Error.
Local Abbreviation Timer := (Loop.Timer Callback).
Local Abbreviation Loop := (Loop.t View Callback Cont).




End TimeFacts.
End TimeFacts.

Module ConfigFacts.
Import RequestConfig Config.
Local Abbreviation elapse := (Loop.elapse fire).




Lemma cfg_same_select m (L L' : Loop) :
  same L L' -> same L (handle (Select m) L').
Proof.
  intros [m' ->]. exists m. destruct L as [v c q nt pd np u]. reflexivity.
Qed.








End ConfigFacts.



(** ** The execution time the promises page reports *)

Module TimingFacts.
Import PromisesAsync.

Lemma tm_take_clock p (L L' : Loop) k :
  Loop.take p L = Some (k, L') -> Loop.clock L' = Loop.clock L.
Proof.
  unfold Loop.take. destruct (Loop.remove p (Loop.pending L)) as [[k' r]|];
    [|discriminate]. intros [= _ <-]. reflexivity.
Qed.

Lemma tm_clock e (L : Loop) :
  Loop.clock (handle e L) =
  (Loop.clock L + match e with Elapse ms => ms | _ => 0 end)%N.
Proof.
  destruct e as [m| | |ms|p r|p]; cbn [handle]; rewrite ?N.add_0_r;
    try reflexivity.
  - destruct (Status.eqb _ _); reflexivity.
  - destruct (Loop.take p L) as [[k L']|] eqn:T; [|reflexivity].
    apply tm_take_clock in T. destruct k; [|reflexivity].
    unfold afterFetch. destruct r as [e|response]; [exact T|].
    destruct (negb (Js.ok response)); exact T.
  - destruct (Loop.take p L) as [[k L']|] eqn:T; [|reflexivity].
    apply tm_take_clock in T. destruct k; [reflexivity|].
    unfold afterJson. destruct (Js.bodyJson response); exact T.
Qed.

Lemma tm_execution_time (L0 : Loop) d1 d2 d3 response fields rest url :
  Loop.quiescent L0 ->
  status (Loop.view L0) <> Status.loading ->
  Js.ok response = true ->
  Js.bodyJson response = inr (Js.Arr (Js.Obj fields :: rest)) ->
  Js.lookup "url" fields = Some url ->
  (3200 <= d3)%N ->
  let p := Loop.nextPromise L0 in
  let L := run [ClickRun; Elapse d1; FetchSettles p (Js.Fulfilled response);
                Elapse d2; BodyRead (S p); Elapse d3] L0 in
  executionTime (Loop.view L) = Some (d1 + d2 + 3200)%N /\
  last (logs (Loop.view L)) =
    Some {| msg := "Total execution time: " +:+
                   Js.num (d1 + d2 + 3200)%N +:+ "ms";
            type := Kind.info;
            timestamp := (Loop.clock L0 + d1 + d2 + 3200)%N |}.
Proof.
  intros Q0 Hs Hok Hjson Hurl Hd p.
  rewrite PromisesAsyncFacts.pa_run_cons,
    (PromisesAsyncFacts.pa_click_run L0 Hs).
  set (m := mode (Loop.view L0)).
  pose proof (PromisesAsyncFacts.pa_awaiting_runFlow m L0 Q0) as A.
  assert (C0 : Loop.clock (runFlow m L0) = Loop.clock L0) by reflexivity.
  apply (PromisesAsyncFacts.pa_awaiting_elapse _ _ _ d1) in A.
  assert (C1 := tm_clock (Elapse d1) (runFlow m L0)). rewrite C0 in C1.
  apply (PromisesAsyncFacts.pa_awaiting_response _ _ _ _ response) in A;
    [|lia|exact Hok].
  assert (C2 := tm_clock (FetchSettles p (Js.Fulfilled response))
                  (handle (Elapse d1) (runFlow m L0))).
  rewrite C1 in C2.
  apply (PromisesAsyncFacts.pa_awaiting_elapse _ _ _ d2) in A.
  assert (C3 := tm_clock (Elapse d2)
                  (handle (FetchSettles p (Js.Fulfilled response))
                     (handle (Elapse d1) (runFlow m L0)))).
  rewrite C2 in C3.
  apply (fun H => PromisesAsyncFacts.pa_body_read _ _ _ _ _ _ H A) in Hjson;
    [|lia].
  assert (C4 := tm_clock (BodyRead (S p))
                  (handle (Elapse d2)
                     (handle (FetchSettles p (Js.Fulfilled response))
                        (handle (Elapse d1) (runFlow m L0))))).
  rewrite C3 in C4. rewrite !N.add_0_r in C4.
  fold p in Hjson.
  destruct Hjson as (_ & q & i & Ht & Hq).
  do 5 rewrite PromisesAsyncFacts.pa_run_cons.
  set (L2 := handle (BodyRead (S p)) _) in *. clearbody L2. clear A C1 C2 C3.
  cbn [run fold_left handle]. unfold Loop.elapse.
  cbn [Loop.view Loop.timers]. rewrite Ht.
  destruct (LoopFacts.drain_last_due fire
              (fun v => True) (Loop.clock L2 + d3) q
              {| Loop.id := i; Loop.due := (Loop.clock L2 + 3200)%N;
                 Loop.callback := updated (Js.Arr (Js.Obj fields :: rest))
                                           (Loop.clock L0) |}
              (Loop.view L2) (Loop.uncaught L2))
    as (s1 & e1 & _ & ->); cbn [Loop.due Loop.callback]; [| lia | exact I |].
  - eapply Forall_impl; [exact Hq|]. cbn. intros x [Hx _]. split; [lia|auto].
  - rewrite (PromisesAsyncFacts.pa_fire_updated _ _ _ _ _ _ Hurl).
    rewrite C4.
    replace (Loop.clock L0 + d1 + d2 + 3200 - Loop.clock L0)%N
      with (d1 + d2 + 3200)%N by lia.
    cbn [fst Loop.view]. split; [reflexivity|].
    unfold addLog at 1. unfold setLogs. cbn [logs]. apply last_snoc.
Qed.

End TimingFacts.

(** X18.  On the promises page the total execution time of a
    successful run is measured when the last narration timer runs, not
    when the data is there: with the answer [d1] ms and the body
    [d1 + d2] ms after the click, the time reported once the run has
    ended is [d1 + d2 + 3200] ms, and the last log line says so. *)
Theorem reported_time_includes_narration
    (L0 : PromisesAsync.Loop) (d1 d2 d3 : N) (response : Js.Response)
    (fields : list (string * Js.Val)) (rest : list Js.Val) (url : Js.Val) :
  Loop.quiescent L0 ->
  PromisesAsync.status (Loop.view L0) <> Status.loading ->
  Js.ok response = true ->
  Js.bodyJson response = inr (Js.Arr (Js.Obj fields :: rest)) ->
  Js.lookup "url" fields = Some url ->
  (3200 <= d3)%N ->
  let p := Loop.nextPromise L0 in
  let L :=
    PromisesAsync.run
      [ClickRun; Elapse d1; FetchSettles p (Js.Fulfilled response);
       Elapse d2; BodyRead (S p); Elapse d3] L0 in
  PromisesAsync.executionTime (Loop.view L) = Some (d1 + d2 + 3200)%N /\
  last (PromisesAsync.logs (Loop.view L)) =
    Some {| msg := "Total execution time: " +:+
                   Js.num (d1 + d2 + 3200)%N +:+ "ms";
            type := Kind.info;
            timestamp := (Loop.clock L0 + d1 + d2 + 3200)%N |}.
Proof.
  exact (TimingFacts.tm_execution_time L0 d1 d2 d3 response fields rest url).
Qed.

Lemma reported_time_includes_narration_witness :
  let L0 := Loop.mount PromisesAsync.initial 1000 in
  let fields := [("id", Js.Str "9j5"); ("url", Js.Str Sample.catUrl)] in
  (Loop.quiescent L0 /\
   PromisesAsync.status (Loop.view L0) <> Status.loading /\
   Js.ok Sample.cat = true /\
   Js.bodyJson Sample.cat = inr (Js.Arr (Js.Obj fields :: [])) /\
   Js.lookup "url" fields = Some (Js.Str Sample.catUrl) /\
   (3200 <= 3200)%N) /\
  let L :=
    PromisesAsync.run
      [ClickRun; Elapse 180; FetchSettles 0 (Js.Fulfilled Sample.cat);
       Elapse 20; BodyRead 1; Elapse 3200] L0 in
  PromisesAsync.executionTime (Loop.view L) = Some 3400%N /\
  last (PromisesAsync.logs (Loop.view L)) =
    Some {| msg := "Total execution time: 3400ms"; type := Kind.info;
            timestamp := 4400%N |}.
Proof.
  intros L0 fields. split.
  - repeat split; try reflexivity; try discriminate; lia.
  - apply (reported_time_includes_narration L0 180 20 3200 Sample.cat
             fields [] (Js.Str Sample.catUrl));
      try reflexivity; try discriminate; try lia; split; reflexivity.
Defined.

(** ** The narration after a failed request *)

(** Decide the order of the times at which timers are due. *)
Ltac order_times :=
  repeat match goal with
         | |- context [N.leb ?a ?b] => destruct (N.leb_spec a b); try lia
         | |- context [N.ltb ?a ?b] => destruct (N.ltb_spec a b); try lia
         end.

(** Unfold the event loop on a state which is written out. *)
Ltac loop_step :=
  progress
    (cbv [fold_left Loop.elapse Loop.take Loop.remove Loop.await
          Loop.setTimeout Loop.update Loop.enqueue Loop.view Loop.clock
          Loop.timers Loop.nextTimer Loop.pending Loop.nextPromise
          Loop.uncaught Loop.due Loop.callback Loop.drain Loop.withPending
          app fst snd];
     rewrite ?Nat.eqb_refl).

Module FetchBasicsStalls.
Import FetchBasics.

Lemma fb_stalls (L0 : Loop) d1 d2 r :
  Loop.quiescent L0 ->
  status (Loop.view L0) <> Status.loading ->
  Failure.fetch r = true ->
  (1400 <= d1 + d2)%N ->
  let L := run [ClickRun; Elapse d1; FetchSettles (Loop.nextPromise L0) r;
                Elapse d2] L0 in
  step (Loop.view L) = 2 /\ status (Loop.view L) = Status.error /\
  Loop.quiescent L.
Proof.
  intros [T P] Hs Hf Hd.
  rewrite FetchBasicsFacts.fb_run_cons, (FetchBasicsFacts.fb_click_run L0 Hs).
  destruct L0 as [v c q nt pd np u]. cbn in T, P. subst q pd. clear Hs.
  unfold run. cbn [handle fold_left].
  assert (C : forall  L, exists e,
              afterFetch r L = catch e L \/
              exists m k,
                afterFetch r L =
                catch e (Loop.update (addLog m k (Loop.clock L)) L)).
  { intros  L. unfold afterFetch. destruct r as [e|response]; [eauto|].
    cbn in Hf. rewrite Hf. eauto. }
  unfold runFetch, Loop.quiescent.
  repeat (loop_step; order_times).
  all: match goal with
       | |- context [afterFetch ?r' ?L] =>
           destruct (C  L) as [e [->|(m & k & ->)]]
       end.
  all: unfold catch; repeat (loop_step; order_times).
  all: cbn; repeat split.
Qed.

End FetchBasicsStalls.

Module XhrLegacyStalls.
Import XhrLegacy.

Lemma xhr_stalls (L0 : Loop) d1 d2 r :
  Loop.quiescent L0 ->
  status (Loop.view L0) <> Status.loading ->
  Failure.fetch r = true ->
  (1400 <= d1 + d2)%N ->
  let L := run [ClickRun; Elapse d1; FetchSettles (Loop.nextPromise L0) r;
                Elapse d2] L0 in
  step (Loop.view L) = 2 /\ status (Loop.view L) = Status.error /\
  Loop.quiescent L.
Proof.
  intros [T P] Hs Hf Hd.
  rewrite XhrLegacyFacts.xhr_run_cons, (XhrLegacyFacts.xhr_click_run L0 Hs).
  destruct L0 as [v c q nt pd np u]. cbn in T, P. subst q pd. clear Hs.
  unfold run. cbn [handle fold_left].
  assert (C : forall method L, exists e,
              afterFetch method r L = catch e L \/
              exists m k,
                afterFetch method r L =
                catch e (Loop.update (addLog m k (Loop.clock L)) L)).
  { intros method L. unfold afterFetch.
    destruct r as [e|response]; [eauto|].
    cbn in Hf. rewrite Hf. eauto. }
  unfold runXhrFlow, Loop.quiescent.
  repeat (loop_step; order_times).
  all: match goal with
       | |- context [afterFetch ?a1 ?r' ?L] =>
           destruct (C a1 L) as [e [->|(m & k & ->)]]
       end.
  all: unfold catch; repeat (loop_step; order_times).
  all: cbn; repeat split.
Qed.

End XhrLegacyStalls.

Module PromisesAsyncStalls.
Import PromisesAsync.

Lemma pa_stalls (L0 : Loop) d1 d2 r :
  Loop.quiescent L0 ->
  status (Loop.view L0) <> Status.loading ->
  Failure.fetch r = true ->
  (1200 <= d1 + d2)%N ->
  let L := run [ClickRun; Elapse d1; FetchSettles (Loop.nextPromise L0) r;
                Elapse d2] L0 in
  step (Loop.view L) = 2 /\ status (Loop.view L) = Status.error /\
  Loop.quiescent L.
Proof.
  intros [T P] Hs Hf Hd.
  rewrite PromisesAsyncFacts.pa_run_cons, (PromisesAsyncFacts.pa_click_run L0 Hs).
  destruct L0 as [v c q nt pd np u]. cbn in T, P. subst q pd. clear Hs.
  unfold run. cbn [handle fold_left].
  assert (C : forall selectedMode startTime L, exists e,
              afterFetch selectedMode startTime r L = catch e L \/
              exists m k,
                afterFetch selectedMode startTime r L =
                catch e (Loop.update (addLog m k (Loop.clock L)) L)).
  { intros selectedMode startTime L. unfold afterFetch.
    destruct r as [e|response]; [eauto|].
    cbn in Hf. rewrite Hf. eauto. }
  unfold runFlow, Loop.quiescent.
  repeat (loop_step; order_times).
  all: match goal with
       | |- context [afterFetch ?a1 ?a2 ?r' ?L] =>
           destruct (C a1 a2 L) as [e [->|(m & k & ->)]]
       end.
  all: unfold catch; repeat (loop_step; order_times).
  all: cbn; repeat split.
Qed.

End PromisesAsyncStalls.

(** X19.  On a page which displays the fetched image a failed request
    does not stop the narration: the two timers set before the request
    still run, so that from 1400 ms after the click the step is 2 and
    stays there, short of the full progress bar, while the status is
    error and neither a timer nor a request is left. *)
Theorem narration_outlives_failure
    (stringify : Js.Val -> string) (byteSize : string -> N)
    (kilobytes : N -> string) (createObjectURL : Js.Blob -> string)
    (p : Demo.t) (d1 d2 : N) (r : Js.Settled) :
  Demo.showsImage p = true ->
  Demo.quiescent p ->
  Demo.status p <> Status.loading ->
  Failure.fetch r = true ->
  (1400 <= d1 + d2)%N ->
  let p' :=
    Demo.run stringify byteSize kilobytes createObjectURL
      [ClickRun; Elapse d1; FetchSettles (Demo.nextPromise p) r; Elapse d2]
      p in
  Demo.step p' = 2 /\ Demo.step p' < Progress.bar p' /\
  Demo.status p' = Status.error /\ Demo.quiescent p'.
Proof.
  intros Hi Q Hs Hf Hd.
  destruct p as [L|L|L| | | ]; try discriminate Hi;
    cbn [Demo.quiescent Demo.status] in Q, Hs; cbn [Demo.nextPromise];
    cbv zeta.
  - rewrite run_fetchBasics.
    destruct (FetchBasicsStalls.fb_stalls L d1 d2 r Q Hs Hf Hd)
      as (A & B & C).
    cbn [Demo.step Demo.status Demo.quiescent Progress.bar].
    rewrite A. repeat split; [lia|exact B|apply C|apply C].
  - rewrite run_xhrLegacy.
    destruct (XhrLegacyStalls.xhr_stalls L d1 d2 r Q Hs Hf Hd)
      as (A & B & C).
    cbn [Demo.step Demo.status Demo.quiescent Progress.bar].
    rewrite A. repeat split; [lia|exact B|apply C|apply C].
  - rewrite run_promisesAsync.
    assert (Hd' : (1200 <= d1 + d2)%N) by lia.
    destruct (PromisesAsyncStalls.pa_stalls L d1 d2 r Q Hs Hf Hd')
      as (A & B & C).
    cbn [Demo.step Demo.status Demo.quiescent Progress.bar].
    rewrite A. repeat split; [lia|exact B|apply C|apply C].
Qed.

Lemma narration_outlives_failure_witness :
  let p := Sample.fetchPage in
  let r := Js.Fulfilled Sample.notFound in
  (Demo.showsImage p = true /\ Demo.quiescent p /\
   Demo.status p <> Status.loading /\ Failure.fetch r = true /\
   (1400 <= 200 + 1200)%N) /\
  let p' := Sample.run [ClickRun; Elapse 200; FetchSettles 0 r; Elapse 1200]
              p in
  Demo.step p' = 2 /\ Demo.step p' < Progress.bar p' /\
  Demo.status p' = Status.error /\ Demo.quiescent p'.
Proof.
  intros p r. split.
  - repeat split; try reflexivity; try discriminate; lia.
  - apply (narration_outlives_failure Sample.stringify Sample.byteSize
             Sample.kilobytes Sample.createObjectURL p 200 1200 r);
      try reflexivity; try discriminate; try lia; split; reflexivity.
Defined.
